(** * Application Form Manager: a shallow embedding and its properties

    The development follows [src/app/components/ApplicationFormManager.tsx].
    The React component keeps five pieces of state (files, uploading, loading,
    error, success) and talks to a storage backend through four calls
    (list, createSignedUrl, upload, remove).  The handlers only ever write the
    component state through its setters, so a handler is modelled as a
    function on an explicit state that threads the component state, the
    backend, the clock, the log of backend calls and the history of the
    states the component has displayed. *)

From Stdlib Require Import ZArith List Ascii String Bool Lia DecimalString.
From stdpp Require Import gmap strings.

Local Open Scope Z_scope.

(* ===================================================================== *)
(** * The fragment of the JavaScript runtime the component relies on      *)
(* ===================================================================== *)

Module JS.

(** Strings are sequences of code units; file names are split on the
    single code unit ['.'], so a byte string is an adequate carrier. *)

(** [s.split(sep)] for a one-character separator, as a non-empty list
    given by its first segment and the remaining ones:
    ["a.b"] splits into ["a"] and ["b"], the empty string into one empty
    segment. *)
Fixpoint split_segments (sep : ascii) (s : string) : string * list string :=
  match s with
  | EmptyString => (EmptyString, [])
  | String c r =>
      let '(h, t) := split_segments sep r in
      if Ascii.eqb c sep then (EmptyString, h :: t) else (String c h, t)
  end.

Definition split (sep : ascii) (s : string) : list string :=
  let '(h, t) := split_segments sep s in h :: t.

(** [arr.join(sep)] on a non-empty array given as for [split]. *)
Definition join (sep : ascii) (h : string) (t : list string) : string :=
  h +:+ foldr (fun x acc => String sep (x +:+ acc)) EmptyString t.

(** [arr[0]] on the result of [split] (never empty). *)
Definition first_segment (sep : ascii) (s : string) : string :=
  fst (split_segments sep s).

(** [arr.pop()] on the result of [split] (never empty): its last element. *)
Definition pop_segment (sep : ascii) (s : string) : string :=
  let '(h, t) := split_segments sep s in List.last t h.

(** [s.replace(/[:.]/g, '-')]. *)
Fixpoint replace_colon_dot (s : string) : string :=
  match s with
  | EmptyString => EmptyString
  | String c r =>
      String (if (Ascii.eqb c ":" || Ascii.eqb c ".")%bool then "-"%char else c)
             (replace_colon_dot r)
  end.

(** [s.includes(c)] for a single code unit [c]. *)
Fixpoint has_char (c : ascii) (s : string) : bool :=
  match s with
  | EmptyString => false
  | String a r => Ascii.eqb a c || has_char c r
  end.

(** [arr.includes(x)] on an array of strings. *)
Definition includes (l : list string) (x : string) : bool :=
  existsb (String.eqb x) l.

(** Truthiness of a possibly absent string: [undefined], [null] and the
    empty string are falsy. *)
Definition truthy_string (o : option string) : bool :=
  match o with
  | Some s => negb (String.eqb s EmptyString)
  | None => false
  end.

(** Decimal digits of a non-negative integer. *)
Definition dec (n : Z) : string :=
  NilZero.string_of_uint (N.to_uint (Z.to_N n)).

Fixpoint zeros (n : nat) : string :=
  match n with
  | O => EmptyString
  | S k => String "0" (zeros k)
  end.

(** Decimal digits left-padded with zeros to a width. *)
Definition pad (w : nat) (n : Z) : string :=
  let d := dec n in zeros (w - String.length d) +:+ d.

(** Days since 1970-01-01 to (year, month, day) of the proleptic
    Gregorian calendar. *)
Definition civil_from_days (days : Z) : Z * Z * Z :=
  let z := days + 719468 in
  let era := z / 146097 in
  let doe := z - era * 146097 in
  let yoe := (doe - doe / 1460 + doe / 36524 - doe / 146096) / 365 in
  let doy := doe - (365 * yoe + yoe / 4 - yoe / 100) in
  let mp := (5 * doy + 2) / 153 in
  let d := doy - (153 * mp + 2) / 5 + 1 in
  let m := if mp <? 10 then mp + 3 else mp - 9 in
  let y := yoe + era * 400 in
  (if m <=? 2 then y + 1 else y, m, d).

(** The year of [toISOString]: four digits between 0 and 9999, a sign and
    six digits outside. *)
Definition iso_year (y : Z) : string :=
  if (0 <=? y) && (y <=? 9999) then pad 4 y
  else if y <? 0 then "-" +:+ pad 6 (- y)
  else "+" +:+ pad 6 y.

(** [new Date(ms).toISOString()] for a time value [ms] in milliseconds
    since the epoch: [YYYY-MM-DDTHH:mm:ss.sssZ]. *)
Definition toISOString (ms : Z) : string :=
  let days := ms / 86400000 in
  let rest := ms mod 86400000 in
  let '(y, m, d) := civil_from_days days in
  iso_year y +:+ "-" +:+ pad 2 m +:+ "-" +:+ pad 2 d +:+ "T" +:+
  pad 2 (rest / 3600000) +:+ ":" +:+ pad 2 (rest / 60000 mod 60) +:+ ":" +:+
  pad 2 (rest / 1000 mod 60) +:+ "." +:+ pad 3 (rest mod 1000) +:+ "Z".

(** A number as it takes part in the size formatting: an exact multiple
    of 1/100 (what [parseFloat(x.toFixed(2))] denotes), or NaN. *)
Inductive hundredths :=
| Hundredths (n : Z)
| NaN.

(** String conversion of such a number: the decimal expansion of [n/100]
    without trailing zeros (["1"], ["1.5"], ["1.25"]). *)
Definition number_to_string (x : hundredths) : string :=
  match x with
  | NaN => "NaN"
  | Hundredths n =>
      let sign := if n <? 0 then "-" else EmptyString in
      let a := Z.abs n in
      let frac := a mod 100 in
      sign +:+ dec (a / 100) +:+
      (if frac =? 0 then EmptyString
       else if frac mod 10 =? 0 then "." +:+ dec (frac / 10)
       else "." +:+ pad 2 frac)
  end.

(** String conversion of an array element that may be out of range. *)
Definition element_to_string (o : option string) : string :=
  match o with
  | Some s => s
  | None => "undefined"
  end.

End JS.

(* ===================================================================== *)
(** * Data model                                                          *)
(* ===================================================================== *)

(** The browser's [File] as far as the component reads it. *)
Module File.
Record t := mk { name : string; type : string; size : Z }.
End File.

(** [interface UploadedFile]. *)
Module UploadedFile.
Record t := mk {
  name : string;
  path : string;
  size : Z;
  uploadedAt : string;
  url : option string
}.
End UploadedFile.

(** The storage client's interface, as the component consumes it. *)
Module Storage.

Record StorageError := { message : string }.

(** [file.metadata] is an open record; only [size] is read. *)
Record Metadata := { size : option Z }.

Record FileObject := {
  name : string;
  metadata : option Metadata;
  created_at : option string
}.

Record SignedUrl := { signedUrl : string }.

(** Every call answers with [{ data, error }]. *)
Record Response (A : Type) := { data : option A; error : option StorageError }.
Arguments data {A} _.
Arguments error {A} _.
Arguments Build_Response {A} _ _.

(** A promise either resolves with a response or rejects. *)
Inductive Settled (A : Type) :=
| Resolved (a : A)
| Rejected.
Arguments Resolved {A} _.
Arguments Rejected {A}.

Record SearchOptions := { limit : Z; offset : Z }.
Record FileOptions := { cacheControl : string; upsert : bool }.

(** The requests sent to the backend, in the order they are issued. *)
Inductive Call :=
| CallList (bucket folder : string) (options : SearchOptions)
| CallCreateSignedUrl (bucket path : string) (expiresIn : Z)
| CallUpload (bucket path : string) (file : File.t) (options : FileOptions)
| CallRemove (bucket : string) (paths : list string).

(** A backend with state [B]: the capability interface
    {list, createSignedUrl, upload, remove}. *)
Record Backend (B : Type) := {
  list : string -> string -> SearchOptions -> B ->
         Settled (Response (Datatypes.list FileObject)) * B;
  createSignedUrl : string -> string -> Z -> B ->
         Settled (Response SignedUrl) * B;
  upload : string -> string -> File.t -> FileOptions -> B ->
         Settled (Response string) * B;
  remove : string -> Datatypes.list string -> B ->
         Settled (Response (Datatypes.list FileObject)) * B
}.
Arguments list {B} _ _ _ _ _.
Arguments createSignedUrl {B} _ _ _ _ _.
Arguments upload {B} _ _ _ _ _ _.
Arguments remove {B} _ _ _ _.

End Storage.

(** The component state: the five [useState] cells. *)
Module Component.
Record t := mk {
  files : list UploadedFile.t;
  uploading : bool;
  loading : bool;
  error : option string;
  success : option string
}.

(** The initial values passed to [useState]. *)
Definition initial : t :=
  {| files := []; uploading := false; loading := true;
     error := None; success := None |}.
End Component.

(** The environment of one component instance: the storage client, the
    [clientId] prop, the system clock (its successive readings, in
    milliseconds since the epoch) and the user answering [confirm]. *)
Record Env (B : Type) := {
  backend : Storage.Backend B;
  clientId : string;
  clock : nat -> Z;
  confirm : string -> bool
}.
Arguments backend {B} _.
Arguments clientId {B} _.
Arguments clock {B} _.
Arguments confirm {B} _.

(** What a handler runs on: the component state, the backend, the number
    of clock readings taken so far, the backend calls issued so far, and
    the component states displayed so far (one per setter call). *)
Record World (B : Type) := {
  ui : Component.t;
  store : B;
  ticks : nat;
  calls : list Storage.Call;
  renders : list Component.t
}.
Arguments ui {B} _.
Arguments store {B} _.
Arguments ticks {B} _.
Arguments calls {B} _.
Arguments renders {B} _.
Arguments Build_World {B} _ _ _ _ _.

Definition mount {B : Type} (b : B) : World B :=
  {| ui := Component.initial; store := b; ticks := O; calls := [];
     renders := [Component.initial] |}.

(* ===================================================================== *)
(** * Handlers as programs with completions                               *)
(* ===================================================================== *)

(** How a block of statements completes: normally with a value, by a
    [return;] statement, or by a thrown exception (a rejected awaited
    promise). *)
Inductive Completion (A : Type) :=
| Normal (a : A)
| Return
| Throw.
Arguments Normal {A} _.
Arguments Return {A}.
Arguments Throw {A}.

Definition Prog (B A : Type) : Type := World B -> Completion A * World B.

#[global] Instance prog_ret {B} : MRet (Prog B) :=
  fun A a w => (Normal a, w).

#[global] Instance prog_bind {B} : MBind (Prog B) :=
  fun A C k m w =>
    match m w with
    | (Normal a, w1) => k a w1
    | (Return, w1) => (Return, w1)
    | (Throw, w1) => (Throw, w1)
    end.

(** The world a program leaves behind. *)
Definition exec {B A} (p : Prog B A) (w : World B) : World B := snd (p w).

Section Control.
Context {B : Type}.

(** [return;] *)
Definition return_ {A} : Prog B A := fun w => (Return, w).

(** [try { body } catch (err) { handler } finally { finalizer }]. *)
Definition try_catch_finally {A} (body handler : Prog B A)
    (finalizer : Prog B unit) : Prog B A :=
  fun w =>
    let '(c1, w1) := body w in
    let '(c2, w2) := match c1 with
                     | Throw => handler w1
                     | _ => (c1, w1)
                     end in
    let '(c3, w3) := finalizer w2 in
    (match c3 with
     | Normal _ => c2
     | Return => Return
     | Throw => Throw
     end, w3).

(** [try { body } catch (err) { handler }]. *)
Definition try_catch {A} (body handler : Prog B A) : Prog B A :=
  fun w =>
    let '(c1, w1) := body w in
    match c1 with
    | Throw => handler w1
    | _ => (c1, w1)
    end.

(** Calling (and awaiting) an async function of result type [void]: a
    [return;] in its body ends the call normally. *)
Definition async (body : Prog B unit) : Prog B unit :=
  fun w =>
    match body w with
    | (Normal _, w1) => (Normal tt, w1)
    | (Return, w1) => (Normal tt, w1)
    | (Throw, w1) => (Throw, w1)
    end.

(** [await Promise.all(l.map(async (x) => f x))].  Every callback is
    started, whatever becomes of the others; the result is the array of
    their values, or a rejection as soon as one of them rejects.  The
    callbacks are taken in array order. *)
Fixpoint promise_all_map {A R} (f : A -> Prog B R) (l : list A)
    : Prog B (list R) :=
  match l with
  | [] => mret []
  | x :: xs =>
      fun w =>
        let '(c, w1) := f x w in
        let '(cs, w2) := promise_all_map f xs w1 in
        (match c, cs with
         | Normal v, Normal vs => Normal (v :: vs)
         | _, _ => Throw
         end, w2)
  end.

(** The state setters. *)
Definition set_ui (f : Component.t -> Component.t) : Prog B unit :=
  fun w => (Normal tt,
            {| ui := f (ui w); store := store w;
               ticks := ticks w; calls := calls w;
               renders := renders w ++ [f (ui w)] |}).

Definition setFiles (v : list UploadedFile.t) : Prog B unit :=
  set_ui (fun u =>
    {| Component.files := v;
       Component.uploading := Component.uploading u;
       Component.loading := Component.loading u;
       Component.error := Component.error u;
       Component.success := Component.success u |}).

Definition setUploading (v : bool) : Prog B unit :=
  set_ui (fun u =>
    {| Component.files := Component.files u;
       Component.uploading := v;
       Component.loading := Component.loading u;
       Component.error := Component.error u;
       Component.success := Component.success u |}).

Definition setLoading (v : bool) : Prog B unit :=
  set_ui (fun u =>
    {| Component.files := Component.files u;
       Component.uploading := Component.uploading u;
       Component.loading := v;
       Component.error := Component.error u;
       Component.success := Component.success u |}).

Definition setError (v : option string) : Prog B unit :=
  set_ui (fun u =>
    {| Component.files := Component.files u;
       Component.uploading := Component.uploading u;
       Component.loading := Component.loading u;
       Component.error := v;
       Component.success := Component.success u |}).

Definition setSuccess (v : option string) : Prog B unit :=
  set_ui (fun u =>
    {| Component.files := Component.files u;
       Component.uploading := Component.uploading u;
       Component.loading := Component.loading u;
       Component.error := Component.error u;
       Component.success := v |}).

(** Awaiting a backend request: the call is logged, the backend moves,
    and a rejection is thrown at the [await]. *)
Definition request {A} (c : Storage.Call)
    (run : B -> Storage.Settled A * B) : Prog B A :=
  fun w =>
    let '(r, b) := run (store w) in
    let w1 := {| ui := ui w; store := b; ticks := ticks w;
                 calls := calls w ++ [c]; renders := renders w |} in
    match r with
    | Storage.Resolved a => (Normal a, w1)
    | Storage.Rejected => (Throw, w1)
    end.

End Control.

(** The double quote, for the messages that quote a file name. *)
Definition dquote : string := String (ascii_of_nat 34) EmptyString.

Section Manager.
Context {B : Type} (env : Env B).

(** [supabase.storage.from('application-forms')]. *)
Definition bucket : string := "application-forms".

Definition storage_list (folder : string) (o : Storage.SearchOptions)
    : Prog B (Storage.Response (list Storage.FileObject)) :=
  request (Storage.CallList bucket folder o)
          (Storage.list (backend env) bucket folder o).

Definition storage_createSignedUrl (path : string) (expiresIn : Z)
    : Prog B (Storage.Response Storage.SignedUrl) :=
  request (Storage.CallCreateSignedUrl bucket path expiresIn)
          (Storage.createSignedUrl (backend env) bucket path expiresIn).

Definition storage_upload (path : string) (file : File.t)
    (o : Storage.FileOptions) : Prog B (Storage.Response string) :=
  request (Storage.CallUpload bucket path file o)
          (Storage.upload (backend env) bucket path file o).

Definition storage_remove (paths : list string)
    : Prog B (Storage.Response (list Storage.FileObject)) :=
  request (Storage.CallRemove bucket paths)
          (Storage.remove (backend env) bucket paths).

(** [new Date().toISOString()]: one reading of the clock. *)
Definition new_Date_toISOString : Prog B string :=
  fun w => (Normal (JS.toISOString (clock env (ticks w))),
            {| ui := ui w; store := store w;
               ticks := S (ticks w); calls := calls w;
               renders := renders w |}).

(** [file.metadata?.size || 0] *)
Definition size_or_zero (file : Storage.FileObject) : Z :=
  match Storage.metadata file with
  | Some m =>
      match Storage.size m with
      | Some n => if n =? 0 then 0 else n
      | None => 0
      end
  | None => 0
  end.

(** [file.created_at || new Date().toISOString()] *)
Definition created_at_or_now (file : Storage.FileObject) : Prog B string :=
  if JS.truthy_string (Storage.created_at file)
  then mret (default EmptyString (Storage.created_at file))
  else new_Date_toISOString.

(** The callback mapped over the listing in [loadFiles]. *)
Definition with_url (file : Storage.FileObject) : Prog B UploadedFile.t :=
  let filePath := clientId env +:+ "/" +:+ Storage.name file in
  r ← storage_createSignedUrl filePath 3600;
  let urlData := Storage.data r in
  uploadedAt ← created_at_or_now file;
  mret {| UploadedFile.name := Storage.name file;
          UploadedFile.path := filePath;
          UploadedFile.size := size_or_zero file;
          UploadedFile.uploadedAt := uploadedAt;
          UploadedFile.url := Storage.signedUrl <$> urlData |}.

(** The [try] block of [loadFiles]. *)
Definition loadFiles_try : Prog B unit :=
  setLoading true;;
  setError None;;
  r ← storage_list (clientId env) {| Storage.limit := 100; Storage.offset := 0 |};
  let fileList := Storage.data r in
  match Storage.error r with
  | Some listError =>
      setError (Some ("Failed to load files: " +:+ Storage.message listError));;
      return_
  | None =>
      match fileList with
      | Some fileList =>
          filesWithUrls ← promise_all_map with_url fileList;
          setFiles filesWithUrls
      | None => mret tt
      end
  end.

Definition loadFiles : Prog B unit :=
  async (try_catch_finally
    loadFiles_try
    (setError (Some "Failed to load application forms"))
    (setLoading false)).

Definition allowedTypes : list string :=
  [ "application/pdf";
    "application/msword";
    "application/vnd.openxmlformats-officedocument.wordprocessingml.document";
    "application/vnd.ms-excel";
    "application/vnd.openxmlformats-officedocument.spreadsheetml.sheet";
    "text/plain";
    "image/jpeg";
    "image/png";
    "image/gif" ].

(** The object name built from the file name and the timestamp. *)
Definition derived_name (name timestamp : string) : string :=
  let fileExtension := JS.pop_segment "." name in
  JS.first_segment "." name +:+ "_" +:+ timestamp +:+ "." +:+ fileExtension.

(** [handleFileUpload]; its argument is [event.target.files?.[0]].
    Console output and the reset of the file input after the reload are
    not part of the state and are left out. *)
Definition handleFileUpload (selected : option File.t) : Prog B unit :=
  async (
    match selected with
    | None => return_
    | Some file =>
        try_catch_finally
          (setUploading true;;
           setError None;;
           setSuccess None;;
           if negb (JS.includes allowedTypes (File.type file)) then
             setError (Some "File type not supported. Please upload PDF, Word, Excel, text, or image files.");;
             return_
           else if File.size file >? 50 * 1024 * 1024 then
             setError (Some "File size must be less than 50MB");;
             return_
           else
             now ← new_Date_toISOString;
             let timestamp := JS.replace_colon_dot now in
             let fileName := derived_name (File.name file) timestamp in
             let filePath := clientId env +:+ "/" +:+ fileName in
             r ← storage_upload filePath file
                   {| Storage.cacheControl := "3600"; Storage.upsert := false |};
             match Storage.error r with
             | Some uploadError =>
                 setError (Some ("Upload failed: " +:+ Storage.message uploadError));;
                 return_
             | None =>
                 setSuccess (Some ("File " +:+ dquote +:+ File.name file +:+ dquote
                                   +:+ " uploaded successfully!"));;
                 loadFiles
             end)
          (setError (Some "An unexpected error occurred during upload"))
          (setUploading false)
    end).

(** [handleFileDelete]. *)
Definition handleFileDelete (filePath fileName : string) : Prog B unit :=
  async (
    if negb (confirm env ("Are you sure you want to delete " +:+ dquote
                          +:+ fileName +:+ dquote +:+ "?")) then
      return_
    else
      try_catch
        (setError None;;
         setSuccess None;;
         r ← storage_remove [filePath];
         match Storage.error r with
         | Some deleteError =>
             setError (Some ("Failed to delete file: " +:+ Storage.message deleteError));;
             return_
         | None =>
             setSuccess (Some ("File " +:+ dquote +:+ fileName +:+ dquote
                               +:+ " deleted successfully!"));;
             loadFiles
         end)
        (setError (Some "Failed to delete file"))).

(** [handleFileDownload].  Past the guard the handler builds a temporary
    link and clicks it: a browser download, which touches neither the
    component state nor the backend. *)
Definition handleFileDownload (url fileName : string) : Prog B unit :=
  async (
    try_catch
      (if negb (JS.truthy_string (Some url)) then
         setError (Some "Download URL not available");;
         return_
       else
         mret tt)
      (setError (Some "Failed to download file"))).

End Manager.

(* ===================================================================== *)
(** * Format helper                                                       *)
(* ===================================================================== *)

Module Format.

(** [Math.floor(Math.log(bytes) / Math.log(1024))] for an integer byte
    count.  [Math.log] is an implementation-approximated floating-point
    function; here the logarithms are taken exactly, so that for
    [bytes >= 1] the result is the integer [i] with
    [1024^i <= bytes < 1024^(i+1)].  This is the index the source computes
    in double precision for the byte counts below [1024^4] (up to 1024 GB,
    where the unit list ends); further up the rounded quotient of the two
    logarithms can reach the next integer just below a power of 1024
    (at [2^50 - 1], for one), so the properties below stay under [1024^4].
    The logarithm of a negative number is NaN ([None]). *)
Definition floor_log_1024 (bytes : Z) : option Z :=
  if bytes <? 0 then None else Some (Z.log2 bytes / 10).

(** [parseFloat((num / den).toFixed(2))] for [num >= 0] and [den > 0]:
    the multiple of 1/100 nearest to the quotient, the larger one on a
    tie.  The quotient of a byte count below 2^53 by a power of 1024 is
    exact in floating point, so nothing is lost by computing on
    integers. *)
Definition toFixed2 (num den : Z) : JS.hundredths :=
  JS.Hundredths ((200 * num + den) / (2 * den)).

Definition sizes : list string := ["Bytes"; "KB"; "MB"; "GB"].

Definition formatFileSize (bytes : Z) : string :=
  if bytes =? 0 then "0 Bytes"
  else
    let k := 1024 in
    match floor_log_1024 bytes with
    | Some i =>
        JS.number_to_string (toFixed2 bytes (k ^ i)) +:+ " " +:+
        JS.element_to_string (sizes !! Z.to_nat i)
    | None =>
        JS.number_to_string JS.NaN +:+ " " +:+ JS.element_to_string None
    end.

End Format.

(* ===================================================================== *)
(** * An in-memory storage backend                                        *)
(* ===================================================================== *)

(** A test double for the storage service: one bucket of objects keyed by
    path, guarded by the three access policies of the migrations (SELECT,
    INSERT, DELETE on [storage.objects]). *)
Module Memory.

Record Object := { content : File.t; created : string }.

Record t := {
  objects : gmap string Object;
  select_policy : bool;
  insert_policy : bool;
  delete_policy : bool;
  server_time : string
}.

Definition with_objects (m : gmap string Object) (s : t) : t :=
  {| objects := m;
     select_policy := select_policy s;
     insert_policy := insert_policy s;
     delete_policy := delete_policy s;
     server_time := server_time s |}.

Definition denied {A} : Storage.Response A :=
  {| Storage.data := None;
     Storage.error := Some {| Storage.message := "permission denied" |} |}.

(** [strip p s] is [Some r] when [s = p ++ r]. *)
Fixpoint strip (p s : string) : option string :=
  match p, s with
  | EmptyString, _ => Some s
  | String a p', String b s' => if Ascii.eqb a b then strip p' s' else None
  | String _ _, EmptyString => None
  end.

Definition entry (folder : string) (kv : string * Object)
    : option Storage.FileObject :=
  match strip (folder +:+ "/") (fst kv) with
  | Some n =>
      if JS.has_char "/" n then None
      else Some {| Storage.name := n;
                   Storage.metadata :=
                     Some {| Storage.size := Some (File.size (content (snd kv))) |};
                   Storage.created_at := Some (created (snd kv)) |}
  | None => None
  end.

Definition list (bucket folder : string) (o : Storage.SearchOptions) (s : t)
    : Storage.Settled (Storage.Response (Datatypes.list Storage.FileObject)) * t :=
  if select_policy s then
    let all := omap (entry folder) (map_to_list (objects s)) in
    let page := take (Z.to_nat (Storage.limit o))
                     (drop (Z.to_nat (Storage.offset o)) all) in
    (Storage.Resolved {| Storage.data := Some page; Storage.error := None |}, s)
  else (Storage.Resolved denied, s).

Definition createSignedUrl (bucket path : string) (expiresIn : Z) (s : t)
    : Storage.Settled (Storage.Response Storage.SignedUrl) * t :=
  if select_policy s then
    match objects s !! path with
    | Some _ =>
        (Storage.Resolved
           {| Storage.data :=
                Some {| Storage.signedUrl :=
                          "https://storage.test/" +:+ bucket +:+ "/" +:+ path
                          +:+ "?expires=" +:+ JS.dec expiresIn |};
              Storage.error := None |}, s)
    | None =>
        (Storage.Resolved
           {| Storage.data := None;
              Storage.error := Some {| Storage.message := "Object not found" |} |}, s)
    end
  else (Storage.Resolved denied, s).

Definition upload (bucket path : string) (file : File.t)
    (o : Storage.FileOptions) (s : t)
    : Storage.Settled (Storage.Response string) * t :=
  if insert_policy s then
    match objects s !! path with
    | Some _ =>
        if Storage.upsert o then
          (Storage.Resolved {| Storage.data := Some path; Storage.error := None |},
           with_objects (<[path := {| content := file; created := server_time s |}]>
                           (objects s)) s)
        else
          (Storage.Resolved
             {| Storage.data := None;
                Storage.error :=
                  Some {| Storage.message := "The resource already exists" |} |}, s)
    | None =>
        (Storage.Resolved {| Storage.data := Some path; Storage.error := None |},
         with_objects (<[path := {| content := file; created := server_time s |}]>
                         (objects s)) s)
    end
  else (Storage.Resolved denied, s).

Definition remove (bucket : string) (paths : Datatypes.list string) (s : t)
    : Storage.Settled (Storage.Response (Datatypes.list Storage.FileObject)) * t :=
  if delete_policy s then
    (Storage.Resolved {| Storage.data := Some []; Storage.error := None |},
     with_objects (foldr delete (objects s) paths) s)
  else (Storage.Resolved denied, s).

Definition backend : Storage.Backend t :=
  {| Storage.list := list;
     Storage.createSignedUrl := createSignedUrl;
     Storage.upload := upload;
     Storage.remove := remove |}.

(** An empty bucket open to the session. *)
Definition empty : t :=
  {| objects := ∅; select_policy := true; insert_policy := true;
     delete_policy := true; server_time := "2025-01-01T00:00:00.100Z" |}.

(** The environment of a component for client [c], with the clock
    standing at [now] and the user answering every prompt with [yes]. *)
Definition env (c : string) (now : Z) (yes : bool) : Env t :=
  Build_Env t backend c (fun _ => now) (fun _ => yes).

End Memory.

(** A backend out of reach: every request is rejected. *)
Module Offline.

Definition backend : Storage.Backend unit :=
  {| Storage.list := fun _ _ _ b => (Storage.Rejected, b);
     Storage.createSignedUrl := fun _ _ _ b => (Storage.Rejected, b);
     Storage.upload := fun _ _ _ _ b => (Storage.Rejected, b);
     Storage.remove := fun _ _ b => (Storage.Rejected, b) |}.

Definition env (c : string) (now : Z) (yes : bool) : Env unit :=
  Build_Env unit backend c (fun _ => now) (fun _ => yes).

End Offline.

(** A backend that answers every listing with the same entries and signs
    nothing: each signature request comes back with an error and no data. *)
Module Unsigned.

Definition backend (entries : list Storage.FileObject) : Storage.Backend unit :=
  {| Storage.list := fun _ _ _ b =>
       (Storage.Resolved {| Storage.data := Some entries; Storage.error := None |}, b);
     Storage.createSignedUrl := fun _ _ _ b =>
       (Storage.Resolved
          {| Storage.data := None;
             Storage.error := Some {| Storage.message := "signing failed" |} |}, b);
     Storage.upload := fun _ _ _ _ b => (Storage.Resolved Memory.denied, b);
     Storage.remove := fun _ _ b => (Storage.Resolved Memory.denied, b) |}.

Definition env (entries : list Storage.FileObject) (c : string) (now : Z)
    : Env unit :=
  Build_Env unit (backend entries) c (fun _ => now) (fun _ => false).

End Unsigned.

(* ===================================================================== *)
(** * The lifetime of a component instance                                *)
(* ===================================================================== *)

(** What happens to a mounted component: the effect that loads the files
    (on mount and whenever [clientId] changes), a change of the file input,
    a click on a delete button, a click on the download button of a
    displayed file.  In [run] the handlers run to completion one after the
    other, for one value of the [clientId] prop: a handler started while
    another is suspended at an [await] is not covered, and changes of the
    prop are those of [live] below. *)
Inductive Event :=
| Load
| Upload (selected : option File.t)
| Delete (filePath fileName : string)
| Download (file : UploadedFile.t).

Definition handle {B} (env : Env B) (e : Event) : Prog B unit :=
  match e with
  | Load => loadFiles env
  | Upload selected => handleFileUpload env selected
  | Delete filePath fileName => handleFileDelete env filePath fileName
  | Download file =>
      (* [{file.url && <button onClick={...}>}]: no button without a url *)
      if JS.truthy_string (UploadedFile.url file)
      then handleFileDownload (default EmptyString (UploadedFile.url file))
                              (UploadedFile.name file)
      else mret tt
  end.

Definition run {B} (env : Env B) (es : list Event) (w : World B) : World B :=
  fold_left (fun w e => exec (handle env e) w) es w.

(** The component rendered again with another [clientId] prop: the state
    cells stay, the handlers of the new render close over the new prop. *)
Definition with_client {B} (c : string) (env : Env B) : Env B :=
  {| backend := backend env; clientId := c;
     clock := clock env; confirm := confirm env |}.

(** What happens to a mounted component over its lifetime: an event
    fires, or the parent renders it again with a [clientId] prop, and the
    effect with dependency [clientId] runs [loadFiles] when the prop has
    changed.  As in [run], what an input starts runs to completion before
    the next input is taken: operations that overlap at their awaits are
    not covered. *)
Inductive Input :=
| Rerender (client : string)
| Fire (e : Event).

Definition react {B} (st : Env B * World B) (i : Input) : Env B * World B :=
  match i with
  | Rerender c =>
      if String.eqb c (clientId (fst st)) then st
      else (with_client c (fst st),
            exec (loadFiles (with_client c (fst st))) (snd st))
  | Fire e => (fst st, exec (handle (fst st) e) (snd st))
  end.

Definition live {B} (env : Env B) (inputs : list Input) (w : World B)
    : Env B * World B :=
  fold_left react inputs (env, w).

(** The values the parent gives the [clientId] prop over the inputs. *)
Fixpoint props (inputs : list Input) : list string :=
  match inputs with
  | [] => []
  | Rerender c :: rest => c :: props rest
  | Fire _ :: rest => props rest
  end.

(** The messages a failed list operation displays. *)
Definition list_failure_message (m : string) : Prop :=
  m = "Failed to load application forms" \/
  exists detail, m = "Failed to load files: " +:+ detail.

(** Success and error are not both displayed. *)
Definition exclusive (u : Component.t) : Prop :=
  Component.error u = None \/ Component.success u = None.

(** Success and error are both displayed only when the error reports a
    failed list operation. *)
Definition messages_consistent (u : Component.t) : Prop :=
  exclusive u \/
  exists m, Component.error u = Some m /\ list_failure_message m.

(* ===================================================================== *)
(** * Observations used to state the properties                           *)
(* ===================================================================== *)

Section Observations.
Context {B : Type} (env : Env B).

(** The request [loadFiles] sends for the listing. *)
Definition list_call : Storage.Call :=
  Storage.CallList bucket (clientId env)
    {| Storage.limit := 100; Storage.offset := 0 |}.

(** The signature request that goes with a listed entry. *)
Definition sign_call (e : Storage.FileObject) : Storage.Call :=
  Storage.CallCreateSignedUrl bucket
    (clientId env +:+ "/" +:+ Storage.name e) 3600.

(** The answers of the backend to the signature requests for the listed
    entries, sent in the order of the listing from backend state [b]: the
    url each answer carries (none when the answer is an error without
    data) and the state the backend is left in; [None] when one of the
    requests is rejected instead of answered. *)
Fixpoint signatures (entries : list Storage.FileObject) (b : B)
    : option (list (option string) * B) :=
  match entries with
  | [] => Some ([], b)
  | e :: rest =>
      match Storage.createSignedUrl (backend env) bucket
              (clientId env +:+ "/" +:+ Storage.name e) 3600 b with
      | (Storage.Resolved resp, b1) =>
          match signatures rest b1 with
          | Some (urls, b2) =>
              Some ((Storage.signedUrl <$> Storage.data resp) :: urls, b2)
          | None => None
          end
      | (Storage.Rejected, _) => None
      end
  end.

(** The [try] block of [loadFiles] ends in an exception. *)
Definition load_throws (w : World B) : Prop :=
  fst (loadFiles_try env w) = Throw.

(** The timestamp and the object path [handleFileUpload] computes for a
    file name when the clock is read in world [w]. *)
Definition upload_timestamp (w : World B) : string :=
  JS.replace_colon_dot (JS.toISOString (clock env (ticks w))).

Definition upload_path (w : World B) (name : string) : string :=
  clientId env +:+ "/" +:+ derived_name name (upload_timestamp w).

Definition upload_options : Storage.FileOptions :=
  {| Storage.cacheControl := "3600"; Storage.upsert := false |}.

(** The file passes the two checks of [handleFileUpload]. *)
Definition passes_validation (file : File.t) : bool :=
  JS.includes allowedTypes (File.type file) &&
  negb (File.size file >? 50 * 1024 * 1024).

(** [f] displays the listed entry [e]; the clock readings of the list
    operation are those numbered from [lo] up to [hi]. *)
Definition displays (lo hi : nat) (e : Storage.FileObject)
    (f : UploadedFile.t) : Prop :=
  UploadedFile.name f = Storage.name e /\
  UploadedFile.path f = clientId env +:+ "/" +:+ Storage.name e /\
  UploadedFile.size f = size_or_zero e /\
  (if JS.truthy_string (Storage.created_at e)
   then Some (UploadedFile.uploadedAt f) = Storage.created_at e
   else exists k, (lo <= k < hi)%nat /\
                  UploadedFile.uploadedAt f = JS.toISOString (clock env k)) /\
  exists b0 resp b1,
    Storage.createSignedUrl (backend env) bucket
      (clientId env +:+ "/" +:+ Storage.name e) 3600 b0
    = (Storage.Resolved resp, b1) /\
    UploadedFile.url f = Storage.signedUrl <$> Storage.data resp.

(** The two ways a list operation fails. *)
Inductive ListFailure :=
| BackendError (e : Storage.StorageError)
| UnexpectedException.

Definition list_fails (w : World B) (f : ListFailure) : Prop :=
  match f with
  | BackendError e =>
      exists r b,
        Storage.list (backend env) bucket (clientId env)
          {| Storage.limit := 100; Storage.offset := 0 |} (store w)
        = (Storage.Resolved r, b) /\
        Storage.error r = Some e
  | UnexpectedException => load_throws w
  end.

Definition failure_text (f : ListFailure) : string :=
  match f with
  | BackendError e => "Failed to load files: " +:+ Storage.message e
  | UnexpectedException => "Failed to load application forms"
  end.

(** An entry without size metadata. *)
Definition no_size (e : Storage.FileObject) : Prop :=
  forall m, Storage.metadata e = Some m -> Storage.size m = None.

(** The component state with [uploading] reset, as the [finally] block of
    [handleFileUpload] leaves it. *)
Definition upload_done (w : World B) : World B :=
  exec (setUploading false) w.

(** The component state with both messages replaced. *)
Definition with_messages (uploading : bool) (error success : option string)
    (u : Component.t) : Component.t :=
  {| Component.files := Component.files u;
     Component.uploading := uploading;
     Component.loading := Component.loading u;
     Component.error := error;
     Component.success := success |}.

(** What the three setters at the start of [handleFileUpload] display. *)
Definition upload_start (u : Component.t) : list Component.t :=
  [ with_messages true (Component.error u) (Component.success u) u;
    with_messages true None (Component.success u) u;
    with_messages true None None u ].

(** What the two setters at the start of [handleFileDelete] display. *)
Definition delete_start (u : Component.t) : list Component.t :=
  [ with_messages (Component.uploading u) None (Component.success u) u;
    with_messages (Component.uploading u) None None u ].

End Observations.

(* ===================================================================== *)
(** * Scenarios                                                           *)
(* ===================================================================== *)

Module Scenario.

(** 2025-01-01T00:00:00Z in milliseconds since the epoch. *)
Definition new_year_2025 : Z := 1735689600000.

(** The component of client [c1] over the in-memory backend, with a user
    who confirms, and with one who declines. *)
Definition confirming : Env Memory.t := Memory.env "c1" new_year_2025 true.
Definition declining : Env Memory.t := Memory.env "c1" new_year_2025 false.

Definition report : File.t :=
  {| File.name := "report.pdf"; File.type := "application/pdf";
     File.size := 2097152 |}.

Definition installer : File.t :=
  {| File.name := "setup.exe"; File.type := "application/x-msdownload";
     File.size := 1000 |}.

Definition largest : File.t :=
  {| File.name := "scan.png"; File.type := "image/png";
     File.size := 52428800 |}.

Definition two_dots : File.t :=
  {| File.name := "a.b.pdf"; File.type := "application/pdf"; File.size := 1 |}.

(** The world after [report.pdf] has been uploaded to an empty bucket. *)
Definition after_upload : World Memory.t :=
  exec (handleFileUpload confirming (Some report)) (mount Memory.empty).

(** The same world once the SELECT policy has been withdrawn. *)
Definition revoked : World Memory.t :=
  Build_World (ui after_upload)
    {| Memory.objects := Memory.objects (store after_upload);
       Memory.select_policy := false;
       Memory.insert_policy := true;
       Memory.delete_policy := true;
       Memory.server_time := Memory.server_time (store after_upload) |}
    (ticks after_upload) (calls after_upload) (renders after_upload).

(** An empty bucket the session may write to but not read. *)
Definition write_only : Memory.t :=
  {| Memory.objects := ∅; Memory.select_policy := false;
     Memory.insert_policy := true; Memory.delete_policy := true;
     Memory.server_time := "2025-01-01T00:00:00.100Z" |}.

(** A listed entry that carries neither metadata nor a creation time. *)
Definition bare : Storage.FileObject :=
  {| Storage.name := "notes.txt"; Storage.metadata := None;
     Storage.created_at := None |}.

(** The path is held in the in-memory bucket. *)
Definition held (s : Memory.t) (bkt path : string) : bool :=
  match Memory.objects s !! path with
  | Some _ => true
  | None => false
  end.

End Scenario.

(* ===================================================================== *)
(** * What the component renders                                          *)
(* ===================================================================== *)

(** The returned JSX, reduced to what depends on the state: the label and
    the [disabled] flag of the file input, the two message boxes, and the
    list region with the buttons of each row. *)
Module View.

Record Row := {
  name : string;
  size_text : string;
  date_text : string;
  (** the arguments of [handleFileDownload] behind the download button,
      when the row has one *)
  onDownload : option (string * string);
  (** the arguments of [handleFileDelete] behind the delete button *)
  onDelete : string * string
}.

Inductive Listing :=
| Spinner
| NoFiles
| Rows (rows : list Row).

Record t := {
  button_label : string;
  input_disabled : bool;
  error_box : option string;
  success_box : option string;
  listing : Listing
}.

End View.

Section Render.
(** [formatDate] formats through the browser's locale service, which is
    taken as given. *)
Variable formatDate : string -> string.

(** One element of [files.map((file, index) => ...)]. *)
Definition render_row (file : UploadedFile.t) : View.Row :=
  {| View.name := UploadedFile.name file;
     View.size_text := Format.formatFileSize (UploadedFile.size file);
     View.date_text := formatDate (UploadedFile.uploadedAt file);
     View.onDownload :=
       if JS.truthy_string (UploadedFile.url file)
       then Some (default EmptyString (UploadedFile.url file),
                  UploadedFile.name file)
       else None;
     View.onDelete := (UploadedFile.path file, UploadedFile.name file) |}.

(** [{x && (<div>...{x}...</div>)}] for a message. *)
Definition message_box (x : option string) : option string :=
  if JS.truthy_string x then x else None.

Definition render (u : Component.t) : View.t :=
  {| View.button_label :=
       if Component.uploading u then "Uploading..." else "Choose File";
     View.input_disabled := Component.uploading u;
     View.error_box := message_box (Component.error u);
     View.success_box := message_box (Component.success u);
     View.listing :=
       if Component.loading u then View.Spinner
       else if (length (Component.files u) =? 0)%nat then View.NoFiles
       else View.Rows (map render_row (Component.files u)) |}.

(** The events the rendered view lets the user trigger: the load effect
    is the framework's; the file input reacts unless disabled; a delete or
    download click needs the button of a displayed row. *)
Definition offers (u : Component.t) (e : Event) : Prop :=
  match e with
  | Load => True
  | Upload _ => View.input_disabled (render u) = false
  | Delete filePath fileName =>
      exists rows r,
        View.listing (render u) = View.Rows rows /\
        In r rows /\ View.onDelete r = (filePath, fileName)
  | Download file =>
      exists rows,
        View.listing (render u) = View.Rows rows /\
        In file (Component.files u) /\
        View.onDownload (render_row file) <> None
  end.

(** A sequence of inputs in which every event is offered by the view at
    its time. *)
Fixpoint attended {B} (env : Env B) (inputs : list Input) (w : World B)
    : Prop :=
  match inputs with
  | [] => True
  | i :: rest =>
      match i with
      | Fire e => offers (ui w) e
      | Rerender _ => True
      end /\
      attended (fst (react (env, w) i)) rest (snd (react (env, w) i))
  end.

End Render.

(** A request that stays inside the folder of client [c] in the bucket of
    the component. *)
Definition under (c : string) (path : string) : Prop :=
  exists name, path = c +:+ "/" +:+ name.

Definition in_client_folder (c : string) (call : Storage.Call) : Prop :=
  match call with
  | Storage.CallList bkt folder _ => bkt = bucket /\ folder = c
  | Storage.CallCreateSignedUrl bkt path _ => bkt = bucket /\ under c path
  | Storage.CallUpload bkt path _ _ => bkt = bucket /\ under c path
  | Storage.CallRemove bkt paths => bkt = bucket /\ Forall (under c) paths
  end.

(** A displayed file whose path is its name inside the folder of [c]. *)
Definition filed_under (c : string) (f : UploadedFile.t) : Prop :=
  UploadedFile.path f = c +:+ "/" +:+ UploadedFile.name f.

(** The same for one of several clients. *)
Definition filed_among (cs : list string) (f : UploadedFile.t) : Prop :=
  exists c, In c cs /\ filed_under c f.

Definition in_folder_among (cs : list string) (call : Storage.Call) : Prop :=
  exists c, In c cs /\ in_client_folder c call.

Section Failures.
Context {B : Type} (env : Env B).

(** The upload request for [file] fails in world [w], and [message] is
    what [handleFileUpload] displays for that failure. *)
Definition upload_fails (w : World B) (file : File.t) (message : string)
    : Prop :=
  match Storage.upload (backend env) bucket
          (upload_path env w (File.name file)) file upload_options (store w)
  with
  | (Storage.Rejected, _) =>
      message = "An unexpected error occurred during upload"
  | (Storage.Resolved r, _) =>
      exists e, Storage.error r = Some e /\
                message = "Upload failed: " +:+ Storage.message e
  end.

(** The remove request for [filePath] fails in world [w], and [message]
    is what [handleFileDelete] displays for that failure. *)
Definition remove_fails (w : World B) (filePath : string) (message : string)
    : Prop :=
  match Storage.remove (backend env) bucket [filePath] (store w) with
  | (Storage.Rejected, _) => message = "Failed to delete file"
  | (Storage.Resolved r, _) =>
      exists e, Storage.error r = Some e /\
                message = "Failed to delete file: " +:+ Storage.message e
  end.

(** The question [handleFileDelete] asks. *)
Definition delete_question (fileName : string) : string :=
  "Are you sure you want to delete " +:+ dquote +:+ fileName +:+ dquote +:+ "?".

End Failures.

(* ===================================================================== *)
(** * The storage migrations                                              *)
(* ===================================================================== *)

(** The three migrations as lists of statements over the part of the
    database they touch: the rows of [storage.buckets] and the row-level
    security policies on [storage.objects]. *)
Module Sql.

Inductive Command := INSERT | SELECT | UPDATE | DELETE.

(** What a policy expression can read of the session: [auth.uid()] and
    [auth.role()]. *)
Record Session := { uid : option string; role : string }.

(** A policy on [storage.objects]: its command and its USING / WITH CHECK
    expression, on the [bucket_id] of the row and the session. *)
Record Policy := {
  command : Command;
  expr : string -> Session -> bool
}.

(** [auth.uid() IS NOT NULL] *)
Definition uid_is_not_null (s : Session) : bool :=
  match uid s with
  | Some _ => true
  | None => false
  end.

(** [auth.role() = 'authenticated'] *)
Definition role_is_authenticated (s : Session) : bool :=
  String.eqb (role s) "authenticated".

(** [bucket_id = '<bucket>' AND <condition>] *)
Definition bucket_and (bucket : string) (condition : Session -> bool)
    : string -> Session -> bool :=
  fun bucket_id s => String.eqb bucket_id bucket && condition s.

(** A row of [storage.buckets], keyed by its id. *)
Record Bucket := {
  name : string;
  public : bool;
  file_size_limit : option Z;
  allowed_mime_types : option (list string)
}.

Record Catalog := {
  buckets : gmap string Bucket;
  policies : gmap string Policy
}.

Inductive Statement :=
(** [INSERT INTO storage.buckets (id, name, public, file_size_limit,
    allowed_mime_types) VALUES (...) ON CONFLICT (id) DO UPDATE SET
    file_size_limit = ..., allowed_mime_types = ...], the update setting
    the same two values as the insert *)
| UpsertBucket (id name : string) (public : bool) (file_size_limit : Z)
    (allowed_mime_types : list string)
(** [DROP POLICY IF EXISTS "<name>" ON storage.objects] *)
| DropPolicyIfExists (name : string)
(** [CREATE POLICY "<name>" ON storage.objects FOR <command> ...] *)
| CreatePolicy (name : string) (command : Command)
    (expr : string -> Session -> bool).

(** Some row of [storage.buckets] carries the name.  Besides its primary
    key on [id], the table has a unique index on [name] in the schema of the
    storage service (the table is created by the service, not by the
    migrations of this repository). *)
Definition name_in_use (name : string) (c : Catalog) : Prop :=
  map_Exists (fun _ b => Sql.name b = name) (buckets c).

(** No row has the id and the name is taken by a row of another id: the
    state in which an insert of [(id, name)] violates the index on [name],
    which [ON CONFLICT (id)] does not cover. *)
Definition blocked (id name : string) (c : Catalog) : Prop :=
  buckets c !! id = None /\ name_in_use name c.

(** One statement.  An upsert updates the row of its id if there is one,
    inserts one otherwise, and is an error if the insert meets a row of
    the same name; creating a policy under a name in use is an error. *)
Definition step (st : Statement) (c : Catalog) : option Catalog :=
  match st with
  | UpsertBucket id name public limit types =>
      match buckets c !! id with
      | Some old =>
          let row := {| Sql.name := Sql.name old; Sql.public := Sql.public old;
                        file_size_limit := Some limit;
                        allowed_mime_types := Some types |} in
          Some {| buckets := <[id := row]> (buckets c);
                  policies := policies c |}
      | None =>
          if decide (name_in_use name c) then None
          else
            let row := {| Sql.name := name; Sql.public := public;
                          file_size_limit := Some limit;
                          allowed_mime_types := Some types |} in
            Some {| buckets := <[id := row]> (buckets c);
                    policies := policies c |}
      end
  | DropPolicyIfExists name =>
      Some {| buckets := buckets c; policies := delete name (policies c) |}
  | CreatePolicy name command expr =>
      match policies c !! name with
      | Some _ => None
      | None =>
          Some {| buckets := buckets c;
                  policies := <[name := {| Sql.command := command;
                                           Sql.expr := expr |}]> (policies c) |}
      end
  end.

(** A migration runs its statements in order and stops at the first
    error. *)
Fixpoint run (m : list Statement) (c : Catalog) : option Catalog :=
  match m with
  | [] => Some c
  | st :: rest =>
      match step st c with
      | Some c' => run rest c'
      | None => None
      end
  end.

(** Row-level security: a command on a row of a bucket is let through
    when some policy for that command accepts the row and the session. *)
Definition permits (c : Catalog) (s : Session) (cmd : Command)
    (bucket_id : string) : Prop :=
  exists name p,
    policies c !! name = Some p /\ command p = cmd /\
    expr p bucket_id s = true.

(** The limits a bucket row puts on an object. *)
Definition bucket_accepts (b : Bucket) (mime : string) (size : Z) : bool :=
  match allowed_mime_types b with
  | Some types => JS.includes types mime
  | None => true
  end &&
  match file_size_limit b with
  | Some limit => size <=? limit
  | None => true
  end.

Definition mime_types : list string :=
  [ "application/pdf";
    "application/msword";
    "application/vnd.openxmlformats-officedocument.wordprocessingml.document";
    "application/vnd.ms-excel";
    "application/vnd.openxmlformats-officedocument.spreadsheetml.sheet";
    "text/plain";
    "image/jpeg";
    "image/png";
    "image/gif" ].

(** The migration headed [Fix Storage RLS Policies]. *)
Definition fix_storage_rls_drops : list Statement :=
  [ DropPolicyIfExists "Users can upload their own drafts";
    DropPolicyIfExists "Users can view their own drafts";
    DropPolicyIfExists "Users can update their own drafts";
    DropPolicyIfExists "Users can delete their own drafts";
    DropPolicyIfExists "Users can upload their own application forms";
    DropPolicyIfExists "Users can view their own application forms";
    DropPolicyIfExists "Users can update their own application forms";
    DropPolicyIfExists "Users can delete their own application forms" ].

Definition fix_storage_rls_creates : list Statement :=
  [ CreatePolicy "Authenticated users can upload drafts" INSERT
      (bucket_and "drafts" uid_is_not_null);
    CreatePolicy "Authenticated users can view drafts" SELECT
      (bucket_and "drafts" uid_is_not_null);
    CreatePolicy "Authenticated users can update drafts" UPDATE
      (bucket_and "drafts" uid_is_not_null);
    CreatePolicy "Authenticated users can delete drafts" DELETE
      (bucket_and "drafts" uid_is_not_null);
    CreatePolicy "Authenticated users can upload application forms" INSERT
      (bucket_and "application_forms" uid_is_not_null);
    CreatePolicy "Authenticated users can view application forms" SELECT
      (bucket_and "application_forms" uid_is_not_null);
    CreatePolicy "Authenticated users can update application forms" UPDATE
      (bucket_and "application_forms" uid_is_not_null);
    CreatePolicy "Authenticated users can delete application forms" DELETE
      (bucket_and "application_forms" uid_is_not_null) ].

Definition fix_storage_rls : list Statement :=
  fix_storage_rls_drops ++ fix_storage_rls_creates.

(** [20250615051046_shrill_plain.sql] *)
Definition shrill_plain_buckets : list Statement :=
  [ UpsertBucket "application-forms" "application-forms" false 52428800
      mime_types;
    UpsertBucket "drafts" "drafts" false 52428800 mime_types ].

Definition shrill_plain_drops : list Statement :=
  [ DropPolicyIfExists "Users can upload their own drafts";
    DropPolicyIfExists "Users can view their own drafts";
    DropPolicyIfExists "Users can update their own drafts";
    DropPolicyIfExists "Users can delete their own drafts";
    DropPolicyIfExists "Authenticated users can upload drafts";
    DropPolicyIfExists "Authenticated users can view drafts";
    DropPolicyIfExists "Authenticated users can update drafts";
    DropPolicyIfExists "Authenticated users can delete drafts";
    DropPolicyIfExists "Users can upload their own application forms";
    DropPolicyIfExists "Users can view their own application forms";
    DropPolicyIfExists "Users can update their own application forms";
    DropPolicyIfExists "Users can delete their own application forms";
    DropPolicyIfExists "Authenticated users can upload application forms";
    DropPolicyIfExists "Authenticated users can view application forms";
    DropPolicyIfExists "Authenticated users can update application forms";
    DropPolicyIfExists "Authenticated users can delete application forms";
    DropPolicyIfExists "Users can upload their own application_forms";
    DropPolicyIfExists "Users can view their own application_forms";
    DropPolicyIfExists "Users can update their own application_forms";
    DropPolicyIfExists "Users can delete their own application_forms";
    DropPolicyIfExists "Authenticated users can upload application_forms";
    DropPolicyIfExists "Authenticated users can view application_forms";
    DropPolicyIfExists "Authenticated users can update application_forms";
    DropPolicyIfExists "Authenticated users can delete application_forms" ].

Definition shrill_plain_creates : list Statement :=
  [ CreatePolicy "Authenticated users can upload drafts" INSERT
      (bucket_and "drafts" uid_is_not_null);
    CreatePolicy "Authenticated users can view drafts" SELECT
      (bucket_and "drafts" uid_is_not_null);
    CreatePolicy "Authenticated users can update drafts" UPDATE
      (bucket_and "drafts" uid_is_not_null);
    CreatePolicy "Authenticated users can delete drafts" DELETE
      (bucket_and "drafts" uid_is_not_null);
    CreatePolicy "Authenticated users can upload application forms" INSERT
      (bucket_and "application-forms" uid_is_not_null);
    CreatePolicy "Authenticated users can view application forms" SELECT
      (bucket_and "application-forms" uid_is_not_null);
    CreatePolicy "Authenticated users can update application forms" UPDATE
      (bucket_and "application-forms" uid_is_not_null);
    CreatePolicy "Authenticated users can delete application forms" DELETE
      (bucket_and "application-forms" uid_is_not_null) ].

Definition shrill_plain : list Statement :=
  shrill_plain_buckets ++ shrill_plain_drops ++ shrill_plain_creates.

(** [20250615051745_calm_limit.sql]; it drops the same names as
    [shrill_plain]. *)
Definition calm_limit_drops : list Statement := shrill_plain_drops.

Definition calm_limit_creates : list Statement :=
  [ CreatePolicy "Allow authenticated users to upload drafts" INSERT
      (bucket_and "drafts" role_is_authenticated);
    CreatePolicy "Allow authenticated users to view drafts" SELECT
      (bucket_and "drafts" role_is_authenticated);
    CreatePolicy "Allow authenticated users to update drafts" UPDATE
      (bucket_and "drafts" role_is_authenticated);
    CreatePolicy "Allow authenticated users to delete drafts" DELETE
      (bucket_and "drafts" role_is_authenticated);
    CreatePolicy "Allow authenticated users to upload application forms" INSERT
      (bucket_and "application-forms" role_is_authenticated);
    CreatePolicy "Allow authenticated users to view application forms" SELECT
      (bucket_and "application-forms" role_is_authenticated);
    CreatePolicy "Allow authenticated users to update application forms" UPDATE
      (bucket_and "application-forms" role_is_authenticated);
    CreatePolicy "Allow authenticated users to delete application forms" DELETE
      (bucket_and "application-forms" role_is_authenticated) ].

Definition calm_limit : list Statement :=
  calm_limit_drops ++ calm_limit_creates.

(** What a migration does to the policy of a given name: nothing, or
    what its last statement on that name does. *)
Definition touches (st : Statement) (n : string) : option (option Policy) :=
  match st with
  | UpsertBucket _ _ _ _ _ => None
  | DropPolicyIfExists k => if String.eqb k n then Some None else None
  | CreatePolicy k command expr =>
      if String.eqb k n
      then Some (Some {| Sql.command := command; Sql.expr := expr |})
      else None
  end.

Fixpoint effect (m : list Statement) (n : string) : option (option Policy) :=
  match m with
  | [] => None
  | st :: rest =>
      match effect rest n with
      | Some o => Some o
      | None => touches st n
      end
  end.

(** Every policy is created under a name dropped earlier in the same
    migration and not created since. *)
Fixpoint recreates (dropped : list string) (m : list Statement) : bool :=
  match m with
  | [] => true
  | UpsertBucket _ _ _ _ _ :: rest => recreates dropped rest
  | DropPolicyIfExists k :: rest => recreates (k :: dropped) rest
  | CreatePolicy k _ _ :: rest =>
      existsb (String.eqb k) dropped &&
      recreates (List.filter (fun d => negb (String.eqb k d)) dropped) rest
  end.

(** The names a migration drops. *)
Fixpoint dropped_names (m : list Statement) : list string :=
  match m with
  | [] => []
  | DropPolicyIfExists k :: rest => k :: dropped_names rest
  | _ :: rest => dropped_names rest
  end.

(** A statement on the policies, not on the buckets. *)
Definition on_policies (st : Statement) : Prop :=
  match st with
  | UpsertBucket _ _ _ _ _ => False
  | _ => True
  end.

(** A database without buckets and policies. *)
Definition empty : Catalog := {| buckets := ∅; policies := ∅ |}.

End Sql.

(* ===================================================================== *)
(** * Further scenarios                                                   *)
(* ===================================================================== *)

Module Cases.

(** A stand-in for the locale service: the date text is the ISO string. *)
Definition plain_date : string -> string := fun s => s.

(** An empty bucket the session may read but neither write nor clear. *)
Definition read_only : Memory.t :=
  {| Memory.objects := ∅; Memory.select_policy := true;
     Memory.insert_policy := false; Memory.delete_policy := false;
     Memory.server_time := "2025-01-01T00:00:00.100Z" |}.

(** The world after the upload of [report.pdf], once the DELETE policy has
    been withdrawn. *)
Definition locked : World Memory.t :=
  Build_World (ui Scenario.after_upload)
    {| Memory.objects := Memory.objects (store Scenario.after_upload);
       Memory.select_policy := true;
       Memory.insert_policy := true;
       Memory.delete_policy := false;
       Memory.server_time := Memory.server_time (store Scenario.after_upload) |}
    (ticks Scenario.after_upload) (calls Scenario.after_upload)
    (renders Scenario.after_upload).

(** The object [report.pdf] is stored as, and the entry and the file
    displayed for it. *)
Definition stored_name : string := "report_2025-01-01T00-00-00-000Z.pdf".
Definition stored_path : string := "c1/report_2025-01-01T00-00-00-000Z.pdf".

Definition stored_entry : Storage.FileObject :=
  {| Storage.name := stored_name;
     Storage.metadata := Some {| Storage.size := Some 2097152 |};
     Storage.created_at := Some "2025-01-01T00:00:00.100Z" |}.

Definition stored_url : string :=
  "https://storage.test/application-forms/c1/report_2025-01-01T00-00-00-000Z.pdf?expires=3600".

Definition stored_file : UploadedFile.t :=
  {| UploadedFile.name := stored_name;
     UploadedFile.path := stored_path;
     UploadedFile.size := 2097152;
     UploadedFile.uploadedAt := "2025-01-01T00:00:00.100Z";
     UploadedFile.url := Some stored_url |}.

(** A backend that lists an entry without metadata and the stored report,
    answers the signature request for the first with an error and signs
    the second. *)
Definition partly_signing : Storage.Backend unit :=
  {| Storage.list := fun _ _ _ b =>
       (Storage.Resolved
          {| Storage.data := Some [Scenario.bare; stored_entry];
             Storage.error := None |}, b);
     Storage.createSignedUrl := fun bkt path expiresIn b =>
       if String.eqb path "c1/notes.txt" then
         (Storage.Resolved
            {| Storage.data := None;
               Storage.error := Some {| Storage.message := "signing failed" |} |},
          b)
       else
         (Storage.Resolved
            {| Storage.data :=
                 Some {| Storage.signedUrl :=
                           "https://storage.test/" +:+ bkt +:+ "/" +:+ path
                           +:+ "?expires=" +:+ JS.dec expiresIn |};
               Storage.error := None |}, b);
     Storage.upload := fun _ _ _ _ b => (Storage.Resolved Memory.denied, b);
     Storage.remove := fun _ _ b => (Storage.Resolved Memory.denied, b) |}.

Definition partial (now : Z) : Env unit :=
  Build_Env unit partly_signing "c1" (fun _ => now) (fun _ => true).

(** A user who opens the page, uploads [report.pdf] and deletes it with
    the button of its row. *)
Definition clicks : list Event :=
  [ Load; Upload (Some Scenario.report); Delete stored_path stored_name ].

Definition visit : list Input := map Fire clicks.

(** The in-memory backend with a listing that is open for the folder of
    [c1] only. *)
Definition fenced : Storage.Backend Memory.t :=
  {| Storage.list := fun bkt folder o s =>
       if String.eqb folder "c1" then Memory.list bkt folder o s
       else (Storage.Resolved Memory.denied, s);
     Storage.createSignedUrl := Memory.createSignedUrl;
     Storage.upload := Memory.upload;
     Storage.remove := Memory.remove |}.

Definition fenced_env : Env Memory.t :=
  Build_Env Memory.t fenced "c1" (fun _ => Scenario.new_year_2025)
    (fun _ => true).

(** A user who opens the page for client [c1] and uploads [report.pdf];
    the page is then rendered for client [c2], whose folder cannot be
    listed, and the user deletes the row that is still displayed. *)
Definition moved : list Input :=
  [ Fire Load; Fire (Upload (Some Scenario.report)); Rerender "c2";
    Fire (Delete stored_path stored_name) ].

(** A signed-in session and one without a user. *)
Definition member : Sql.Session :=
  {| Sql.uid := Some "6f1c"; Sql.role := "authenticated" |}.

Definition visitor : Sql.Session :=
  {| Sql.uid := None; Sql.role := "anon" |}.

(** A database in which a bucket of another id already carries the name
    [application-forms]. *)
Definition renamed : Sql.Catalog :=
  {| Sql.buckets :=
       {[ "forms" := {| Sql.name := "application-forms"; Sql.public := false;
                        Sql.file_size_limit := None;
                        Sql.allowed_mime_types := None |} ]};
     Sql.policies := ∅ |}.

End Cases.

(* ===================================================================== *)
(** * Facts about the string operations                                   *)
(* ===================================================================== *)

(** String concatenation computes on literals in the proofs below. *)
#[local] Arguments String.append !_ _ / : simpl nomatch.

Section SplitFacts.
Variable sep : ascii.

Lemma append_assoc (a b c : string) : (a +:+ b) +:+ c = a +:+ (b +:+ c).
Proof. induction a as [|x a IH]; simpl; [reflexivity | now rewrite IH]. Qed.

Lemma append_empty_r (a : string) : a +:+ EmptyString = a.
Proof. induction a as [|x a IH]; simpl; [reflexivity | now rewrite IH]. Qed.

Lemma has_char_app (a b : string) :
  JS.has_char sep (a +:+ b) = JS.has_char sep a || JS.has_char sep b.
Proof.
  induction a as [|x a IH]; simpl; [reflexivity |].
  rewrite IH. now rewrite orb_assoc.
Qed.

Lemma last_cons {A} (x d : A) (l : list A) : List.last (x :: l) d = List.last l x.
Proof.
  revert x d. induction l as [|y l IH]; intros x d; [reflexivity |].
  change (List.last (x :: y :: l) d) with (List.last (y :: l) d).
  rewrite (IH y d). symmetry. apply (IH y x).
Qed.

(** Splitting cuts the string at every separator and nowhere else. *)
Lemma split_segments_join (s : string) :
  let '(h, t) := JS.split_segments sep s in
  s = JS.join sep h t /\ JS.has_char sep h = false /\
  Forall (fun x => JS.has_char sep x = false) t.
Proof.
  induction s as [|c r IH]; simpl.
  - repeat split. constructor.
  - destruct (JS.split_segments sep r) as [h t].
    destruct IH as (Hj & Hh & Ht).
    destruct (Ascii.eqb c sep) eqn:E.
    + apply Ascii.eqb_eq in E. subst c.
      repeat split; [| constructor; assumption].
      unfold JS.join in *. simpl. now rewrite <- Hj.
    + repeat split; [| | assumption].
      * unfold JS.join in *. simpl. now rewrite <- Hj.
      * simpl. now rewrite E.
Qed.

Lemma split_segments_no_sep (s : string) :
  JS.has_char sep s = false -> JS.split_segments sep s = (s, []).
Proof.
  induction s as [|c r IH]; simpl; [reflexivity |].
  intros H. apply orb_false_iff in H as [Hc Hr].
  rewrite (IH Hr), Hc. reflexivity.
Qed.

Lemma split_segments_app (a r : string) :
  JS.split_segments sep (a +:+ String sep r) =
  (fst (JS.split_segments sep a),
   snd (JS.split_segments sep a) ++
   fst (JS.split_segments sep r) :: snd (JS.split_segments sep r)).
Proof.
  induction a as [|c a IH]; simpl.
  - rewrite Ascii.eqb_refl. now destruct (JS.split_segments sep r).
  - rewrite IH. destruct (JS.split_segments sep a) as [h t]; simpl.
    now destruct (Ascii.eqb c sep).
Qed.

(** The first segment is the part before the first separator. *)
Lemma first_segment_spec (s : string) :
  exists rest,
    s = JS.first_segment sep s +:+ rest /\
    JS.has_char sep (JS.first_segment sep s) = false /\
    (rest = EmptyString \/ exists r, rest = String sep r).
Proof.
  unfold JS.first_segment.
  pose proof (split_segments_join s) as H.
  destruct (JS.split_segments sep s) as [h t]; simpl.
  destruct H as (Hj & Hh & _). unfold JS.join in Hj.
  exists (foldr (fun x acc => String sep (x +:+ acc)) EmptyString t).
  repeat split; [assumption | assumption |].
  destruct t as [|x t]; [now left | right]. simpl. eauto.
Qed.

Lemma join_snoc (h : string) (t : list string) (l : string) :
  JS.join sep h (t ++ [l]) = (JS.join sep h t +:+ String sep EmptyString) +:+ l.
Proof.
  unfold JS.join. rewrite !append_assoc. f_equal.
  induction t as [|x t IH]; simpl.
  - now rewrite append_empty_r.
  - rewrite IH. simpl. now rewrite ?append_assoc.
Qed.

(** The popped segment is the part after the last separator. *)
Lemma pop_segment_spec (s : string) :
  exists pre,
    s = pre +:+ JS.pop_segment sep s /\
    JS.has_char sep (JS.pop_segment sep s) = false /\
    (pre = EmptyString \/ exists p, pre = p +:+ String sep EmptyString).
Proof.
  unfold JS.pop_segment.
  pose proof (split_segments_join s) as H.
  destruct (JS.split_segments sep s) as [h t].
  destruct H as (Hj & Hh & Ht).
  revert Hj Ht. destruct t as [|l t' _] using rev_ind; intros Hj Ht.
  - exists EmptyString. simpl. unfold JS.join in Hj. simpl in Hj.
    rewrite append_empty_r in Hj. auto.
  - rewrite List.last_last. exists (JS.join sep h t' +:+ String sep EmptyString).
    rewrite join_snoc in Hj. split; [assumption |].
    split; [| right; eauto].
    apply Forall_app in Ht as [_ Hl]. now inversion Hl.
Qed.

(** With no separator in the name, both segments are the whole name. *)
Lemma segments_no_sep (s : string) :
  JS.has_char sep s = false ->
  JS.first_segment sep s = s /\ JS.pop_segment sep s = s.
Proof.
  intros H. unfold JS.first_segment, JS.pop_segment.
  now rewrite (split_segments_no_sep s H).
Qed.

(** A name that ends in a separator-free extension. *)
Lemma segments_stem_ext (stem ext : string) :
  JS.has_char sep ext = false ->
  JS.first_segment sep (stem +:+ String sep ext) = JS.first_segment sep stem /\
  JS.pop_segment sep (stem +:+ String sep ext) = ext.
Proof.
  intros H. unfold JS.first_segment, JS.pop_segment.
  rewrite split_segments_app, (split_segments_no_sep ext H). simpl.
  split; [reflexivity |]. apply List.last_last.
Qed.

End SplitFacts.

(** The runtime fragment on a few inputs. *)
Example split_two : JS.split "." "a.b" = ["a"; "b"].
Proof. reflexivity. Qed.

Example split_empty : JS.split "." EmptyString = [EmptyString].
Proof. reflexivity. Qed.

Example split_trailing : JS.split "." "a." = ["a"; EmptyString].
Proof. reflexivity. Qed.

Example iso_2025 : JS.toISOString 1735689600000 = "2025-01-01T00:00:00.000Z".
Proof. vm_compute. reflexivity. Qed.

Example iso_epoch : JS.toISOString 0 = "1970-01-01T00:00:00.000Z".
Proof. vm_compute. reflexivity. Qed.

Example iso_leap : JS.toISOString 1709251199999 = "2024-02-29T23:59:59.999Z".
Proof. vm_compute. reflexivity. Qed.

Example iso_before_epoch : JS.toISOString (-1) = "1969-12-31T23:59:59.999Z".
Proof. vm_compute. reflexivity. Qed.

(* ===================================================================== *)
(** * What the handlers do                                                *)
(* ===================================================================== *)

(** Unfolds the control operators down to functions on worlds. *)
Ltac run_prog :=
  unfold async, try_catch_finally, try_catch, return_,
         setFiles, setUploading, setLoading, setError, setSuccess, set_ui,
         storage_list, storage_createSignedUrl, storage_upload, storage_remove,
         request, new_Date_toISOString,
         mbind, prog_bind, mret, prog_ret in *;
  simpl in *.

Lemma consistent_same_messages (u v : Component.t) :
  Component.error v = Component.error u ->
  Component.success v = Component.success u ->
  messages_consistent u -> messages_consistent v.
Proof.
  unfold messages_consistent, exclusive. intros -> ->. exact (fun H => H).
Qed.

Lemma consistent_no_error (v : Component.t) :
  Component.error v = None -> messages_consistent v.
Proof. intros H. left. now left. Qed.

Lemma consistent_no_success (v : Component.t) :
  Component.success v = None -> messages_consistent v.
Proof. intros H. left. now right. Qed.

Lemma consistent_list_failure (v : Component.t) (m : string) :
  Component.error v = Some m -> list_failure_message m ->
  messages_consistent v.
Proof. intros H Hm. right. eauto. Qed.

(** Settles the consistency of an explicit run of displayed states. *)
Ltac solve_renders :=
  repeat first
    [ match goal with
      | |- Forall _ [] => apply List.Forall_nil
      | |- Forall _ (_ :: _) => apply List.Forall_cons
      | |- Forall _ (_ ++ _) => apply Forall_app; split
      end
    | assumption
    | apply consistent_no_error; reflexivity
    | apply consistent_no_success; reflexivity
    | eapply consistent_list_failure;
        [reflexivity | unfold list_failure_message; eauto]
    | eapply consistent_same_messages; [reflexivity | reflexivity | assumption] ].

(** Two worlds are equal when their call logs and their displayed states
    are; the lists are compared after reassociating the appends. *)
Lemma world_eq {B} (u : Component.t) (b : B) (n : nat)
    (cs cs' : list Storage.Call) (rs rs' : list Component.t) :
  cs = cs' -> rs = rs' ->
  (Normal tt, Build_World u b n cs rs) = (Normal tt, Build_World u b n cs' rs').
Proof. now intros -> ->. Qed.

Ltac reassociate :=
  repeat match goal with
         | |- (?a ++ ?b) ++ ?c = _ => rewrite <- (app_assoc a b c)
         end;
  reflexivity.

Ltac close_world := apply world_eq; reassociate.

Section ManagerFacts.
Context {B : Type} (env : Env B).

(** One entry of the listing: a signature request and, when the entry
    carries no creation time, a clock reading. *)
Lemma with_url_run (e : Storage.FileObject) (w : World B) :
  exists c b n,
    with_url env e w =
      (c, Build_World (ui w) b n (calls w ++ [sign_call env e]) (renders w)) /\
    (ticks w <= n)%nat /\
    match c with
    | Normal f => forall lo hi, (lo <= ticks w)%nat -> (n <= hi)%nat ->
                                displays env lo hi e f
    | Return => False
    | Throw => True
    end.
Proof.
  unfold with_url, created_at_or_now. run_prog.
  unfold sign_call.
  destruct (Storage.createSignedUrl _ _ _ _ _) as [[resp|] b] eqn:Hs; simpl.
  - destruct (JS.truthy_string (Storage.created_at e)) eqn:Ht; simpl.
    + exists (Normal {|
               UploadedFile.name := Storage.name e;
               UploadedFile.path := clientId env +:+ "/" +:+ Storage.name e;
               UploadedFile.size := size_or_zero e;
               UploadedFile.uploadedAt := default EmptyString (Storage.created_at e);
               UploadedFile.url := Storage.signedUrl <$> Storage.data resp |}),
             b, (ticks w).
      split; [reflexivity |]. split; [lia |].
      intros lo hi _ _. unfold displays; simpl. rewrite Ht.
      repeat split; [| eauto].
      destruct (Storage.created_at e); [reflexivity | discriminate].
    + eexists (Normal _), b, (S (ticks w)).
      split; [reflexivity |]. split; [lia |].
      intros lo hi Hlo Hhi. unfold displays; simpl. rewrite Ht.
      repeat split; [| eauto].
      exists (ticks w). split; [lia | reflexivity].
  - exists Throw, b, (ticks w). repeat split; lia.
Qed.

(** The whole listing: one signature request per entry, in order, and no
    change to the component state. *)
Lemma listing_run (l : list Storage.FileObject) (w : World B) :
  exists c b n,
    promise_all_map (with_url env) l w =
      (c, Build_World (ui w) b n (calls w ++ map (sign_call env) l)
            (renders w)) /\
    (ticks w <= n)%nat /\
    match c with
    | Normal fs => forall lo hi, (lo <= ticks w)%nat -> (n <= hi)%nat ->
                                 Forall2 (displays env lo hi) l fs
    | Return => False
    | Throw => True
    end.
Proof.
  revert w. induction l as [|e l IH]; intros w; simpl.
  - exists (Normal []), (store w), (ticks w).
    rewrite app_nil_r. destruct w; simpl.
    split; [reflexivity |]. split; [lia |]. intros; constructor.
  - destruct (with_url_run e w) as (c & b & n & -> & Hn & Hc).
    destruct (IH (Build_World (ui w) b n (calls w ++ [sign_call env e])
                    (renders w)))
      as (cs & b' & n' & -> & Hn' & Hcs).
    simpl in *. rewrite <- app_assoc. simpl.
    destruct c as [f| |]; [| contradiction |].
    + destruct cs as [fs| |]; [| contradiction |].
      * exists (Normal (f :: fs)), b', n'.
        split; [reflexivity |]. split; [lia |].
        intros lo hi Hlo Hhi. constructor.
        -- apply Hc; lia.
        -- apply Hcs; lia.
      * exists Throw, b', n'. repeat split; lia.
    + exists Throw, b', n'. repeat split; lia.
Qed.

(** [loadFiles] case by case on the answer to the listing request. *)
Lemma loadFiles_run (w : World B) :
  exists u b n cs rs,
    loadFiles env w =
      (Normal tt, Build_World u b n (calls w ++ list_call env :: cs)
                    (renders w ++ rs)) /\
    (messages_consistent (ui w) -> Forall messages_consistent rs) /\
    Component.loading u = false /\
    Component.success u = Component.success (ui w) /\
    match Storage.list (backend env) bucket (clientId env)
            {| Storage.limit := 100; Storage.offset := 0 |} (store w) with
    | (Storage.Rejected, _) =>
        load_throws env w /\ cs = [] /\
        Component.files u = Component.files (ui w) /\
        Component.error u = Some "Failed to load application forms"
    | (Storage.Resolved r, _) =>
        match Storage.error r, Storage.data r with
        | Some e, _ =>
            ~ load_throws env w /\ cs = [] /\
            Component.files u = Component.files (ui w) /\
            Component.error u =
              Some ("Failed to load files: " +:+ Storage.message e)
        | None, None =>
            ~ load_throws env w /\ cs = [] /\
            Component.files u = Component.files (ui w) /\
            Component.error u = None
        | None, Some l =>
            cs = map (sign_call env) l /\
            (load_throws env w /\
             Component.files u = Component.files (ui w) /\
             Component.error u = Some "Failed to load application forms"
             \/
             ~ load_throws env w /\
             Component.error u = None /\
             Forall2 (displays env (ticks w) n) l (Component.files u))
        end
    end.
Proof.
  unfold loadFiles, load_throws, loadFiles_try, list_call. run_prog.
  destruct (Storage.list _ _ _ _ _) as [[r|] b] eqn:Hl; simpl.
  - destruct (Storage.error r) as [e|] eqn:He; simpl.
    + do 5 eexists.
      split; [close_world |]. simpl.
      split; [intros Hw; solve_renders |].
      repeat split; try reflexivity. discriminate.
    + destruct (Storage.data r) as [l|] eqn:Hd; simpl.
      * match goal with
        | |- context [promise_all_map _ _ ?w1] =>
            destruct (listing_run l w1) as (c & b' & n' & Heq & Hn & Hc)
        end.
        rewrite Heq. simpl in *.
        destruct c as [fs| |]; [| contradiction |]; simpl.
        -- do 5 eexists.
           split; [close_world |]. simpl.
           split; [intros Hw; solve_renders |].
           repeat split; try reflexivity.
           right. repeat split; [discriminate |].
           apply Hc; lia.
        -- do 5 eexists.
           split; [close_world |]. simpl.
           split; [intros Hw; solve_renders |].
           repeat split; try reflexivity.
           left. repeat split; reflexivity.
      * do 5 eexists.
        split; [close_world |]. simpl.
        split; [intros Hw; solve_renders |].
        repeat split; try reflexivity. discriminate.
  - do 5 eexists.
    split; [close_world |]. simpl.
    split; [intros Hw; solve_renders |].
    repeat split; reflexivity.
Qed.

Lemma loadFiles_normal (w : World B) :
  loadFiles env w = (Normal tt, exec (loadFiles env) w).
Proof.
  destruct (loadFiles_run w) as (u & b & n & cs & rs & Heq & _).
  unfold exec. now rewrite Heq.
Qed.

(** One entry whose signature request is answered. *)
Lemma with_url_signed (e : Storage.FileObject) (w : World B)
    (resp : Storage.Response Storage.SignedUrl) (b1 : B) :
  Storage.createSignedUrl (backend env) bucket
    (clientId env +:+ "/" +:+ Storage.name e) 3600 (store w)
  = (Storage.Resolved resp, b1) ->
  exists f n,
    with_url env e w =
      (Normal f,
       Build_World (ui w) b1 n (calls w ++ [sign_call env e]) (renders w)) /\
    (ticks w <= n)%nat /\
    UploadedFile.url f = Storage.signedUrl <$> Storage.data resp /\
    forall lo hi, (lo <= ticks w)%nat -> (n <= hi)%nat ->
                  displays env lo hi e f.
Proof.
  intros Hs.
  destruct (with_url_run e w) as (c & b & n & Heq & Hn & Hc).
  revert Heq. unfold with_url, created_at_or_now. run_prog. rewrite Hs.
  destruct (JS.truthy_string (Storage.created_at e)); simpl;
    intros [= <- <- <-]; do 2 eexists;
    (split; [reflexivity |]); (split; [exact Hn |]);
    (split; [reflexivity | exact Hc]).
Qed.

(** A listing whose signature requests are all answered: every entry is
    turned into a file, with the url of its answer. *)
Lemma listing_signed (l : list Storage.FileObject) :
  forall (w : World B) (urls : list (option string)) (b2 : B),
    signatures env l (store w) = Some (urls, b2) ->
    exists fs n,
      promise_all_map (with_url env) l w =
        (Normal fs,
         Build_World (ui w) b2 n (calls w ++ map (sign_call env) l)
           (renders w)) /\
      (ticks w <= n)%nat /\
      map UploadedFile.url fs = urls /\
      forall lo hi, (lo <= ticks w)%nat -> (n <= hi)%nat ->
                    Forall2 (displays env lo hi) l fs.
Proof.
  induction l as [|e l IH]; intros w urls b2; simpl.
  - intros [= <- <-]. exists [], (ticks w).
    rewrite app_nil_r. destruct w; simpl.
    split; [reflexivity |]. split; [lia |]. split; [reflexivity |].
    intros; constructor.
  - destruct (Storage.createSignedUrl _ _ _ _ _) as [[resp|] b1] eqn:Hs;
      [| discriminate].
    destruct (signatures env l b1) as [[urls' b2']|] eqn:Hrest; [| discriminate].
    intros [= <- <-].
    destruct (with_url_signed e w resp b1 Hs) as (f & n & -> & Hn & Hurl & Hf).
    destruct (IH (Build_World (ui w) b1 n (calls w ++ [sign_call env e])
                    (renders w)) urls' b2' Hrest)
      as (fs & n' & -> & Hn' & Hurls & Hfs).
    simpl in *. rewrite <- app_assoc. simpl.
    exists (f :: fs), n'.
    split; [reflexivity |]. split; [lia |].
    split; [simpl; now rewrite Hurl, Hurls |].
    intros lo hi Hlo Hhi. constructor; [apply Hf | apply Hfs]; lia.
Qed.

(** [loadFiles] when the listing comes back with entries and every
    signature request is answered. *)
Lemma loadFiles_listed (w : World B)
    (r : Storage.Response (list Storage.FileObject)) (b1 b2 : B)
    (entries : list Storage.FileObject) (urls : list (option string)) :
  Storage.list (backend env) bucket (clientId env)
    {| Storage.limit := 100; Storage.offset := 0 |} (store w)
  = (Storage.Resolved r, b1) ->
  Storage.error r = None ->
  Storage.data r = Some entries ->
  signatures env entries b1 = Some (urls, b2) ->
  exists u n rs,
    loadFiles env w =
      (Normal tt,
       Build_World u b2 n
         (calls w ++ list_call env :: map (sign_call env) entries)
         (renders w ++ rs)) /\
    Component.error u = None /\
    Component.loading u = false /\
    map UploadedFile.url (Component.files u) = urls /\
    Forall2 (displays env (ticks w) n) entries (Component.files u).
Proof.
  intros Hl He Hd Hsig.
  unfold loadFiles, loadFiles_try, list_call. run_prog.
  rewrite Hl. simpl. rewrite He. simpl. rewrite Hd. simpl.
  match goal with
  | |- context [promise_all_map _ _ ?w1] =>
      destruct (listing_signed entries w1 urls b2 Hsig)
        as (fs & n & Heq & Hn & Hurls & Hfs)
  end.
  rewrite Heq. simpl in *.
  do 3 eexists. split; [close_world |]. simpl.
  split; [reflexivity |]. split; [reflexivity |]. split; [exact Hurls |].
  apply Hfs; lia.
Qed.

Lemma upload_nothing (w : World B) :
  handleFileUpload env None w = (Normal tt, w).
Proof. reflexivity. Qed.

(** A file that fails a check: a message, and nothing else happens. *)
Lemma upload_refused (file : File.t) (w : World B) :
  passes_validation file = false ->
  let message :=
    Some (if JS.includes allowedTypes (File.type file)
          then "File size must be less than 50MB"
          else "File type not supported. Please upload PDF, Word, Excel, text, or image files.") in
  handleFileUpload env (Some file) w =
    (Normal tt,
     Build_World (with_messages false message None (ui w))
       (store w) (ticks w) (calls w)
       (renders w ++ upload_start (ui w) ++
        [ with_messages true message None (ui w);
          with_messages false message None (ui w) ])).
Proof.
  unfold passes_validation, handleFileUpload.
  destruct (JS.includes allowedTypes (File.type file));
    destruct (File.size file >? 50 * 1024 * 1024);
    intros H; try discriminate H; run_prog; close_world.
Qed.

(** A file that passes both checks: one upload request, then the outcome. *)
Lemma upload_accepted (file : File.t) (w : World B) :
  passes_validation file = true ->
  handleFileUpload env (Some file) w =
    let request := Storage.CallUpload bucket (upload_path env w (File.name file))
                     file upload_options in
    let failed message :=
      (Normal tt,
       Build_World (with_messages false (Some message) None (ui w))
         (snd (Storage.upload (backend env) bucket
                 (upload_path env w (File.name file)) file upload_options
                 (store w)))
         (S (ticks w)) (calls w ++ [request])
         (renders w ++ upload_start (ui w) ++
          [ with_messages true (Some message) None (ui w);
            with_messages false (Some message) None (ui w) ])) in
    match Storage.upload (backend env) bucket (upload_path env w (File.name file))
            file upload_options (store w) with
    | (Storage.Rejected, b) =>
        failed "An unexpected error occurred during upload"
    | (Storage.Resolved r, b) =>
        match Storage.error r with
        | Some e => failed ("Upload failed: " +:+ Storage.message e)
        | None =>
            let uploaded :=
              with_messages true None
                (Some ("File " +:+ dquote +:+ File.name file +:+ dquote
                       +:+ " uploaded successfully!")) (ui w) in
            (Normal tt,
             upload_done
               (exec (loadFiles env)
                  (Build_World uploaded b (S (ticks w)) (calls w ++ [request])
                     (renders w ++ upload_start (ui w) ++ [uploaded]))))
        end
    end.
Proof.
  unfold passes_validation, handleFileUpload.
  destruct (JS.includes allowedTypes (File.type file));
    destruct (File.size file >? 50 * 1024 * 1024);
    intros H; try discriminate H.
  unfold upload_path, upload_timestamp, upload_options. run_prog.
  destruct (Storage.upload _ _ _ _ _ _) as [[r|] b]; simpl; [| close_world].
  destruct (Storage.error r) as [e|]; simpl; [close_world |].
  match goal with
  | |- context [loadFiles env ?w1] => rewrite (loadFiles_normal w1)
  end.
  rewrite <- !app_assoc. reflexivity.
Qed.

Lemma delete_declined (filePath fileName : string) (w : World B) :
  confirm env ("Are you sure you want to delete " +:+ dquote +:+ fileName
               +:+ dquote +:+ "?") = false ->
  handleFileDelete env filePath fileName w = (Normal tt, w).
Proof.
  unfold handleFileDelete. intros H. run_prog. now rewrite H.
Qed.

(** A download of an available url changes nothing in the component. *)
Lemma download_available (o : option string) (fileName : string) (w : World B) :
  JS.truthy_string o = true ->
  handleFileDownload (default EmptyString o) fileName w = (Normal tt, w).
Proof.
  intros H. destruct o as [url|]; [| discriminate H]. simpl in *.
  unfold handleFileDownload. run_prog. now rewrite H.
Qed.

(** A confirmed deletion: one remove request, then the outcome. *)
Lemma delete_confirmed (filePath fileName : string) (w : World B) :
  confirm env ("Are you sure you want to delete " +:+ dquote +:+ fileName
               +:+ dquote +:+ "?") = true ->
  handleFileDelete env filePath fileName w =
    let request := Storage.CallRemove bucket [filePath] in
    let failed message :=
      let shown := with_messages (Component.uploading (ui w)) (Some message)
                     None (ui w) in
      (Normal tt,
       Build_World shown
         (snd (Storage.remove (backend env) bucket [filePath] (store w)))
         (ticks w) (calls w ++ [request])
         (renders w ++ delete_start (ui w) ++ [shown])) in
    match Storage.remove (backend env) bucket [filePath] (store w) with
    | (Storage.Rejected, b) => failed "Failed to delete file"
    | (Storage.Resolved r, b) =>
        match Storage.error r with
        | Some e => failed ("Failed to delete file: " +:+ Storage.message e)
        | None =>
            let deleted :=
              with_messages (Component.uploading (ui w)) None
                (Some ("File " +:+ dquote +:+ fileName +:+ dquote
                       +:+ " deleted successfully!")) (ui w) in
            (Normal tt,
             exec (loadFiles env)
               (Build_World deleted b (ticks w) (calls w ++ [request])
                  (renders w ++ delete_start (ui w) ++ [deleted])))
        end
    end.
Proof.
  unfold handleFileDelete. intros H. run_prog. rewrite H. simpl.
  destruct (Storage.remove _ _ _ _) as [[r|] b]; simpl; [| close_world].
  destruct (Storage.error r) as [e|]; simpl; [close_world |].
  match goal with
  | |- context [loadFiles env ?w1] => rewrite (loadFiles_normal w1)
  end.
  rewrite <- !app_assoc. reflexivity.
Qed.

(** The requests of one list operation: the listing, then signatures. *)
Lemma loadFiles_calls (w : World B) :
  exists cs,
    calls (exec (loadFiles env) w) = calls w ++ list_call env :: cs /\
    Forall (fun c => exists e, c = sign_call env e) cs.
Proof.
  destruct (loadFiles_run w) as (u & b & n & cs & rs & Heq & _ & _ & _ & H).
  exists cs. unfold exec. rewrite Heq. split; [reflexivity |].
  assert (Hmap : forall l, Forall (fun c => exists e, c = sign_call env e)
                             (map (sign_call env) l)).
  { intros l. induction l as [|x l IH]; simpl; constructor; eauto. }
  destruct (Storage.list _ _ _ _ _) as [[r|] b1].
  - destruct (Storage.error r).
    + destruct H as (_ & -> & _). constructor.
    + destruct (Storage.data r).
      * destruct H as (-> & _). apply Hmap.
      * destruct H as (_ & -> & _). constructor.
  - destruct H as (_ & -> & _). constructor.
Qed.

(** C4: whenever the list operation fails, by a backend list error or by
    an unexpected exception, the matching human-readable message is set
    and the displayed file list is the one from before; on a freshly
    mounted component that is the empty list. *)
Theorem C4_failed_list_keeps_files (w : World B) (f : ListFailure) :
  list_fails env w f ->
  Component.error (ui (exec (loadFiles env) w)) = Some (failure_text f) /\
  Component.files (ui (exec (loadFiles env) w)) = Component.files (ui w) /\
  (ui w = Component.initial ->
   Component.files (ui (exec (loadFiles env) w)) = []).
Proof.
  intros Hf.
  destruct (loadFiles_run w) as (u & b & n & cs & rs & Heq & _ & _ & _ & H).
  unfold exec. rewrite Heq. simpl.
  assert (Hgoal : Component.error u = Some (failure_text f) /\
                  Component.files u = Component.files (ui w)).
  { destruct f as [e|]; simpl in Hf.
    - destruct Hf as (r & b1 & Hl & He). rewrite Hl, He in H.
      destruct H as (_ & _ & Hfiles & Herr). now split.
    - destruct (Storage.list _ _ _ _ _) as [[r|] b1].
      + destruct (Storage.error r).
        * destruct H as (Hn & _). contradiction.
        * destruct (Storage.data r).
          -- destruct H as (_ & [(_ & Hfiles & Herr) | (Hn & _)]);
               [now split | contradiction].
          -- destruct H as (Hn & _). contradiction.
      + destruct H as (_ & _ & Hfiles & Herr). now split. }
  destruct Hgoal as [Herr Hfiles]. repeat split; try assumption.
  intros Hinit. rewrite Hfiles, Hinit. reflexivity.
Qed.

(** C6: the list operation asks for the client's folder with limit 100
    and offset 0, and for each returned entry asks for a signed URL of
    its path with an expiry of 3600 seconds; it sends nothing else. *)
Theorem C6_list_requests (w : World B) :
  (exists signs,
      calls (exec (loadFiles env) w) =
        calls w ++
        Storage.CallList bucket (clientId env)
          {| Storage.limit := 100; Storage.offset := 0 |} :: signs /\
      Forall (fun c => exists path,
                  c = Storage.CallCreateSignedUrl bucket path 3600) signs) /\
  (forall r b entries,
      Storage.list (backend env) bucket (clientId env)
        {| Storage.limit := 100; Storage.offset := 0 |} (store w)
      = (Storage.Resolved r, b) ->
      Storage.error r = None ->
      Storage.data r = Some entries ->
      calls (exec (loadFiles env) w) =
        calls w ++
        Storage.CallList bucket (clientId env)
          {| Storage.limit := 100; Storage.offset := 0 |} ::
        map (fun e => Storage.CallCreateSignedUrl bucket
                        (clientId env +:+ "/" +:+ Storage.name e) 3600)
            entries).
Proof.
  split.
  - destruct (loadFiles_calls w) as (cs & Heq & Hcs).
    exists cs. split; [exact Heq |].
    eapply List.Forall_impl; [| exact Hcs].
    intros c (e & ->). unfold sign_call. eauto.
  - intros r b entries Hl He Hd.
    destruct (loadFiles_run w) as (u & b' & n & cs & rs & Heq & _ & _ & _ & H).
    rewrite Hl, He, Hd in H. destruct H as (-> & _).
    unfold exec. rewrite Heq. reflexivity.
Qed.

(** C10: when the listing succeeds and each signature request is
    answered, be it with an error, the displayed list has one entry per
    returned entry, in order, with the entry's name and path; the urls are
    those of the answers to the signature requests sent in the order of the
    listing, absent where the answer is an error without data; a missing
    size shows as 0 and a missing creation time as a clock reading taken
    during the operation. *)
Theorem C10_every_entry_displayed (w : World B)
    (r : Storage.Response (list Storage.FileObject)) (b1 b2 : B)
    (entries : list Storage.FileObject) (urls : list (option string)) :
  Storage.list (backend env) bucket (clientId env)
    {| Storage.limit := 100; Storage.offset := 0 |} (store w)
  = (Storage.Resolved r, b1) ->
  Storage.error r = None ->
  Storage.data r = Some entries ->
  signatures env entries b1 = Some (urls, b2) ->
  store (exec (loadFiles env) w) = b2 /\
  map UploadedFile.url (Component.files (ui (exec (loadFiles env) w))) = urls /\
  Forall2
    (fun e f =>
       UploadedFile.name f = Storage.name e /\
       UploadedFile.path f = clientId env +:+ "/" +:+ Storage.name e /\
       (no_size e -> UploadedFile.size f = 0) /\
       (forall m n, Storage.metadata e = Some m -> Storage.size m = Some n ->
                    UploadedFile.size f = n) /\
       (Storage.created_at e = None ->
        exists k, (ticks w <= k < ticks (exec (loadFiles env) w))%nat /\
                  UploadedFile.uploadedAt f = JS.toISOString (clock env k)) /\
       (forall t, Storage.created_at e = Some t -> t <> EmptyString ->
                  UploadedFile.uploadedAt f = t))
    entries (Component.files (ui (exec (loadFiles env) w))).
Proof.
  intros Hl He Hd Hsig.
  destruct (loadFiles_listed w r b1 b2 entries urls Hl He Hd Hsig)
    as (u & n & rs & Heq & _ & _ & Hurls & Hall).
  unfold exec. rewrite Heq. simpl.
  split; [reflexivity |]. split; [exact Hurls |].
  eapply List.Forall2_impl; [| exact Hall].
  intros e f (Hname & Hpath & Hsize & Htime & _).
  split; [assumption |]. split; [assumption |].
  split; [| split; [| split]].
  - intros Hno. rewrite Hsize. unfold size_or_zero.
    destruct (Storage.metadata e) as [m|] eqn:Hm; [| reflexivity].
    now rewrite (Hno m Hm).
  - intros m k Hm Hk. rewrite Hsize. unfold size_or_zero. rewrite Hm, Hk.
    destruct (Z.eqb_spec k 0) as [-> |]; reflexivity.
  - intros Hc. rewrite Hc in Htime. exact Htime.
  - intros t Ht Hne. rewrite Ht in Htime. simpl in Htime.
    destruct (String.eqb_spec t EmptyString) as [|_]; [contradiction |].
    simpl in Htime. now injection Htime.
Qed.

(** After a list operation the error is absent or reports its failure,
    and the success message is the one from before. *)
Lemma load_messages (w : World B) :
  Component.success (ui (exec (loadFiles env) w)) = Component.success (ui w) /\
  (Component.error (ui (exec (loadFiles env) w)) = None \/
   exists m, Component.error (ui (exec (loadFiles env) w)) = Some m /\
             list_failure_message m).
Proof.
  destruct (loadFiles_run w) as (u & b & n & cs & rs & Heq & _ & _ & Hs & H).
  unfold exec. rewrite Heq. simpl. split; [exact Hs |].
  unfold list_failure_message.
  destruct (Storage.list _ _ _ _ _) as [[r|] b1].
  - destruct (Storage.error r) as [e|].
    + destruct H as (_ & _ & _ & ->). right. eauto.
    + destruct (Storage.data r).
      * destruct H as (_ & [(_ & _ & ->) | (_ & -> & _)]); [right | left]; eauto.
      * destruct H as (_ & _ & _ & ->). now left.
  - destruct H as (_ & _ & _ & ->). right. eauto.
Qed.

Lemma load_consistent (w : World B) :
  messages_consistent (ui (exec (loadFiles env) w)).
Proof.
  destruct (load_messages w) as (_ & [H | H]).
  - left. now left.
  - now right.
Qed.

(** Every event leaves the messages consistent. *)
Lemma handle_consistent (e : Event) (w : World B) :
  messages_consistent (ui w) ->
  messages_consistent (ui (exec (handle env e) w)).
Proof.
  intros Hw. destruct e as [| [file|] | filePath fileName | shown]; simpl.
  - apply load_consistent.
  - unfold exec. destruct (passes_validation file) eqn:Hv.
    + rewrite (upload_accepted file w Hv). simpl.
      destruct (Storage.upload _ _ _ _ _ _) as [[r|] b]; simpl.
      * destruct (Storage.error r); simpl.
        -- left. now right.
        -- apply load_consistent.
      * left. now right.
    + rewrite (upload_refused file w Hv). simpl. left. now right.
  - exact Hw.
  - unfold exec.
    destruct (confirm env ("Are you sure you want to delete " +:+ dquote
                           +:+ fileName +:+ dquote +:+ "?")) eqn:Hc.
    + rewrite (delete_confirmed filePath fileName w Hc). simpl.
      destruct (Storage.remove _ _ _ _) as [[r|] b]; simpl.
      * destruct (Storage.error r); simpl.
        -- left. now right.
        -- apply load_consistent.
      * left. now right.
    + rewrite (delete_declined filePath fileName w Hc). exact Hw.
  - destruct (JS.truthy_string (UploadedFile.url shown)) eqn:Hu; [| exact Hw].
    unfold exec. now rewrite download_available.
Qed.

Lemma upload_start_consistent (u : Component.t) :
  messages_consistent u -> Forall messages_consistent (upload_start u).
Proof. intros Hu. unfold upload_start. solve_renders. Qed.

Lemma delete_start_consistent (u : Component.t) :
  messages_consistent u -> Forall messages_consistent (delete_start u).
Proof. intros Hu. unfold delete_start. solve_renders. Qed.

(** What a list operation displays on the way is consistent as well. *)
Lemma load_renders (w : World B) :
  messages_consistent (ui w) ->
  Forall messages_consistent (renders w) ->
  Forall messages_consistent (renders (exec (loadFiles env) w)).
Proof.
  intros Hu Hr.
  destruct (loadFiles_run w) as (u & b & n & cs & rs & Heq & Hrs & _).
  unfold exec. rewrite Heq. simpl. apply Forall_app. split; auto.
Qed.

(** Every event displays consistent messages only. *)
Lemma handle_renders (e : Event) (w : World B) :
  messages_consistent (ui w) ->
  Forall messages_consistent (renders w) ->
  Forall messages_consistent (renders (exec (handle env e) w)).
Proof.
  intros Hu Hr.
  pose proof (upload_start_consistent (ui w) Hu) as Hup.
  pose proof (delete_start_consistent (ui w) Hu) as Hdel.
  destruct e as [| [file|] | filePath fileName | shown]; simpl.
  - now apply load_renders.
  - unfold exec. destruct (passes_validation file) eqn:Hv.
    + rewrite (upload_accepted file w Hv). simpl.
      destruct (Storage.upload _ _ _ _ _ _) as [[r|] b]; simpl.
      * destruct (Storage.error r); simpl.
        -- solve_renders.
        -- apply Forall_app. split; [| solve_renders].
           ++ apply load_renders; simpl; solve_renders.
           ++ eapply consistent_same_messages; [reflexivity | reflexivity |].
              apply load_consistent.
      * solve_renders.
    + rewrite (upload_refused file w Hv). simpl. solve_renders.
  - exact Hr.
  - unfold exec.
    destruct (confirm env ("Are you sure you want to delete " +:+ dquote
                           +:+ fileName +:+ dquote +:+ "?")) eqn:Hc.
    + rewrite (delete_confirmed filePath fileName w Hc). simpl.
      destruct (Storage.remove _ _ _ _) as [[r|] b]; simpl.
      * destruct (Storage.error r); simpl.
        -- solve_renders.
        -- apply load_renders; simpl; solve_renders.
      * solve_renders.
    + rewrite (delete_declined filePath fileName w Hc). exact Hr.
  - destruct (JS.truthy_string (UploadedFile.url shown)) eqn:Hurl; [| exact Hr].
    unfold exec. now rewrite download_available.
Qed.

Lemma run_snoc (es : list Event) (e : Event) (w : World B) :
  run env (es ++ [e]) w = exec (handle env e) (run env es w).
Proof. unfold run. now rewrite fold_left_app. Qed.

Lemma includes_In (l : list string) (x : string) :
  JS.includes l x = true <-> In x l.
Proof.
  unfold JS.includes. rewrite existsb_exists. split.
  - intros (y & Hy & He). apply String.eqb_eq in He. now subst.
  - intros H. exists x. split; [exact H | apply String.eqb_refl].
Qed.

(** A file that passes the checks is sent: the upload request is the
    first one the handler issues. *)
Lemma upload_call_sent (file : File.t) (w : World B) :
  passes_validation file = true ->
  exists rest,
    calls (exec (handleFileUpload env (Some file)) w) =
      calls w ++
      Storage.CallUpload bucket (upload_path env w (File.name file)) file
        upload_options :: rest.
Proof.
  intros Hv. unfold exec. rewrite (upload_accepted file w Hv). simpl.
  destruct (Storage.upload _ _ _ _ _ _) as [[r|] b]; simpl.
  - destruct (Storage.error r); simpl.
    + exists []. reflexivity.
    + match goal with
      | |- context [exec (loadFiles env) ?w1] =>
          destruct (loadFiles_calls w1) as (cs & Heq & _)
      end.
      simpl in Heq. rewrite Heq, <- app_assoc. simpl. eauto.
  - exists []. reflexivity.
Qed.

(** Whatever the handler sends, its upload requests carry the options
    [cacheControl: '3600', upsert: false]. *)
Lemma upload_requests (selected : option File.t) (w : World B) :
  exists new,
    calls (exec (handleFileUpload env selected) w) = calls w ++ new /\
    forall bkt path f o,
      In (Storage.CallUpload bkt path f o) new -> o = upload_options.
Proof.
  destruct selected as [file|]; [| exists []; split;
    [simpl; now rewrite app_nil_r | intros ? ? ? ? []]].
  unfold exec. destruct (passes_validation file) eqn:Hv.
  - rewrite (upload_accepted file w Hv). simpl.
    assert (Hone : forall bkt path f o,
               In (Storage.CallUpload bkt path f o)
                  [Storage.CallUpload bucket (upload_path env w (File.name file))
                     file upload_options] -> o = upload_options).
    { intros bkt path f o [H | []]. now inversion H. }
    destruct (Storage.upload _ _ _ _ _ _) as [[r|] b]; simpl.
    + destruct (Storage.error r); simpl.
      * eexists. split; [reflexivity | exact Hone].
      * match goal with
        | |- context [exec (loadFiles env) ?w1] =>
            destruct (loadFiles_calls w1) as (cs & Heq & Hcs)
        end.
        simpl in Heq. rewrite Heq, <- app_assoc. simpl.
        eexists. split; [reflexivity |].
        intros bkt path f o [H | [H | H]].
        -- now inversion H.
        -- discriminate H.
        -- rewrite List.Forall_forall in Hcs.
           destruct (Hcs _ H) as (e & He). discriminate He.
    + eexists. split; [reflexivity | exact Hone].
  - rewrite (upload_refused file w Hv). simpl.
    exists []. split; [now rewrite app_nil_r | intros ? ? ? ? []].
Qed.

Lemma replace_colon_dot_clean (s : string) :
  JS.has_char ":" (JS.replace_colon_dot s) = false /\
  JS.has_char "." (JS.replace_colon_dot s) = false.
Proof.
  induction s as [|c r [IH1 IH2]]; simpl; [now split |].
  rewrite IH1, IH2.
  destruct (Ascii.eqb c ":") eqn:E1; simpl; [now split |].
  destruct (Ascii.eqb c ".") eqn:E2; simpl; [now split |].
  rewrite E1, E2. now split.
Qed.

(** C2: a file whose type is not one of the nine allowed ones, or whose
    size exceeds 52,428,800 bytes, gets a validation message and no
    request reaches the backend; an allowed type of exactly 52,428,800
    bytes passes and is sent. *)
Theorem C2_validation (w : World B) (file : File.t) :
  (~ In (File.type file)
        [ "application/pdf";
          "application/msword";
          "application/vnd.openxmlformats-officedocument.wordprocessingml.document";
          "application/vnd.ms-excel";
          "application/vnd.openxmlformats-officedocument.spreadsheetml.sheet";
          "text/plain";
          "image/jpeg";
          "image/png";
          "image/gif" ] \/
   File.size file > 52428800 ->
   (Component.error (ui (exec (handleFileUpload env (Some file)) w))
      = Some "File type not supported. Please upload PDF, Word, Excel, text, or image files." \/
    Component.error (ui (exec (handleFileUpload env (Some file)) w))
      = Some "File size must be less than 50MB") /\
   Component.success (ui (exec (handleFileUpload env (Some file)) w)) = None /\
   calls (exec (handleFileUpload env (Some file)) w) = calls w /\
   store (exec (handleFileUpload env (Some file)) w) = store w) /\
  (In (File.type file)
        [ "application/pdf";
          "application/msword";
          "application/vnd.openxmlformats-officedocument.wordprocessingml.document";
          "application/vnd.ms-excel";
          "application/vnd.openxmlformats-officedocument.spreadsheetml.sheet";
          "text/plain";
          "image/jpeg";
          "image/png";
          "image/gif" ] ->
   File.size file = 52428800 ->
   passes_validation file = true /\
   exists rest,
     calls (exec (handleFileUpload env (Some file)) w) =
       calls w ++
       Storage.CallUpload bucket (upload_path env w (File.name file)) file
         upload_options :: rest).
Proof.
  change [ "application/pdf"; "application/msword";
           "application/vnd.openxmlformats-officedocument.wordprocessingml.document";
           "application/vnd.ms-excel";
           "application/vnd.openxmlformats-officedocument.spreadsheetml.sheet";
           "text/plain"; "image/jpeg"; "image/png"; "image/gif" ]
    with allowedTypes.
  split.
  - intros H.
    assert (Hv : passes_validation file = false).
    { unfold passes_validation. apply andb_false_iff.
      destruct H as [H | H].
      - left. apply not_true_is_false. intros Hi. apply H.
        now apply includes_In.
      - right. apply negb_false_iff. apply Z.gtb_lt. simpl. lia. }
    unfold exec. rewrite (upload_refused file w Hv).
    cbn [snd ui store calls with_messages Component.error Component.success].
    split; [| repeat split].
    destruct (JS.includes allowedTypes (File.type file)); [now right | now left].
  - intros Ht Hs.
    assert (Hv : passes_validation file = true).
    { unfold passes_validation. apply andb_true_iff. split.
      - now apply includes_In.
      - rewrite Hs. reflexivity. }
    split; [exact Hv |]. now apply upload_call_sent.
Qed.

(** C3, as the code has it: for a file that passes validation and whose
    name is [base.ext] with a single dot, the timestamp is the ISO-8601
    time with colons and dots replaced by hyphens, and the object is sent
    to the path [clientId/base_timestamp.ext]. *)
Theorem C3_name_with_one_dot (w : World B) (file : File.t)
    (base ext : string) :
  passes_validation file = true ->
  File.name file = base +:+ "." +:+ ext ->
  JS.has_char "." base = false ->
  JS.has_char "." ext = false ->
  let timestamp :=
    JS.replace_colon_dot (JS.toISOString (clock env (ticks w))) in
  JS.has_char ":" timestamp = false /\
  JS.has_char "." timestamp = false /\
  exists rest,
    calls (exec (handleFileUpload env (Some file)) w) =
      calls w ++
      Storage.CallUpload bucket
        (clientId env +:+ "/" +:+ base +:+ "_" +:+ timestamp +:+ "." +:+ ext)
        file {| Storage.cacheControl := "3600"; Storage.upsert := false |}
      :: rest.
Proof.
  intros Hv Hname Hbase Hext timestamp.
  destruct (replace_colon_dot_clean (JS.toISOString (clock env (ticks w))))
    as [H1 H2].
  split; [exact H1 |]. split; [exact H2 |].
  destruct (upload_call_sent file w Hv) as (rest & Heq).
  exists rest. rewrite Heq. do 3 f_equal.
  unfold upload_path, derived_name, upload_timestamp. rewrite Hname.
  change (base +:+ "." +:+ ext) with (base +:+ String "." ext).
  destruct (segments_stem_ext "." base ext Hext) as [-> ->].
  destruct (segments_no_sep "." base Hbase) as [-> _].
  reflexivity.
Qed.

(** C5: a deletion the user does not confirm does nothing: no request is
    sent, the backend is as it was, and so is every piece of the component
    state. *)
Theorem C5_unconfirmed_delete (w : World B) (filePath fileName : string) :
  confirm env ("Are you sure you want to delete " +:+ dquote +:+ fileName
               +:+ dquote +:+ "?") = false ->
  handleFileDelete env filePath fileName w = (Normal tt, w) /\
  calls (exec (handleFileDelete env filePath fileName) w) = calls w /\
  store (exec (handleFileDelete env filePath fileName) w) = store w /\
  Component.files (ui (exec (handleFileDelete env filePath fileName) w))
    = Component.files (ui w) /\
  Component.error (ui (exec (handleFileDelete env filePath fileName) w))
    = Component.error (ui w) /\
  Component.success (ui (exec (handleFileDelete env filePath fileName) w))
    = Component.success (ui w).
Proof.
  intros H. unfold exec.
  rewrite (delete_declined filePath fileName w H). repeat split.
Qed.

(** The requests of a list operation and of a deletion are no uploads. *)
Lemma load_requests (w : World B) :
  exists new,
    calls (exec (loadFiles env) w) = calls w ++ new /\
    forall bkt path f o, ~ In (Storage.CallUpload bkt path f o) new.
Proof.
  destruct (loadFiles_calls w) as (cs & Heq & Hcs).
  exists (list_call env :: cs). split; [exact Heq |].
  intros bkt path f o [H | H]; [discriminate H |].
  rewrite List.Forall_forall in Hcs.
  destruct (Hcs _ H) as (e & He). discriminate He.
Qed.

Lemma delete_requests (filePath fileName : string) (w : World B) :
  exists new,
    calls (exec (handleFileDelete env filePath fileName) w) = calls w ++ new /\
    forall bkt path f o, ~ In (Storage.CallUpload bkt path f o) new.
Proof.
  unfold exec.
  destruct (confirm env ("Are you sure you want to delete " +:+ dquote
                         +:+ fileName +:+ dquote +:+ "?")) eqn:Hc.
  - rewrite (delete_confirmed filePath fileName w Hc). simpl.
    assert (Hone : forall bkt path f o,
               ~ In (Storage.CallUpload bkt path f o)
                    [Storage.CallRemove bucket [filePath]]).
    { intros bkt path f o [H | []]. discriminate H. }
    destruct (Storage.remove _ _ _ _) as [[r|] b]; simpl.
    + destruct (Storage.error r); simpl.
      * eexists. split; [reflexivity | exact Hone].
      * match goal with
        | |- context [exec (loadFiles env) ?w1] =>
            destruct (load_requests w1) as (new & Heq & Hnew)
        end.
        fold (exec (loadFiles env)). simpl in Heq. rewrite Heq, <- app_assoc.
        eexists. split; [reflexivity |].
        intros bkt path f o Hin. apply in_app_or in Hin as [Hin | Hin].
        -- exact (Hone _ _ _ _ Hin).
        -- exact (Hnew _ _ _ _ Hin).
    + eexists. split; [reflexivity | exact Hone].
  - rewrite (delete_declined filePath fileName w Hc). simpl.
    exists []. split; [now rewrite app_nil_r | intros ? ? ? ? []].
Qed.

(** Over a whole lifetime, upload requests carry the options of
    [handleFileUpload]. *)
Lemma run_requests (b : B) (events : list Event) :
  forall bkt path f o,
    In (Storage.CallUpload bkt path f o) (calls (run env events (mount b))) ->
    o = upload_options.
Proof.
  induction events as [|e es IH] using rev_ind; intros bkt path f o Hin.
  - destruct Hin.
  - rewrite run_snoc in Hin.
    assert (Hstep : exists new,
               calls (exec (handle env e) (run env es (mount b))) =
                 calls (run env es (mount b)) ++ new /\
               forall bkt path f o,
                 In (Storage.CallUpload bkt path f o) new -> o = upload_options).
    { destruct e as [| selected | filePath fileName | shown]; simpl.
      - destruct (load_requests (run env es (mount b))) as (new & Heq & Hnew).
        exists new. split; [exact Heq |].
        intros ? ? ? ? H. destruct (Hnew _ _ _ _ H).
      - apply upload_requests.
      - destruct (delete_requests filePath fileName (run env es (mount b)))
          as (new & Heq & Hnew).
        exists new. split; [exact Heq |].
        intros ? ? ? ? H. destruct (Hnew _ _ _ _ H).
      - exists []. split; [| intros ? ? ? ? []].
        rewrite app_nil_r.
        destruct (JS.truthy_string (UploadedFile.url shown)) eqn:Hurl;
          [| reflexivity].
        unfold exec. now rewrite download_available. }
    destruct Hstep as (new & Heq & Hnew). rewrite Heq in Hin.
    apply in_app_or in Hin as [Hin | Hin]; eauto.
Qed.

(** C7: every upload request of the component carries [upsert: false];
    hence, with a backend that honours the flag (a write without upsert to
    a path that holds an object is answered with an error and changes
    nothing), an upload whose derived path is taken ends with the message
    [Upload failed: ...], no success message, and the backend and the
    displayed list as they were. *)
Theorem C7_upload_without_overwrite
    (holds : B -> string -> string -> bool)
    (w : World B) (selected : option File.t) :
  (forall bkt path file o b,
      Storage.upsert o = false ->
      holds b bkt path = true ->
      exists e,
        Storage.upload (backend env) bkt path file o b =
          (Storage.Resolved {| Storage.data := None; Storage.error := Some e |}, b)) ->
  (forall b events bkt path f o,
      In (Storage.CallUpload bkt path f o) (calls (run env events (mount b))) ->
      Storage.upsert o = false) /\
  (exists new,
      calls (exec (handleFileUpload env selected) w) = calls w ++ new /\
      forall bkt path f o,
        In (Storage.CallUpload bkt path f o) new ->
        Storage.upsert o = false) /\
  (forall file,
      selected = Some file ->
      passes_validation file = true ->
      holds (store w) bucket (upload_path env w (File.name file)) = true ->
      (exists e,
          Component.error (ui (exec (handleFileUpload env selected) w))
            = Some ("Upload failed: " +:+ Storage.message e)) /\
      Component.success (ui (exec (handleFileUpload env selected) w)) = None /\
      store (exec (handleFileUpload env selected) w) = store w /\
      Component.files (ui (exec (handleFileUpload env selected) w))
        = Component.files (ui w)).
Proof.
  intros Hcontract. split; [| split].
  - intros b events bkt path f o Hin.
    now rewrite (run_requests b events _ _ _ _ Hin).
  - destruct (upload_requests selected w) as (new & Heq & Hnew).
    exists new. split; [exact Heq |].
    intros bkt path f o Hin. now rewrite (Hnew _ _ _ _ Hin).
  - intros file -> Hv Hheld.
    destruct (Hcontract bucket (upload_path env w (File.name file)) file
                upload_options (store w) eq_refl Hheld) as (e & He).
    unfold exec. rewrite (upload_accepted file w Hv). simpl.
    rewrite He. simpl. repeat split. eauto.
Qed.

(** C9: in the derived object name the base is the part of the file name
    before its first dot and the extension the part after its last dot;
    so interior segments are dropped, and a name without a dot appears
    twice.  This derived name is the one the upload request uses. *)
Theorem C9_base_and_extension (name timestamp : string) :
  (exists rest pre,
      name = JS.first_segment "." name +:+ rest /\
      JS.has_char "." (JS.first_segment "." name) = false /\
      (rest = EmptyString \/ exists r, rest = "." +:+ r) /\
      name = pre +:+ JS.pop_segment "." name /\
      JS.has_char "." (JS.pop_segment "." name) = false /\
      (pre = EmptyString \/ exists p, pre = p +:+ ".") /\
      derived_name name timestamp =
        JS.first_segment "." name +:+ "_" +:+ timestamp +:+ "." +:+
        JS.pop_segment "." name) /\
  derived_name "a.b.pdf" timestamp = "a_" +:+ timestamp +:+ ".pdf" /\
  derived_name "README" timestamp = "README_" +:+ timestamp +:+ ".README" /\
  (JS.has_char "." name = false ->
   derived_name name timestamp = name +:+ "_" +:+ timestamp +:+ "." +:+ name) /\
  (forall w file,
      File.name file = name ->
      passes_validation file = true ->
      exists more,
        calls (exec (handleFileUpload env (Some file)) w) =
          calls w ++
          Storage.CallUpload bucket
            (clientId env +:+ "/" +:+
             derived_name name
               (JS.replace_colon_dot (JS.toISOString (clock env (ticks w)))))
            file {| Storage.cacheControl := "3600"; Storage.upsert := false |}
          :: more).
Proof.
  split; [| split; [| split; [| split]]].
  - destruct (first_segment_spec "." name) as (rest & H1 & H2 & H3).
    destruct (pop_segment_spec "." name) as (pre & H4 & H5 & H6).
    exists rest, pre. repeat split; assumption.
  - reflexivity.
  - reflexivity.
  - intros H. unfold derived_name.
    now destruct (segments_no_sep "." name H) as [-> ->].
  - intros w file <- Hv. exact (upload_call_sent file w Hv).
Qed.

End ManagerFacts.

Lemma live_cons {B} (env : Env B) (i : Input) (inputs : list Input)
    (w : World B) :
  live env (i :: inputs) w =
  live (fst (react (env, w) i)) inputs (snd (react (env, w) i)).
Proof.
  unfold live. simpl. now destruct (react (env, w) i).
Qed.

(** C1, as the code has it, for operations that do not overlap (each
    input is handled to completion before the next): in every state the
    component displays, from the mounted one on and across changes of the
    [clientId] prop, the success message and the error message are both
    set only when the error reports a failed list operation; the messages
    of a rejected file, a failed upload and a failed deletion never stand
    next to a success message.  The list operation leaves the success
    message alone: it neither sets nor clears it. *)
Theorem C1_messages_over_lifetime {B} (env : Env B) (b : B)
    (inputs : list Input) :
  Forall messages_consistent (renders (snd (live env inputs (mount b)))) /\
  messages_consistent (ui (snd (live env inputs (mount b)))) /\
  (forall w, Component.success (ui (exec (loadFiles env) w))
             = Component.success (ui w)).
Proof.
  enough (H : forall (env0 : Env B) (w : World B),
             messages_consistent (ui w) ->
             Forall messages_consistent (renders w) ->
             Forall messages_consistent
               (renders (snd (live env0 inputs w))) /\
             messages_consistent (ui (snd (live env0 inputs w)))).
  { destruct (H env (mount b)) as [Hr Hu].
    - now apply consistent_no_error.
    - apply List.Forall_cons; [now apply consistent_no_error | constructor].
    - split; [exact Hr |]. split; [exact Hu |].
      intros w. apply load_messages. }
  induction inputs as [|i inputs IH]; intros env0 w Hu Hr; [now split |].
  rewrite live_cons. destruct i as [c | e]; simpl.
  - destruct (String.eqb c (clientId env0)); simpl; [now apply IH |].
    apply IH; [apply load_consistent | now apply load_renders].
  - apply IH; [now apply handle_consistent | now apply handle_renders].
Qed.


(* ===================================================================== *)
(** * The size format                                                     *)
(* ===================================================================== *)

(** The index computed for a positive byte count is the floor of its
    logarithm to base 1024. *)
Lemma floor_log_1024_spec (bytes : Z) :
  1 <= bytes ->
  exists i,
    Format.floor_log_1024 bytes = Some i /\
    0 <= i /\ 1024 ^ i <= bytes < 1024 ^ (i + 1).
Proof.
  intros Hb. unfold Format.floor_log_1024.
  destruct (Z.ltb_spec bytes 0) as [|_]; [lia |].
  exists (Z.log2 bytes / 10). split; [reflexivity |].
  pose proof (Z.log2_nonneg bytes) as H0.
  destruct (Z.log2_spec bytes ltac:(lia)) as [H1 H2].
  set (L := Z.log2 bytes) in *.
  assert (Hq : 0 <= L / 10) by (apply Z.div_pos; lia).
  assert (Hm : 10 * (L / 10) <= L < 10 * (L / 10) + 10).
  { pose proof (Z.mod_pos_bound L 10 ltac:(lia)).
    pose proof (Z.div_mod L 10 ltac:(lia)). lia. }
  split; [exact Hq |].
  change 1024 with (2 ^ 10). rewrite <- !Z.pow_mul_r by lia.
  split.
  - apply Z.le_trans with (2 ^ L); [| exact H1].
    apply Z.pow_le_mono_r; lia.
  - apply Z.lt_le_trans with (2 ^ Z.succ L); [exact H2 |].
    apply Z.pow_le_mono_r; lia.
Qed.

(** The two decimals of a number of hundredths, as [pad] and [dec] print
    them. *)
Lemma two_digits (f : Z) :
  0 <= f < 100 ->
  JS.pad 2 f =
    String (ascii_of_N (48 + Z.to_N (f / 10)))
      (String (ascii_of_N (48 + Z.to_N (f mod 10))) EmptyString) /\
  JS.dec (f / 10) = String (ascii_of_N (48 + Z.to_N (f / 10))) EmptyString.
Proof.
  intros Hf.
  assert (Hall : forallb
                   (fun k =>
                      let f := Z.of_nat k in
                      String.eqb (JS.pad 2 f)
                        (String (ascii_of_N (48 + Z.to_N (f / 10)))
                           (String (ascii_of_N (48 + Z.to_N (f mod 10)))
                              EmptyString)) &&
                      String.eqb (JS.dec (f / 10))
                        (String (ascii_of_N (48 + Z.to_N (f / 10)))
                           EmptyString))
                   (seq 0 100) = true)
    by (vm_compute; reflexivity).
  rewrite forallb_forall in Hall.
  specialize (Hall (Z.to_nat f)).
  rewrite Z2Nat.id in Hall by lia.
  cbv zeta in Hall.
  assert (Hin : In (Z.to_nat f) (seq 0 100)) by (apply in_seq; lia).
  apply Hall in Hin. apply andb_true_iff in Hin as [H1 H2].
  apply String.eqb_eq in H1, H2. now split.
Qed.

(** C8: a byte count from 1 up to (not including) 1024^4 is shown as its
    value in the unit [1024^i], [i] the floor of its logarithm to base
    1024, which is at most 3 and selects the [i]-th of Bytes, KB, MB, GB.
    The value is rounded to the nearest hundredth [n] (the larger one on a
    tie) and written in decimal without trailing zeros: the digits of
    [n / 100], then, unless both decimals are zero, a point and the first
    decimal, then the second decimal unless it is zero.  Zero is shown as
    [0 Bytes], 1024 as [1 KB], 1536 as [1.5 KB]. *)
Theorem C8_formatFileSize_units :
  Format.formatFileSize 0 = "0 Bytes" /\
  Format.formatFileSize 1024 = "1 KB" /\
  Format.formatFileSize 1536 = "1.5 KB" /\
  (forall bytes,
      1 <= bytes < 1024 ^ 4 ->
      exists i n unit,
        0 <= i <= 3 /\
        1024 ^ i <= bytes < 1024 ^ (i + 1) /\
        Format.sizes !! Z.to_nat i = Some unit /\
        n * (2 * 1024 ^ i) <= 200 * bytes + 1024 ^ i
          < (n + 1) * (2 * 1024 ^ i) /\
        Format.formatFileSize bytes =
          (NilZero.string_of_uint (N.to_uint (Z.to_N (n / 100))) +:+
           (if n mod 100 =? 0 then EmptyString
            else
              String "."
                (String (ascii_of_N (48 + Z.to_N (n mod 100 / 10)))
                   (if n mod 10 =? 0 then EmptyString
                    else String (ascii_of_N (48 + Z.to_N (n mod 10)))
                           EmptyString)))) +:+
          " " +:+ unit).
Proof.
  split; [vm_compute; reflexivity |].
  split; [vm_compute; reflexivity |].
  split; [vm_compute; reflexivity |].
  intros bytes [Hlo Hhi].
  destruct (floor_log_1024_spec bytes Hlo) as (i & Hi & Hi0 & Hi1 & Hi2).
  assert (Hi3 : i <= 3).
  { destruct (Z.le_gt_cases i 3) as [|Hgt]; [assumption | exfalso].
    assert (1024 ^ 4 <= 1024 ^ i) by (apply Z.pow_le_mono_r; lia). lia. }
  assert (Hpos : 0 < 1024 ^ i) by (apply Z.pow_pos_nonneg; lia).
  assert (Hunit : exists unit, Format.sizes !! Z.to_nat i = Some unit).
  { assert (Hc : i = 0 \/ i = 1 \/ i = 2 \/ i = 3) by lia.
    destruct Hc as [-> | [-> | [-> | ->]]]; simpl; eauto. }
  destruct Hunit as (unit & Hunit).
  set (n := (200 * bytes + 1024 ^ i) / (2 * 1024 ^ i)).
  assert (Hn : n * (2 * 1024 ^ i) <= 200 * bytes + 1024 ^ i
               < (n + 1) * (2 * 1024 ^ i)).
  { pose proof (Z.div_mod (200 * bytes + 1024 ^ i) (2 * 1024 ^ i)
                  ltac:(lia)) as E.
    pose proof (Z.mod_pos_bound (200 * bytes + 1024 ^ i) (2 * 1024 ^ i)
                  ltac:(lia)) as M.
    fold n in E. lia. }
  assert (Hn0 : 0 <= n) by (apply Z.div_pos; lia).
  exists i, n, unit.
  split; [lia |]. split; [lia |]. split; [exact Hunit |].
  split; [exact Hn |].
  unfold Format.formatFileSize.
  destruct (Z.eqb_spec bytes 0) as [|_]; [lia |].
  rewrite Hi, Hunit. cbv zeta. unfold Format.toFixed2. fold n.
  unfold JS.number_to_string, JS.element_to_string.
  destruct (Z.ltb_spec n 0) as [|_]; [lia |].
  rewrite Z.abs_eq by exact Hn0.
  assert (Hf : 0 <= n mod 100 < 100) by (apply Z.mod_pos_bound; lia).
  destruct (two_digits (n mod 100) Hf) as [Hpad Hdec].
  assert (Hmod : n mod 100 mod 10 = n mod 10).
  { pose proof (Z.div_mod n 100 ltac:(lia)) as E.
    rewrite E at 2. rewrite Z.add_comm.
    replace (100 * (n / 100)) with (10 * (n / 100) * 10) by ring.
    now rewrite Z.mod_add by lia. }
  rewrite Hmod in *.
  f_equal. cbn [String.append]. unfold JS.dec at 1. f_equal.
  destruct (Z.eqb_spec (n mod 100) 0) as [_|_]; [reflexivity |].
  destruct (Z.eqb_spec (n mod 10) 0) as [_|_].
  - rewrite Hdec. reflexivity.
  - rewrite Hpad. reflexivity.
Qed.

(** The in-memory bucket honours [upsert: false]. *)
Lemma memory_upload_refuses (bkt path : string) (file : File.t)
    (o : Storage.FileOptions) (s : Memory.t) :
  Storage.upsert o = false ->
  Scenario.held s bkt path = true ->
  exists e,
    Memory.upload bkt path file o s =
      (Storage.Resolved {| Storage.data := None; Storage.error := Some e |}, s).
Proof.
  unfold Scenario.held, Memory.upload. intros Ho Hh.
  destruct (Memory.insert_policy s); [| unfold Memory.denied; eauto].
  destruct (Memory.objects s !! path); [| discriminate].
  rewrite Ho. eauto.
Qed.

(** A bucket that takes the upload and refuses the listing: the re-list
    after the successful upload fails, and both messages are displayed. *)
Lemma C1_counterexample :
  let u := ui (run Scenario.confirming [Load; Upload (Some Scenario.report)]
                   (mount Scenario.write_only)) in
  Component.error u = Some "Failed to load files: permission denied" /\
  Component.success u =
    Some ("File " +:+ dquote +:+ "report.pdf" +:+ dquote
          +:+ " uploaded successfully!") /\
  ~ exclusive u.
Proof.
  assert (He : Component.error
                 (ui (run Scenario.confirming [Load; Upload (Some Scenario.report)]
                          (mount Scenario.write_only)))
               = Some "Failed to load files: permission denied")
    by (vm_compute; reflexivity).
  assert (Hs : Component.success
                 (ui (run Scenario.confirming [Load; Upload (Some Scenario.report)]
                          (mount Scenario.write_only)))
               = Some ("File " +:+ dquote +:+ "report.pdf" +:+ dquote
                       +:+ " uploaded successfully!"))
    by (vm_compute; reflexivity).
  cbv zeta. split; [exact He |]. split; [exact Hs |].
  unfold exclusive. rewrite He, Hs. intros [H | H]; discriminate H.
Qed.

Lemma C2_validation_witness :
  (Component.error (ui (exec (handleFileUpload Scenario.confirming
                                (Some Scenario.installer)) Scenario.after_upload))
   = Some "File type not supported. Please upload PDF, Word, Excel, text, or image files." /\
   calls (exec (handleFileUpload Scenario.confirming
                  (Some Scenario.installer)) Scenario.after_upload)
   = calls Scenario.after_upload) /\
  passes_validation Scenario.largest = true.
Proof.
  destruct (C2_validation Scenario.confirming Scenario.after_upload
              Scenario.installer) as [Hbad _].
  destruct (C2_validation Scenario.confirming Scenario.after_upload
              Scenario.largest) as [_ Hgood].
  split.
  - destruct Hbad as (Herr & _ & Hcalls & _).
    + left. simpl. intros H.
      repeat (destruct H as [H | H]; [discriminate H |]). exact H.
    + split; [| exact Hcalls].
      destruct Herr as [Herr | Herr]; [exact Herr |].
      vm_compute in Herr. discriminate Herr.
  - apply Hgood.
    + simpl. do 7 right. left. reflexivity.
    + reflexivity.
Defined.

Lemma C3_name_with_one_dot_witness :
  exists rest,
    calls Scenario.after_upload =
      Storage.CallUpload "application-forms"
        "c1/report_2025-01-01T00-00-00-000Z.pdf" Scenario.report
        {| Storage.cacheControl := "3600"; Storage.upsert := false |} :: rest.
Proof.
  destruct (C3_name_with_one_dot Scenario.confirming (mount Memory.empty)
              Scenario.report "report" "pdf"
              eq_refl eq_refl eq_refl eq_refl) as (_ & _ & rest & H).
  exists rest. exact H.
Defined.

(** [a.b.pdf] has base name [a.b] and extension [pdf], yet the object
    goes to [c1/a_<timestamp>.pdf]. *)
Lemma C3_counterexample :
  passes_validation Scenario.two_dots = true /\
  File.name Scenario.two_dots = "a.b" +:+ "." +:+ "pdf" /\
  JS.has_char "." "pdf" = false /\
  calls (exec (handleFileUpload Scenario.confirming (Some Scenario.two_dots))
              (mount Memory.empty)) =
    [ Storage.CallUpload "application-forms"
        "c1/a_2025-01-01T00-00-00-000Z.pdf" Scenario.two_dots
        {| Storage.cacheControl := "3600"; Storage.upsert := false |};
      Storage.CallList "application-forms" "c1"
        {| Storage.limit := 100; Storage.offset := 0 |};
      Storage.CallCreateSignedUrl "application-forms"
        "c1/a_2025-01-01T00-00-00-000Z.pdf" 3600 ] /\
  "c1/a_2025-01-01T00-00-00-000Z.pdf" <> "c1/a.b_2025-01-01T00-00-00-000Z.pdf" /\
  ~ (forall (w : World Memory.t) (file : File.t) (base ext : string),
        passes_validation file = true ->
        File.name file = base +:+ "." +:+ ext ->
        JS.has_char "." ext = false ->
        exists rest,
          calls (exec (handleFileUpload Scenario.confirming (Some file)) w) =
            calls w ++
            Storage.CallUpload bucket
              ("c1" +:+ "/" +:+ base +:+ "_" +:+
               upload_timestamp Scenario.confirming w +:+ "." +:+ ext)
              file upload_options :: rest).
Proof.
  split; [reflexivity |]. split; [reflexivity |]. split; [reflexivity |].
  split; [vm_compute; reflexivity |]. split; [discriminate |].
  intros H.
  destruct (H (mount Memory.empty) Scenario.two_dots "a.b" "pdf"
              eq_refl eq_refl eq_refl) as (rest & Heq).
  vm_compute in Heq. discriminate Heq.
Qed.

Lemma C4_failed_list_keeps_files_witness :
  (Component.error (ui (exec (loadFiles Scenario.confirming) Scenario.revoked))
   = Some "Failed to load files: permission denied" /\
   Component.files (ui (exec (loadFiles Scenario.confirming) Scenario.revoked))
   = Component.files (ui Scenario.revoked)) /\
  (Component.error (ui (exec (loadFiles (Offline.env "c1" 0 true)) (mount tt)))
   = Some "Failed to load application forms" /\
   Component.files (ui (exec (loadFiles (Offline.env "c1" 0 true)) (mount tt)))
   = []).
Proof.
  split.
  - destruct (C4_failed_list_keeps_files Scenario.confirming Scenario.revoked
                (BackendError {| Storage.message := "permission denied" |}))
      as (Herr & Hfiles & _).
    + simpl. do 2 eexists. split; reflexivity.
    + split; [exact Herr | exact Hfiles].
  - destruct (C4_failed_list_keeps_files (Offline.env "c1" 0 true) (mount tt)
                UnexpectedException) as (Herr & _ & Hinit).
    + reflexivity.
    + split; [exact Herr | exact (Hinit eq_refl)].
Defined.

Lemma C5_unconfirmed_delete_witness :
  exec (handleFileDelete Scenario.declining
          "c1/report_2025-01-01T00-00-00-000Z.pdf" "report.pdf")
       Scenario.after_upload
  = Scenario.after_upload.
Proof.
  destruct (C5_unconfirmed_delete Scenario.declining Scenario.after_upload
              "c1/report_2025-01-01T00-00-00-000Z.pdf" "report.pdf" eq_refl)
    as (H & _).
  unfold exec. rewrite H. reflexivity.
Defined.

Lemma C6_list_requests_witness :
  calls (exec (loadFiles Scenario.confirming) Scenario.after_upload) =
    calls Scenario.after_upload ++
    [ Storage.CallList "application-forms" "c1"
        {| Storage.limit := 100; Storage.offset := 0 |};
      Storage.CallCreateSignedUrl "application-forms"
        "c1/report_2025-01-01T00-00-00-000Z.pdf" 3600 ].
Proof.
  destruct (C6_list_requests Scenario.confirming Scenario.after_upload)
    as (_ & H).
  rewrite (H {| Storage.data :=
                  Some [ {| Storage.name := "report_2025-01-01T00-00-00-000Z.pdf";
                            Storage.metadata :=
                              Some {| Storage.size := Some 2097152 |};
                            Storage.created_at := Some "2025-01-01T00:00:00.100Z" |} ];
                Storage.error := None |}
             (store Scenario.after_upload) _
             ltac:(vm_compute; reflexivity) eq_refl eq_refl).
  reflexivity.
Defined.

Lemma C7_upload_without_overwrite_witness :
  Component.error (ui (exec (handleFileUpload Scenario.confirming
                               (Some Scenario.report)) Scenario.after_upload))
  = Some "Upload failed: The resource already exists" /\
  store (exec (handleFileUpload Scenario.confirming (Some Scenario.report))
              Scenario.after_upload)
  = store Scenario.after_upload.
Proof.
  destruct (C7_upload_without_overwrite Scenario.confirming Scenario.held
              Scenario.after_upload (Some Scenario.report)
              memory_upload_refuses) as (_ & _ & H).
  destruct (H Scenario.report eq_refl eq_refl ltac:(vm_compute; reflexivity))
    as ((e & He) & _ & Hstore & _).
  split; [| exact Hstore].
  vm_compute. reflexivity.
Defined.

Lemma C8_formatFileSize_units_witness :
  Format.formatFileSize 1075 = "1.05 KB".
Proof.
  destruct C8_formatFileSize_units as (_ & _ & _ & H).
  destruct (H 1075) as (i & n & unit & Hi & Hb & Hu & Hn & Ht).
  - split; [discriminate | reflexivity].
  - assert (Ei : i = 1).
    { assert (Hc : i = 0 \/ i = 1 \/ i = 2 \/ i = 3) by lia.
      destruct Hc as [-> | [-> | [-> | ->]]];
        [exfalso | reflexivity | exfalso | exfalso];
        vm_compute in Hb; destruct Hb as [H1 H2];
        solve [now apply H1 | discriminate H2]. }
    subst i. change (1024 ^ 1) with 1024 in Hn.
    assert (En : n = 105) by lia. subst n.
    injection Hu as <-. exact Ht.
Defined.

Lemma C9_base_and_extension_witness :
  derived_name "README" "T" = "README_T.README" /\
  exists more,
    calls (exec (handleFileUpload Scenario.confirming (Some Scenario.two_dots))
                (mount Memory.empty)) =
      Storage.CallUpload "application-forms"
        "c1/a_2025-01-01T00-00-00-000Z.pdf" Scenario.two_dots
        {| Storage.cacheControl := "3600"; Storage.upsert := false |} :: more.
Proof.
  destruct (C9_base_and_extension Scenario.confirming "README" "T")
    as (_ & _ & _ & Hnodot & _).
  destruct (C9_base_and_extension Scenario.confirming "a.b.pdf" "T")
    as (_ & _ & _ & _ & Hsent).
  split; [exact (Hnodot eq_refl) |].
  destruct (Hsent (mount Memory.empty) Scenario.two_dots eq_refl eq_refl)
    as (more & H).
  exists more. exact H.
Defined.

Lemma C10_every_entry_displayed_witness :
  map UploadedFile.url
    (Component.files
       (ui (exec (loadFiles (Cases.partial Scenario.new_year_2025)) (mount tt))))
  = [None; Some Cases.stored_url] /\
  Component.files
    (ui (exec (loadFiles (Cases.partial Scenario.new_year_2025)) (mount tt)))
  = [ {| UploadedFile.name := "notes.txt";
         UploadedFile.path := "c1/notes.txt";
         UploadedFile.size := 0;
         UploadedFile.uploadedAt := "2025-01-01T00:00:00.000Z";
         UploadedFile.url := None |};
      Cases.stored_file ].
Proof.
  destruct (C10_every_entry_displayed
              (Cases.partial Scenario.new_year_2025) (mount tt)
              {| Storage.data := Some [Scenario.bare; Cases.stored_entry];
                 Storage.error := None |}
              tt tt [Scenario.bare; Cases.stored_entry]
              [None; Some Cases.stored_url]
              eq_refl eq_refl eq_refl eq_refl) as (_ & Hurls & _).
  split; [exact Hurls |]. vm_compute. reflexivity.
Defined.

(* ===================================================================== *)
(** * More on the handlers                                                *)
(* ===================================================================== *)

(** Splits a [Forall] over an explicit list into its elements, using the
    hypotheses for the parts that are not explicit. *)
Ltac split_lists :=
  repeat match goal with
         | |- Forall _ [] => apply List.Forall_nil
         | |- Forall _ (_ :: _) => apply List.Forall_cons
         | |- Forall _ (_ ++ _) => apply Forall_app; split
         | H : Forall ?P ?l |- Forall ?P ?l => exact H
         end.

Section HandlerFacts.
Context {B : Type} (env : Env B).

(** What a list operation displays on the way and at its end. *)
Lemma loadFiles_shows (w : World B) :
  exists u b n cs rs,
    loadFiles env w =
      (Normal tt, Build_World u b n (calls w ++ list_call env :: cs)
                    (renders w ++ rs)) /\
    last rs = Some u /\
    (2 <= length rs)%nat /\
    Forall (fun v => Component.loading v = true) (removelast rs) /\
    Forall (fun v => Component.uploading v = Component.uploading (ui w) /\
                     Component.success v = Component.success (ui w) /\
                     (Component.files v = Component.files (ui w) \/
                      Component.files v = Component.files u)) rs /\
    Component.loading u = false /\
    (Component.files u = Component.files (ui w) \/
     exists l, Forall2 (displays env (ticks w) n) l (Component.files u)) /\
    (cs = [] \/ exists l, cs = map (sign_call env) l).
Proof.
  unfold loadFiles, loadFiles_try, list_call. run_prog.
  destruct (Storage.list _ _ _ _ _) as [[r|] b] eqn:Hl; simpl.
  - destruct (Storage.error r) as [e|] eqn:He; simpl.
    + do 5 eexists. split; [close_world |]. simpl.
      repeat split; auto; repeat (apply List.Forall_cons || apply List.Forall_nil);
        simpl; auto.
    + destruct (Storage.data r) as [l|] eqn:Hd; simpl.
      * match goal with
        | |- context [promise_all_map _ _ ?w1] =>
            destruct (listing_run env l w1) as (c & b' & n' & Heq & Hn & Hc)
        end.
        rewrite Heq. simpl in *.
        destruct c as [fs| |]; [| contradiction |]; simpl.
        -- do 5 eexists. split; [close_world |]. simpl.
           repeat split; eauto;
             repeat (apply List.Forall_cons || apply List.Forall_nil);
             simpl; auto.
        -- do 5 eexists. split; [close_world |]. simpl.
           repeat split; eauto;
             repeat (apply List.Forall_cons || apply List.Forall_nil);
             simpl; auto.
      * do 5 eexists. split; [close_world |]. simpl.
        repeat split; auto; repeat (apply List.Forall_cons || apply List.Forall_nil);
          simpl; auto.
  - do 5 eexists. split; [close_world |]. simpl.
    repeat split; auto; repeat (apply List.Forall_cons || apply List.Forall_nil);
      simpl; auto.
Qed.

Lemma last_Some_snoc {A} (rs : list A) (u : A) :
  last rs = Some u -> rs = removelast rs ++ [u].
Proof.
  intros H. apply last_Some in H as (l & ->).
  now rewrite List.removelast_last.
Qed.

(** Every handler ends normally, whatever the backend answers: rejected
    requests are caught inside. *)
Theorem handlers_never_throw :
  (forall (e : Event) (w : World B), fst (handle env e w) = Normal tt) /\
  (forall (url fileName : string) (w : World B),
      fst (handleFileDownload url fileName w) = Normal tt).
Proof.
  assert (Hd : forall (url fileName : string) (w : World B),
             fst (handleFileDownload url fileName w) = Normal tt).
  { intros url fileName w. unfold handleFileDownload. run_prog.
    now destruct (negb _). }
  split; [| exact Hd].
  intros e w. destruct e as [| [file|] | filePath fileName | shown]; simpl.
  - now rewrite loadFiles_normal.
  - destruct (passes_validation file) eqn:Hv.
    + rewrite (upload_accepted env file w Hv). simpl.
      destruct (Storage.upload _ _ _ _ _ _) as [[r|] b]; simpl; [| reflexivity].
      now destruct (Storage.error r).
    + now rewrite (upload_refused env file w Hv).
  - reflexivity.
  - destruct (confirm env ("Are you sure you want to delete " +:+ dquote
                           +:+ fileName +:+ dquote +:+ "?")) eqn:Hc.
    + rewrite (delete_confirmed env filePath fileName w Hc). simpl.
      destruct (Storage.remove _ _ _ _) as [[r|] b]; simpl; [| reflexivity].
      now destruct (Storage.error r).
    + now rewrite (delete_declined env filePath fileName w Hc).
  - destruct (JS.truthy_string (UploadedFile.url shown)); [apply Hd | reflexivity].
Qed.

Section Shown.
Variable formatDate : string -> string.

(** From its first setter to its last, a list operation shows the spinner
    instead of the rows, and touches neither the success message nor the
    [uploading] flag; its last state shows the list region again. *)
Theorem loadFiles_spinner_bracket (w : World B) :
  exists mid,
    renders (exec (loadFiles env) w) =
      renders w ++ mid ++ [ui (exec (loadFiles env) w)] /\
    mid <> [] /\
    Forall (fun v =>
              View.listing (render formatDate v) = View.Spinner /\
              Component.uploading v = Component.uploading (ui w) /\
              Component.success v = Component.success (ui w)) mid /\
    View.listing (render formatDate (ui (exec (loadFiles env) w)))
      <> View.Spinner /\
    Component.uploading (ui (exec (loadFiles env) w))
      = Component.uploading (ui w).
Proof.
  destruct (loadFiles_shows w)
    as (u & b & n & cs & rs & Heq & Hlast & Hlen & Hload & Hall & Hdone & _).
  unfold exec. rewrite Heq. simpl.
  pose proof (last_Some_snoc rs u Hlast) as Hrs.
  exists (removelast rs). split; [now rewrite <- Hrs |].
  rewrite Hrs in Hall. apply Forall_app in Hall as [Hmid Hu].
  apply List.Forall_cons_iff in Hu as [(Hup & _) _].
  split; [| split; [| split; [| exact Hup]]].
  - intros Hnil. rewrite Hnil in Hrs. rewrite Hrs in Hlen. simpl in Hlen. lia.
  - assert (Hboth : Forall (fun v =>
                       Component.loading v = true /\
                       (Component.uploading v = Component.uploading (ui w) /\
                        Component.success v = Component.success (ui w) /\
                        (Component.files v = Component.files (ui w) \/
                         Component.files v = Component.files u)))
                      (removelast rs))
      by (apply Forall_and; split; assumption).
    eapply List.Forall_impl; [| exact Hboth].
    intros v (Hl & Hv1 & Hv2 & _). unfold render; simpl. now rewrite Hl.
  - unfold render; simpl. rewrite Hdone. now destruct (_ =? _)%nat.
Qed.

End Shown.

(** A failed upload, whether the backend answers with an error or the
    request is rejected, sends the upload request and nothing after it (no
    re-list), displays the matching message without a success message, and
    leaves the displayed files as they were, with [uploading] reset. *)
Theorem failed_upload_stops (w : World B) (file : File.t) (message : string) :
  passes_validation file = true ->
  upload_fails env w file message ->
  calls (exec (handleFileUpload env (Some file)) w) =
    calls w ++
    [Storage.CallUpload bucket (upload_path env w (File.name file)) file
       upload_options] /\
  Component.error (ui (exec (handleFileUpload env (Some file)) w))
    = Some message /\
  Component.success (ui (exec (handleFileUpload env (Some file)) w)) = None /\
  Component.files (ui (exec (handleFileUpload env (Some file)) w))
    = Component.files (ui w) /\
  Component.uploading (ui (exec (handleFileUpload env (Some file)) w)) = false.
Proof.
  intros Hv Hf. unfold upload_fails in Hf. unfold exec.
  rewrite (upload_accepted env file w Hv). simpl.
  destruct (Storage.upload _ _ _ _ _ _) as [[r|] b]; simpl.
  - destruct Hf as (e & He & ->). rewrite He. simpl. repeat split.
  - subst message. repeat split.
Qed.

(** A successful upload sends the upload request, then the listing of the
    client's folder and its signature requests; the success message names
    the file and is still displayed after the re-list, whatever the re-list
    does; [uploading] and [loading] end up reset. *)
Theorem successful_upload_relists (w : World B) (file : File.t)
    (r : Storage.Response string) (b : B) :
  passes_validation file = true ->
  Storage.upload (backend env) bucket (upload_path env w (File.name file))
    file upload_options (store w) = (Storage.Resolved r, b) ->
  Storage.error r = None ->
  (exists signs,
      calls (exec (handleFileUpload env (Some file)) w) =
        calls w ++
        Storage.CallUpload bucket (upload_path env w (File.name file)) file
          upload_options :: list_call env :: signs /\
      Forall (fun c => exists e, c = sign_call env e) signs) /\
  Component.success (ui (exec (handleFileUpload env (Some file)) w))
    = Some ("File " +:+ dquote +:+ File.name file +:+ dquote
            +:+ " uploaded successfully!") /\
  Component.uploading (ui (exec (handleFileUpload env (Some file)) w)) = false /\
  Component.loading (ui (exec (handleFileUpload env (Some file)) w)) = false.
Proof.
  intros Hv Hu He. unfold exec.
  rewrite (upload_accepted env file w Hv). simpl. rewrite Hu, He. simpl.
  match goal with
  | |- context [exec (loadFiles env) ?w1] =>
      destruct (loadFiles_run env w1)
        as (u & b' & n & cs & rs & Heq & _ & Hload & Hsucc & _);
      destruct (loadFiles_calls env w1) as (signs & Hcalls & Hsigns)
  end.
  unfold exec in *. rewrite Heq in *. simpl in *.
  split; [| split; [exact Hsucc | split; [reflexivity | exact Hload]]].
  exists signs. split; [| exact Hsigns].
  rewrite Hcalls, <- app_assoc. reflexivity.
Qed.

(** A confirmed deletion that fails, by a backend error or a rejected
    request, sends one remove request for exactly the given path and no
    listing; the matching message is displayed without a success message
    and the displayed files stay as they were (the entry remains). *)
Theorem failed_delete_keeps_entry (w : World B) (filePath fileName : string)
    (message : string) :
  confirm env (delete_question fileName) = true ->
  remove_fails env w filePath message ->
  calls (exec (handleFileDelete env filePath fileName) w) =
    calls w ++ [Storage.CallRemove bucket [filePath]] /\
  Component.error (ui (exec (handleFileDelete env filePath fileName) w))
    = Some message /\
  Component.success (ui (exec (handleFileDelete env filePath fileName) w))
    = None /\
  Component.files (ui (exec (handleFileDelete env filePath fileName) w))
    = Component.files (ui w).
Proof.
  intros Hc Hf. unfold remove_fails in Hf. unfold exec.
  rewrite (delete_confirmed env filePath fileName w Hc). simpl.
  destruct (Storage.remove _ _ _ _) as [[r|] b]; simpl.
  - destruct Hf as (e & He & ->). rewrite He. simpl. repeat split.
  - subst message. repeat split.
Qed.

(** A confirmed deletion that succeeds sends the remove request for
    exactly the given path, then the listing of the client's folder and its
    signature requests; the success message names the file and is still
    displayed after the re-list. *)
Theorem successful_delete_relists (w : World B) (filePath fileName : string)
    (r : Storage.Response (list Storage.FileObject)) (b : B) :
  confirm env (delete_question fileName) = true ->
  Storage.remove (backend env) bucket [filePath] (store w)
    = (Storage.Resolved r, b) ->
  Storage.error r = None ->
  (exists signs,
      calls (exec (handleFileDelete env filePath fileName) w) =
        calls w ++
        Storage.CallRemove bucket [filePath] :: list_call env :: signs /\
      Forall (fun c => exists e, c = sign_call env e) signs) /\
  Component.success (ui (exec (handleFileDelete env filePath fileName) w))
    = Some ("File " +:+ dquote +:+ fileName +:+ dquote
            +:+ " deleted successfully!") /\
  Component.loading (ui (exec (handleFileDelete env filePath fileName) w))
    = false.
Proof.
  intros Hc Hr He. unfold exec.
  rewrite (delete_confirmed env filePath fileName w Hc). simpl.
  rewrite Hr, He. simpl.
  match goal with
  | |- context [exec (loadFiles env) ?w1] =>
      destruct (loadFiles_run env w1)
        as (u & b' & n & cs & rs & Heq & _ & Hload & Hsucc & _);
      destruct (loadFiles_calls env w1) as (signs & Hcalls & Hsigns)
  end.
  unfold exec in *. rewrite Heq in *. simpl in *.
  split; [| split; [exact Hsucc | exact Hload]].
  exists signs. split; [| exact Hsigns].
  rewrite Hcalls, <- app_assoc. reflexivity.
Qed.

Lemma displays_filed (lo hi : nat) (l : list Storage.FileObject)
    (fs : list UploadedFile.t) :
  Forall2 (displays env lo hi) l fs ->
  Forall (filed_under (clientId env)) fs.
Proof.
  induction 1 as [|e f l fs (Hn & Hp & _) _ IH]; constructor; [| exact IH].
  unfold filed_under. now rewrite Hp, Hn.
Qed.

Lemma filed_under_among (known : list string) (c : string)
    (fs : list UploadedFile.t) :
  In c known -> Forall (filed_under c) fs -> Forall (filed_among known) fs.
Proof.
  intros Hc. apply List.Forall_impl. intros f Hf. exists c. now split.
Qed.

(** The states displayed and the requests sent by a list operation, with
    [known] the clients the component has been rendered for. *)
Lemma loadFiles_footprint (known : list string) (w : World B) :
  In (clientId env) known ->
  Forall (filed_among known) (Component.files (ui w)) ->
  exists rs new,
    renders (exec (loadFiles env) w) = renders w ++ rs /\
    calls (exec (loadFiles env) w) = calls w ++ new /\
    Forall (fun v => Forall (filed_among known) (Component.files v)) rs /\
    Forall (filed_among known)
      (Component.files (ui (exec (loadFiles env) w))) /\
    Forall (in_client_folder (clientId env)) new.
Proof.
  intros Hk Hw.
  destruct (loadFiles_shows w)
    as (u & b & n & cs & rs & Heq & _ & _ & _ & Hall & _ & Hfiles & Hcs).
  unfold exec. rewrite Heq. simpl.
  assert (Hu : Forall (filed_among known) (Component.files u)).
  { destruct Hfiles as [-> | (l & Hl)]; [exact Hw |].
    apply (filed_under_among known (clientId env)); [exact Hk |].
    exact (displays_filed _ _ _ _ Hl). }
  exists rs, (list_call env :: cs). repeat split; try assumption.
  - eapply List.Forall_impl; [| exact Hall].
    intros v (_ & _ & [-> | ->]); assumption.
  - constructor; [now split |].
    destruct Hcs as [-> | (l & ->)]; [constructor |].
    clear Heq. induction l as [|e l IH]; simpl; [constructor |].
    constructor; [| exact IH].
    split; [reflexivity |]. unfold under. eauto.
Qed.

(** The same for any event; a deletion removes the path it is given. *)
Lemma handle_footprint (known : list string) (e : Event) (w : World B) :
  In (clientId env) known ->
  Forall (filed_among known) (Component.files (ui w)) ->
  exists rs new,
    renders (exec (handle env e) w) = renders w ++ rs /\
    calls (exec (handle env e) w) = calls w ++ new /\
    Forall (fun v => Forall (filed_among known) (Component.files v)) rs /\
    Forall (filed_among known)
      (Component.files (ui (exec (handle env e) w))) /\
    Forall (fun call =>
              in_client_folder (clientId env) call \/
              exists filePath fileName,
                e = Delete filePath fileName /\
                call = Storage.CallRemove bucket [filePath]) new.
Proof.
  intros Hk Hw.
  assert (Hnone : exists rs new,
             renders w = renders w ++ rs /\ calls w = calls w ++ new /\
             Forall (fun v => Forall (filed_among known)
                                (Component.files v)) rs /\
             Forall (filed_among known) (Component.files (ui w)) /\
             Forall (fun call =>
                       in_client_folder (clientId env) call \/
                       exists filePath fileName,
                         e = Delete filePath fileName /\
                         call = Storage.CallRemove bucket [filePath]) new).
  { exists [], []. rewrite !app_nil_r. repeat split; auto. }
  destruct e as [| [file|] | filePath fileName | shown]; simpl.
  - destruct (loadFiles_footprint known w Hk Hw)
      as (rs & new & H1 & H2 & H3 & H4 & H5).
    exists rs, new. repeat split; try assumption.
    eapply List.Forall_impl; [| exact H5]. intros; now left.
  - unfold exec. destruct (passes_validation file) eqn:Hv.
    + rewrite (upload_accepted env file w Hv). simpl.
      assert (Hup : in_client_folder (clientId env)
                      (Storage.CallUpload bucket
                         (upload_path env w (File.name file)) file
                         upload_options)).
      { split; [reflexivity |]. unfold under, upload_path. eauto. }
      destruct (Storage.upload _ _ _ _ _ _) as [[r|] b]; simpl.
      * destruct (Storage.error r); simpl.
        -- do 2 eexists. split; [reflexivity |]. split; [reflexivity |].
           split; [split_lists; exact Hw |].
           split; [exact Hw | split_lists; now left].
        -- match goal with
           | |- context [exec (loadFiles env) ?w1] =>
               destruct (loadFiles_footprint known w1 Hk Hw)
                 as (rs & new & H1 & H2 & H3 & H4 & H5)
           end.
           unfold exec in *. simpl in *. rewrite H1, H2.
           rewrite <- !app_assoc.
           do 2 eexists. split; [reflexivity |]. split; [reflexivity |].
           split; [split_lists; solve [exact Hw | exact H4] |].
           split; [exact H4 |].
           simpl. apply List.Forall_cons; [now left |].
           eapply List.Forall_impl; [| exact H5]. intros; now left.
      * do 2 eexists. split; [reflexivity |]. split; [reflexivity |].
        split; [split_lists; exact Hw |].
        split; [exact Hw | split_lists; now left].
    + rewrite (upload_refused env file w Hv). simpl.
      eexists _, [].
      split; [reflexivity |]. split; [now rewrite app_nil_r |].
      split; [split_lists; exact Hw |].
      split; [exact Hw | constructor].
  - exact Hnone.
  - unfold exec.
    destruct (confirm env ("Are you sure you want to delete " +:+ dquote
                           +:+ fileName +:+ dquote +:+ "?")) eqn:Hc.
    + rewrite (delete_confirmed env filePath fileName w Hc). simpl.
      destruct (Storage.remove _ _ _ _) as [[r|] b]; simpl.
      * destruct (Storage.error r); simpl.
        -- do 2 eexists. split; [reflexivity |]. split; [reflexivity |].
           split; [split_lists; exact Hw |].
           split; [exact Hw | split_lists; right; eauto].
        -- match goal with
           | |- context [exec (loadFiles env) ?w1] =>
               destruct (loadFiles_footprint known w1 Hk Hw)
                 as (rs & new & H1 & H2 & H3 & H4 & H5)
           end.
           unfold exec in *. simpl in *. rewrite H1, H2.
           rewrite <- !app_assoc.
           do 2 eexists. split; [reflexivity |]. split; [reflexivity |].
           split; [split_lists; exact Hw |].
           split; [exact H4 |].
           simpl. apply List.Forall_cons; [right; eauto |].
           eapply List.Forall_impl; [| exact H5]. intros; now left.
      * do 2 eexists. split; [reflexivity |]. split; [reflexivity |].
        split; [split_lists; exact Hw |].
        split; [exact Hw | split_lists; right; eauto].
    + rewrite (delete_declined env filePath fileName w Hc). exact Hnone.
  - destruct (JS.truthy_string (UploadedFile.url shown)) eqn:Hurl;
      [| exact Hnone].
    unfold exec. rewrite download_available; [exact Hnone | exact Hurl].
Qed.

Section Offered.
Variable formatDate : string -> string.

Lemma rows_of_listing (u : Component.t) (rows : list View.Row) :
  View.listing (render formatDate u) = View.Rows rows ->
  rows = map (render_row formatDate) (Component.files u).
Proof.
  unfold render; simpl.
  destruct (Component.loading u); [discriminate |].
  destruct (_ =? _)%nat; [discriminate |]. now intros [= <-].
Qed.

(** A download button is shown only for a file with a non-empty url, so
    the click behind any button of the view runs [handleFileDownload] past
    its guard: nothing in the component or the backend changes.  Called
    with an empty url, the handler displays [Download URL not available]
    and sends nothing. *)
Theorem download_buttons_pass_guard :
  (forall (u : Component.t) (rows : list View.Row) (row : View.Row)
          (url fileName : string) (w : World B),
      View.listing (render formatDate u) = View.Rows rows ->
      In row rows ->
      View.onDownload row = Some (url, fileName) ->
      url <> EmptyString /\
      (exists f, In f (Component.files u) /\
                 UploadedFile.url f = Some url /\
                 UploadedFile.name f = fileName) /\
      handleFileDownload url fileName w = (Normal tt, w)) /\
  (forall (fileName : string) (w : World B),
      Component.error (ui (exec (handleFileDownload EmptyString fileName) w))
        = Some "Download URL not available" /\
      Component.success (ui (exec (handleFileDownload EmptyString fileName) w))
        = Component.success (ui w) /\
      Component.files (ui (exec (handleFileDownload EmptyString fileName) w))
        = Component.files (ui w) /\
      calls (exec (handleFileDownload EmptyString fileName) w) = calls w /\
      store (exec (handleFileDownload EmptyString fileName) w) = store w).
Proof.
  split.
  - intros u rows row url fileName w Hrows Hin Hdown.
    apply rows_of_listing in Hrows. subst rows.
    apply in_map_iff in Hin as (f & <- & Hf). simpl in Hdown.
    destruct (JS.truthy_string (UploadedFile.url f)) eqn:Ht; [| discriminate].
    destruct (UploadedFile.url f) as [u0|] eqn:Hu; [| discriminate Ht].
    simpl in Hdown. injection Hdown as <- <-.
    split; [| split].
    + intros ->. discriminate Ht.
    + exists f. auto.
    + exact (download_available (Some u0) (UploadedFile.name f) w Ht).
  - intros fileName w. unfold exec, handleFileDownload. run_prog.
    repeat split.
Qed.

(** While an upload with a selected file runs, every displayed state has
    the file input disabled and the label [Uploading...]; the last state
    it displays has the input enabled again, whatever the outcome. *)
Theorem upload_disables_input (w : World B) (file : File.t) :
  exists mid,
    renders (exec (handleFileUpload env (Some file)) w) =
      renders w ++ mid ++ [ui (exec (handleFileUpload env (Some file)) w)] /\
    mid <> [] /\
    Forall (fun v =>
              View.input_disabled (render formatDate v) = true /\
              View.button_label (render formatDate v) = "Uploading...") mid /\
    View.input_disabled
      (render formatDate (ui (exec (handleFileUpload env (Some file)) w)))
      = false /\
    View.button_label
      (render formatDate (ui (exec (handleFileUpload env (Some file)) w)))
      = "Choose File".
Proof.
  unfold exec. destruct (passes_validation file) eqn:Hv.
  - rewrite (upload_accepted env file w Hv). simpl.
    destruct (Storage.upload _ _ _ _ _ _) as [[r|] b]; simpl.
    + destruct (Storage.error r); simpl.
      * eexists [_; _; _; _]. split; [reflexivity |]. split; [discriminate |].
        split; [| split; reflexivity]. repeat constructor.
      * match goal with
        | |- context [exec (loadFiles env) ?w1] =>
            destruct (loadFiles_shows w1)
              as (u & b' & n & cs & rs & Heq & _ & _ & _ & Hall & _)
        end.
        unfold exec. rewrite Heq. simpl in *.
        exists (upload_start (ui w) ++
                [with_messages true None
                   (Some ("File " +:+ dquote +:+ File.name file +:+ dquote
                          +:+ " uploaded successfully!")) (ui w)] ++ rs).
        split; [now rewrite <- !app_assoc |]. split; [discriminate |].
        split; [| split; reflexivity].
        apply Forall_app. split; [repeat constructor |].
        constructor; [now split |].
        eapply List.Forall_impl; [| exact Hall].
        intros v (Hup & _). unfold render; simpl. now rewrite Hup.
    + eexists [_; _; _; _]. split; [reflexivity |]. split; [discriminate |].
      split; [| split; reflexivity]. repeat constructor.
  - rewrite (upload_refused env file w Hv). simpl.
    eexists [_; _; _; _]. split; [reflexivity |]. split; [discriminate |].
    split; [| split; reflexivity]. repeat constructor.
Qed.

(** After a list operation whose listing succeeds and whose signature
    requests are each answered, be it with an error, the view shows no
    error box and, in place of the spinner, the notice [No files uploaded
    yet] for an empty listing and otherwise one row per returned entry, in
    order, under the entry's name, with the delete button bound to
    [clientId/<name>] and a download button exactly where the answer
    carried a non-empty url. *)
Theorem listing_shows_entries (w : World B)
    (r : Storage.Response (list Storage.FileObject)) (b1 b2 : B)
    (entries : list Storage.FileObject) (urls : list (option string)) :
  Storage.list (backend env) bucket (clientId env)
    {| Storage.limit := 100; Storage.offset := 0 |} (store w)
  = (Storage.Resolved r, b1) ->
  Storage.error r = None ->
  Storage.data r = Some entries ->
  signatures env entries b1 = Some (urls, b2) ->
  View.error_box (render formatDate (ui (exec (loadFiles env) w))) = None /\
  match entries with
  | [] => View.listing (render formatDate (ui (exec (loadFiles env) w)))
          = View.NoFiles
  | _ :: _ =>
      exists rows,
        View.listing (render formatDate (ui (exec (loadFiles env) w)))
          = View.Rows rows /\
        map View.name rows = map Storage.name entries /\
        map View.onDelete rows =
          map (fun e => (clientId env +:+ "/" +:+ Storage.name e,
                         Storage.name e)) entries /\
        Forall2 (fun row url =>
                   View.onDownload row =
                     match url with
                     | Some u => if String.eqb u EmptyString then None
                                 else Some (u, View.name row)
                     | None => None
                     end) rows urls
  end.
Proof.
  intros Hl He Hd Hsig.
  destruct (loadFiles_listed env w r b1 b2 entries urls Hl He Hd Hsig)
    as (u & n & rs & Heq & Herr & Hload & Hurls & Hall).
  unfold exec. rewrite Heq. simpl.
  split; [unfold render, message_box; simpl; now rewrite Herr |].
  unfold render; simpl. rewrite Hload.
  assert (Hnames : map View.name (map (render_row formatDate) (Component.files u))
                   = map Storage.name entries /\
                   map View.onDelete (map (render_row formatDate) (Component.files u))
                   = map (fun e => (clientId env +:+ "/" +:+ Storage.name e,
                                    Storage.name e)) entries).
  { clear - Hall. induction Hall as [|e f l fs (Hname & Hpath & _) _ [IH1 IH2]];
      [now split |].
    simpl. rewrite IH1, IH2, Hname, Hpath. now split. }
  assert (Hdown : Forall2 (fun row url =>
                   View.onDownload row =
                     match url with
                     | Some u => if String.eqb u EmptyString then None
                                 else Some (u, View.name row)
                     | None => None
                     end)
                    (map (render_row formatDate) (Component.files u)) urls).
  { rewrite <- Hurls. clear. induction (Component.files u) as [|f fs IH];
      simpl; constructor; [| exact IH].
    unfold render_row. cbn [View.onDownload View.name].
    destruct (UploadedFile.url f) as [x|]; simpl; [| reflexivity].
    now destruct (String.eqb x EmptyString). }
  pose proof (List.Forall2_length Hall) as Hlen.
  destruct entries as [|e entries].
  - destruct (Component.files u); [reflexivity | discriminate Hlen].
  - destruct (Component.files u) as [|f fs] eqn:Hfs; [discriminate Hlen |].
    simpl. eexists. split; [reflexivity |].
    destruct Hnames as [H1 H2]. split; [exact H1 |]. split; [exact H2 |].
    exact Hdown.
Qed.

End Offered.

End HandlerFacts.

(* ===================================================================== *)
(** * Across changes of the client                                        *)
(* ===================================================================== *)

(** What one input displays and sends, with [known] the clients the
    component has been rendered for up to and including this input. *)
Lemma react_footprint {B} (formatDate : string -> string) (env : Env B)
    (known : list string) (i : Input) (w : World B) :
  In (clientId env) known ->
  incl (props [i]) known ->
  Forall (filed_among known) (Component.files (ui w)) ->
  match i with
  | Fire e => offers formatDate (ui w) e
  | Rerender _ => True
  end ->
  In (clientId (fst (react (env, w) i))) known /\
  exists rs new,
    renders (snd (react (env, w) i)) = renders w ++ rs /\
    calls (snd (react (env, w) i)) = calls w ++ new /\
    Forall (fun v => Forall (filed_among known) (Component.files v)) rs /\
    Forall (filed_among known)
      (Component.files (ui (snd (react (env, w) i)))) /\
    Forall (in_folder_among known) new.
Proof.
  intros Hk Hp Hw Hoff.
  assert (Hnone : exists rs new,
             renders w = renders w ++ rs /\ calls w = calls w ++ new /\
             Forall (fun v => Forall (filed_among known)
                                (Component.files v)) rs /\
             Forall (filed_among known) (Component.files (ui w)) /\
             Forall (in_folder_among known) new).
  { exists [], []. rewrite !app_nil_r. repeat split; auto. }
  destruct i as [c | e]; simpl.
  - destruct (String.eqb c (clientId env)); simpl; [now split |].
    assert (Hc : In c known) by (apply Hp; now left).
    split; [exact Hc |].
    destruct (loadFiles_footprint (with_client c env) known w Hc Hw)
      as (rs & new & H1 & H2 & H3 & H4 & H5).
    exists rs, new. repeat split; try assumption.
    eapply List.Forall_impl; [| exact H5].
    intros call Hcall. exists c. now split.
  - split; [exact Hk |].
    destruct (handle_footprint env known e w Hk Hw)
      as (rs & new & H1 & H2 & H3 & H4 & H5).
    exists rs, new. repeat split; try assumption.
    eapply List.Forall_impl; [| exact H5].
    intros call [Hin | (filePath & fileName & -> & ->)].
    + exists (clientId env). now split.
    + destruct Hoff as (rows & r & Hrows & Hr & Hdel).
      apply rows_of_listing in Hrows. subst rows.
      apply in_map_iff in Hr as (f & <- & Hin). simpl in Hdel.
      injection Hdel as <- <-.
      rewrite List.Forall_forall in Hw.
      destruct (Hw f Hin) as (c & Hc & Hf).
      exists c. split; [exact Hc |].
      split; [reflexivity |]. constructor; [| constructor].
      unfold under. eauto.
Qed.

(** The same over a sequence of inputs. *)
Lemma live_footprint {B} (formatDate : string -> string)
    (known : list string) (inputs : list Input) :
  forall (env : Env B) (w : World B),
    In (clientId env) known ->
    incl (props inputs) known ->
    Forall (filed_among known) (Component.files (ui w)) ->
    Forall (fun v => Forall (filed_among known) (Component.files v))
      (renders w) ->
    (Forall (fun v => Forall (filed_among known) (Component.files v))
       (renders (snd (live env inputs w))) /\
     Forall (filed_among known)
       (Component.files (ui (snd (live env inputs w))))) /\
    (Forall (in_folder_among known) (calls w) ->
     attended formatDate env inputs w ->
     Forall (in_folder_among known) (calls (snd (live env inputs w)))).
Proof.
  induction inputs as [|i inputs IH]; intros env w Hk Hp Hw Hr;
    [split; [now split | auto] |].
  rewrite live_cons.
  assert (Hp1 : incl (props [i]) known).
  { intros c Hc. apply Hp. destruct i; simpl in *; [| destruct Hc].
    destruct Hc as [<- | []]. now left. }
  assert (Hp2 : incl (props inputs) known).
  { intros c Hc. apply Hp. destruct i; simpl; [now right | exact Hc]. }
  assert (Hstep : In (clientId (fst (react (env, w) i))) known /\
                  Forall (fun v => Forall (filed_among known)
                                     (Component.files v))
                    (renders (snd (react (env, w) i))) /\
                  Forall (filed_among known)
                    (Component.files (ui (snd (react (env, w) i))))).
  { destruct i as [c | e]; simpl.
    - destruct (String.eqb c (clientId env)); simpl; [auto |].
      assert (Hc : In c known) by (apply Hp1; now left).
      destruct (loadFiles_footprint (with_client c env) known w Hc Hw)
        as (rs & new & H1 & _ & H3 & H4 & _).
      split; [exact Hc |]. split; [| exact H4].
      rewrite H1. apply Forall_app. now split.
    - destruct (handle_footprint env known e w Hk Hw)
        as (rs & new & H1 & _ & H3 & H4 & _).
      split; [exact Hk |]. split; [| exact H4].
      rewrite H1. apply Forall_app. now split. }
  destruct Hstep as (Hk' & Hr' & Hw').
  destruct (IH _ _ Hk' Hp2 Hw' Hr') as [Hshown Hsent].
  split; [exact Hshown |].
  intros Hc [Hoff Hatt]. apply Hsent; [| exact Hatt].
  destruct (react_footprint formatDate env known i w Hk Hp1 Hw Hoff)
    as (_ & rs & new & _ & H2 & _ & _ & H5).
  rewrite H2. apply Forall_app. now split.
Qed.

(** With inputs handled one after the other, every state the component
    displays lists each file under its name inside the folder of a client
    the component has been rendered for, [path = client/name]: the current
    client or, for files kept from before a change of the [clientId] prop,
    an earlier one.  When the prop never changes, that is the folder of
    [clientId]. *)
Theorem displayed_files_filed {B} (env : Env B) (b : B)
    (inputs : list Input) :
  Forall (fun v => Forall (filed_among (clientId env :: props inputs))
                     (Component.files v))
    (renders (snd (live env inputs (mount b)))) /\
  (Forall (eq (clientId env)) (props inputs) ->
   Forall (fun v => Forall (filed_under (clientId env)) (Component.files v))
     (renders (snd (live env inputs (mount b))))).
Proof.
  destruct (live_footprint (fun x => x) (clientId env :: props inputs) inputs
              env (mount b)) as [[Hshown _] _].
  - now left.
  - intros c Hc. now right.
  - constructor.
  - repeat constructor.
  - split; [exact Hshown |].
    intros Hsame. eapply List.Forall_impl; [| exact Hshown].
    intros v Hv. eapply List.Forall_impl; [| exact Hv].
    intros f (c & [<- | Hc] & Hf); [exact Hf |].
    rewrite List.Forall_forall in Hsame. now rewrite (Hsame c Hc).
Qed.

(** With inputs handled one after the other and every event coming from
    what the view offers (the delete buttons of the displayed rows in
    particular), every request the component ever sends addresses the
    bucket [application-forms] and stays inside the folder of a client it
    has been rendered for: the listed folder is that client, and every
    signed, uploaded or removed path is [client/<name>]. *)
Theorem requests_stay_in_client_folder {B} (formatDate : string -> string)
    (env : Env B) (b : B) (inputs : list Input) :
  attended formatDate env inputs (mount b) ->
  Forall (in_folder_among (clientId env :: props inputs))
    (calls (snd (live env inputs (mount b)))).
Proof.
  intros Hatt.
  destruct (live_footprint formatDate (clientId env :: props inputs) inputs
              env (mount b)) as [_ Hsent].
  - now left.
  - intros c Hc. now right.
  - constructor.
  - repeat constructor.
  - apply Hsent; [constructor | exact Hatt].
Qed.

(* ===================================================================== *)
(** * More on object names                                                *)
(* ===================================================================== *)

(** Membership in an explicit list of characters. *)
Ltac in_list := cbn [In]; repeat (first [left; reflexivity | right]).

(** The characters an ISO timestamp is made of. *)
Lemma uint_chars (c : ascii) (u : Decimal.uint) :
  (forall a, In a ["0"; "1"; "2"; "3"; "4"; "5"; "6"; "7"; "8"; "9"]%char ->
             Ascii.eqb a c = false) ->
  JS.has_char c (NilEmpty.string_of_uint u) = false.
Proof.
  intros H. induction u; cbn [NilEmpty.string_of_uint JS.has_char];
    [reflexivity | ..]; rewrite IHu, orb_false_r; apply H; in_list.
Qed.

Lemma dec_chars (c : ascii) (n : Z) :
  (forall a, In a ["0"; "1"; "2"; "3"; "4"; "5"; "6"; "7"; "8"; "9"]%char ->
             Ascii.eqb a c = false) ->
  JS.has_char c (JS.dec n) = false.
Proof.
  intros H. unfold JS.dec, NilZero.string_of_uint.
  pose proof (uint_chars c (N.to_uint (Z.to_N n)) H) as Hu.
  destruct (N.to_uint (Z.to_N n)); try exact Hu.
  cbn [JS.has_char]. rewrite orb_false_r. apply H. in_list.
Qed.

Lemma zeros_chars (c : ascii) (k : nat) :
  Ascii.eqb "0" c = false -> JS.has_char c (JS.zeros k) = false.
Proof.
  intros H. induction k; cbn [JS.zeros JS.has_char];
    [reflexivity | now rewrite H, IHk].
Qed.

Lemma pad_chars (c : ascii) (w : nat) (n : Z) :
  (forall a, In a ["0"; "1"; "2"; "3"; "4"; "5"; "6"; "7"; "8"; "9"]%char ->
             Ascii.eqb a c = false) ->
  JS.has_char c (JS.pad w n) = false.
Proof.
  intros H. unfold JS.pad. rewrite has_char_app, (dec_chars c n H).
  rewrite zeros_chars; [reflexivity | apply H; in_list].
Qed.

Lemma has_char_one (c a : ascii) (s : string) :
  JS.has_char c (String a EmptyString +:+ s)
  = Ascii.eqb a c || JS.has_char c s.
Proof. reflexivity. Qed.

(** An ISO timestamp consists of digits and of [-], [+], [T], [:], [.]
    and [Z]. *)
Lemma toISOString_chars (c : ascii) (ms : Z) :
  (forall a, In a ["0"; "1"; "2"; "3"; "4"; "5"; "6"; "7"; "8"; "9";
                   "-"; "+"; "T"; ":"; "."; "Z"]%char ->
             Ascii.eqb a c = false) ->
  JS.has_char c (JS.toISOString ms) = false.
Proof.
  intros H.
  assert (Hd : forall a, In a ["0"; "1"; "2"; "3"; "4"; "5"; "6"; "7"; "8"; "9"]%char ->
                         Ascii.eqb a c = false).
  { intros a Ha. apply H. cbn [In] in *. tauto. }
  assert (Hy : forall y, JS.has_char c (JS.iso_year y) = false).
  { intros y. unfold JS.iso_year.
    destruct (_ && _); [now apply pad_chars |].
    destruct (y <? 0); rewrite has_char_one, pad_chars by exact Hd;
      rewrite orb_false_r; apply H; in_list. }
  unfold JS.toISOString.
  destruct (JS.civil_from_days _) as [[y m] d].
  repeat (rewrite has_char_app || rewrite has_char_one).
  rewrite Hy, !pad_chars by exact Hd.
  cbn [JS.has_char].
  rewrite (H "-"%char), (H "T"%char), (H ":"%char), (H "."%char),
    (H "Z"%char) by in_list.
  reflexivity.
Qed.

Lemma replace_colon_dot_chars (c : ascii) (s : string) :
  Ascii.eqb "-" c = false ->
  JS.has_char c s = false ->
  JS.has_char c (JS.replace_colon_dot s) = false.
Proof.
  intros Hc. induction s as [|a r IH];
    cbn [JS.replace_colon_dot JS.has_char]; [reflexivity |].
  intros H. apply orb_false_iff in H as [Ha Hr]. rewrite (IH Hr).
  destruct (Ascii.eqb a ":" || Ascii.eqb a "."); now rewrite ?Hc, ?Ha.
Qed.

Lemma length_append (a b : string) :
  String.length (a +:+ b) = (String.length a + String.length b)%nat.
Proof. induction a as [|x a IH]; simpl; [reflexivity | now rewrite IH]. Qed.

Lemma append_cancel_r (x y s : string) : x +:+ s = y +:+ s -> x = y.
Proof.
  revert y. induction x as [|a x IH]; intros [|b y] H; simpl in H.
  - reflexivity.
  - apply (f_equal String.length) in H. simpl in H.
    rewrite length_append in H. lia.
  - apply (f_equal String.length) in H. simpl in H.
    rewrite length_append in H. lia.
  - injection H as -> H. now rewrite (IH y H).
Qed.

(** A string cut at its last separator: the two parts are determined. *)
Lemma cut_at_last (sep : ascii) (a b x y : string) :
  JS.has_char sep x = false ->
  JS.has_char sep y = false ->
  a +:+ String sep x = b +:+ String sep y ->
  a = b /\ x = y.
Proof.
  intros Hx Hy H.
  assert (E : x = y).
  { pose proof (segments_stem_ext sep a x Hx) as [_ H1].
    pose proof (segments_stem_ext sep b y Hy) as [_ H2].
    rewrite H in H1. congruence. }
  subst y. split; [| reflexivity]. exact (append_cancel_r _ _ _ H).
Qed.

Section ObjectNames.
Context {B : Type} (env : Env B).

Lemma upload_timestamp_chars (w : World B) (c : ascii) :
  (forall a, In a ["0"; "1"; "2"; "3"; "4"; "5"; "6"; "7"; "8"; "9";
                   "-"; "+"; "T"; ":"; "."; "Z"]%char ->
             Ascii.eqb a c = false) ->
  JS.has_char c (upload_timestamp env w) = false.
Proof.
  intros H. unfold upload_timestamp.
  apply replace_colon_dot_chars; [apply H; in_list |].
  now apply toISOString_chars.
Qed.

(** Two uploads get the same object name exactly when their file names
    agree before the first dot and after the last dot and their timestamps
    are the same: the timestamp alone makes names of one file distinct,
    and nothing between the first and the last dot of the file name
    counts. *)
Theorem object_names_coincide_iff (w1 w2 : World B) (name1 name2 : string) :
  derived_name name1 (upload_timestamp env w1)
    = derived_name name2 (upload_timestamp env w2)
  <->
  JS.first_segment "." name1 = JS.first_segment "." name2 /\
  upload_timestamp env w1 = upload_timestamp env w2 /\
  JS.pop_segment "." name1 = JS.pop_segment "." name2.
Proof.
  unfold derived_name. split.
  - intros H.
    destruct (pop_segment_spec "." name1) as (_ & _ & Hp1 & _).
    destruct (pop_segment_spec "." name2) as (_ & _ & Hp2 & _).
    assert (Hdot1 : JS.has_char "." (upload_timestamp env w1) = false)
      by (destruct (replace_colon_dot_clean
                      (JS.toISOString (clock env (ticks w1)))) as [_ E]; exact E).
    assert (Hdot2 : JS.has_char "." (upload_timestamp env w2) = false)
      by (destruct (replace_colon_dot_clean
                      (JS.toISOString (clock env (ticks w2)))) as [_ E]; exact E).
    assert (Hus1 : JS.has_char "_" (upload_timestamp env w1) = false)
      by (apply upload_timestamp_chars; intros a Ha; cbn [In] in Ha;
          repeat (destruct Ha as [<- | Ha]; [reflexivity |]); destruct Ha).
    assert (Hus2 : JS.has_char "_" (upload_timestamp env w2) = false)
      by (apply upload_timestamp_chars; intros a Ha; cbn [In] in Ha;
          repeat (destruct Ha as [<- | Ha]; [reflexivity |]); destruct Ha).
    assert (Hcut : JS.first_segment "." name1 +:+ String "_" (upload_timestamp env w1)
                   = JS.first_segment "." name2 +:+ String "_" (upload_timestamp env w2)
                   /\ JS.pop_segment "." name1 = JS.pop_segment "." name2).
    { apply (cut_at_last "."); try assumption.
      rewrite !append_assoc. exact H. }
    destruct Hcut as [Hstem Hext].
    destruct (cut_at_last "_" _ _ _ _ Hus1 Hus2 Hstem) as [Hfirst Hts].
    auto.
  - intros (-> & -> & ->). reflexivity.
Qed.

(** A file name without a slash gives an object directly inside the
    client's folder: the derived name has no slash either, and it always
    has the form [stem.ext] with exactly one dot, the extension being that
    of the file name. *)
Theorem object_name_shape (w : World B) (name : string) :
  (JS.has_char "/" name = false ->
   JS.has_char "/" (derived_name name (upload_timestamp env w)) = false) /\
  JS.first_segment "." (derived_name name (upload_timestamp env w))
    = JS.first_segment "." name +:+ "_" +:+ upload_timestamp env w /\
  JS.pop_segment "." (derived_name name (upload_timestamp env w))
    = JS.pop_segment "." name /\
  JS.split "." (derived_name name (upload_timestamp env w))
    = [ JS.first_segment "." name +:+ "_" +:+ upload_timestamp env w;
        JS.pop_segment "." name ].
Proof.
  destruct (first_segment_spec "." name) as (rest & Hn1 & Hf & _).
  destruct (pop_segment_spec "." name) as (pre & Hn2 & Hp & _).
  assert (Hdot : JS.has_char "." (upload_timestamp env w) = false)
    by (destruct (replace_colon_dot_clean
                    (JS.toISOString (clock env (ticks w)))) as [_ E]; exact E).
  assert (Hstem : JS.has_char "."
                    (JS.first_segment "." name +:+ "_" +:+ upload_timestamp env w)
                  = false).
  { rewrite !has_char_app, Hf, Hdot. reflexivity. }
  assert (Hsplit : JS.split_segments "."
                     (derived_name name (upload_timestamp env w))
                   = (JS.first_segment "." name +:+ "_" +:+ upload_timestamp env w,
                      [JS.pop_segment "." name])).
  { unfold derived_name.
    change (?a +:+ "_" +:+ ?t +:+ "." +:+ ?e)
      with (a +:+ (String "_" EmptyString +:+ (t +:+ String "." e))).
    rewrite <- !append_assoc.
    rewrite split_segments_app.
    rewrite (split_segments_no_sep "." (JS.pop_segment "." name) Hp).
    rewrite append_assoc.
    change (String "_" EmptyString +:+ ?t) with ("_" +:+ t).
    rewrite (split_segments_no_sep "." _ Hstem). reflexivity. }
  split; [| split; [| split]].
  - intros Hslash.
    assert (Hfs : JS.has_char "/" (JS.first_segment "." name) = false).
    { rewrite Hn1, has_char_app in Hslash. now apply orb_false_iff in Hslash. }
    assert (Hps : JS.has_char "/" (JS.pop_segment "." name) = false).
    { rewrite Hn2, has_char_app in Hslash. now apply orb_false_iff in Hslash. }
    assert (Hts : JS.has_char "/" (upload_timestamp env w) = false)
      by (apply upload_timestamp_chars; intros a Ha; cbn [In] in Ha;
          repeat (destruct Ha as [<- | Ha]; [reflexivity |]); destruct Ha).
    unfold derived_name. rewrite !has_char_app, Hfs, Hps, Hts. reflexivity.
  - unfold JS.first_segment. now rewrite Hsplit.
  - unfold JS.pop_segment. now rewrite Hsplit.
  - unfold JS.split. now rewrite Hsplit.
Qed.

End ObjectNames.

(* ===================================================================== *)
(** * More on the size format                                             *)
(* ===================================================================== *)

Lemma number_to_string_whole (k : Z) :
  0 <= k -> JS.number_to_string (JS.Hundredths (100 * k)) = JS.dec k.
Proof.
  intros Hk. unfold JS.number_to_string.
  destruct (Z.ltb_spec (100 * k) 0) as [|_]; [lia |].
  rewrite Z.abs_eq by lia.
  replace (100 * k) with (k * 100) by lia.
  rewrite Z.mod_mul, Z.div_mul by lia.
  simpl. apply append_empty_r.
Qed.

(** The index of a byte count between two consecutive powers of 1024. *)
Lemma floor_log_1024_between (bytes i : Z) :
  0 <= i -> 1024 ^ i <= bytes < 1024 ^ (i + 1) ->
  Format.floor_log_1024 bytes = Some i.
Proof.
  intros Hi [Hlo Hhi].
  assert (Hpos : 0 < 1024 ^ i) by (apply Z.pow_pos_nonneg; lia).
  destruct (floor_log_1024_spec bytes ltac:(lia)) as (j & Hj & Hj0 & Hj1 & Hj2).
  rewrite Hj. f_equal.
  destruct (Z.lt_trichotomy j i) as [Hlt | [-> | Hgt]]; [exfalso | reflexivity | exfalso].
  - assert (1024 ^ (j + 1) <= 1024 ^ i) by (apply Z.pow_le_mono_r; lia). lia.
  - assert (1024 ^ (i + 1) <= 1024 ^ j) by (apply Z.pow_le_mono_r; lia). lia.
Qed.

(** A whole number of units is shown as that number, without decimals:
    [k * 1024^i] bytes with [1 <= k < 1024] is shown as [k] followed by the
    [i]-th unit (so a count below 1024 is shown as itself in Bytes). *)
Theorem formatFileSize_whole_units (k i : Z) (unit : string) :
  1 <= k < 1024 ->
  0 <= i ->
  Format.sizes !! Z.to_nat i = Some unit ->
  Format.formatFileSize (k * 1024 ^ i) = JS.dec k +:+ " " +:+ unit.
Proof.
  intros Hk Hi Hunit.
  assert (Hpos : 0 < 1024 ^ i) by (apply Z.pow_pos_nonneg; lia).
  assert (Hlog : Format.floor_log_1024 (k * 1024 ^ i) = Some i).
  { apply floor_log_1024_between; [exact Hi |].
    rewrite Z.pow_add_r by lia. change (1024 ^ 1) with 1024. nia. }
  unfold Format.formatFileSize.
  destruct (Z.eqb_spec (k * 1024 ^ i) 0) as [E|_]; [nia |].
  rewrite Hlog, Hunit. cbv zeta. unfold Format.toFixed2.
  replace ((200 * (k * 1024 ^ i) + 1024 ^ i) / (2 * 1024 ^ i)) with (100 * k).
  - rewrite number_to_string_whole by lia. reflexivity.
  - apply Z.div_unique with (r := 1024 ^ i); [left; lia | ring].
Qed.

(** Rounding does not carry into the next unit: a byte count less than
    half a hundredth of a unit below the next power of 1024 is shown as
    [1024] of the smaller unit. *)
Theorem formatFileSize_rounds_up_to_1024 (bytes i : Z) (unit : string) :
  1 <= i ->
  Format.sizes !! Z.to_nat i = Some unit ->
  200 * 1024 ^ (i + 1) - 1024 ^ i <= 200 * bytes ->
  bytes < 1024 ^ (i + 1) ->
  Format.formatFileSize bytes = "1024 " +:+ unit.
Proof.
  intros Hi Hunit Hlo Hhi.
  assert (Hpos : 0 < 1024 ^ i) by (apply Z.pow_pos_nonneg; lia).
  assert (Hnext : 1024 ^ (i + 1) = 1024 * 1024 ^ i).
  { rewrite Z.pow_add_r by lia. change (1024 ^ 1) with 1024. ring. }
  assert (Hlog : Format.floor_log_1024 bytes = Some i).
  { apply floor_log_1024_between; lia. }
  unfold Format.formatFileSize.
  destruct (Z.eqb_spec bytes 0) as [E|_]; [lia |].
  rewrite Hlog, Hunit. cbv zeta. unfold Format.toFixed2.
  replace ((200 * bytes + 1024 ^ i) / (2 * 1024 ^ i)) with 102400.
  - reflexivity.
  - apply Z.div_unique with (r := 200 * bytes + 1024 ^ i - 204800 * 1024 ^ i);
      [left; lia | ring].
Qed.

(* ===================================================================== *)
(** * The storage migrations                                              *)
(* ===================================================================== *)

Lemma sql_run_app (m1 m2 : list Sql.Statement) (c : Sql.Catalog) :
  Sql.run (m1 ++ m2) c =
  match Sql.run m1 c with
  | Some c' => Sql.run m2 c'
  | None => None
  end.
Proof.
  revert c. induction m1 as [|st m1 IH]; intros c; simpl; [reflexivity |].
  destruct (Sql.step st c); [apply IH | reflexivity].
Qed.

Lemma sql_step_policies (st : Sql.Statement) (c c' : Sql.Catalog) (n : string) :
  Sql.step st c = Some c' ->
  Sql.policies c' !! n =
  match Sql.touches st n with
  | Some o => o
  | None => Sql.policies c !! n
  end.
Proof.
  destruct st as [id nm pub lim tys | k | k cmd e]; simpl.
  - destruct (Sql.buckets c !! id); [now intros [= <-] |].
    destruct (decide _); [discriminate | now intros [= <-]].
  - intros [= <-]. simpl. destruct (String.eqb_spec k n) as [-> | Hne].
    + apply lookup_delete_eq.
    + now apply lookup_delete_ne.
  - destruct (Sql.policies c !! k) eqn:Hk; [discriminate |].
    intros [= <-]. simpl. destruct (String.eqb_spec k n) as [-> | Hne].
    + apply lookup_insert_eq.
    + now apply lookup_insert_ne.
Qed.

(** After a migration, the policy of a name is what the last statement on
    that name made of it, and the old one if there is no such statement. *)
Lemma sql_run_policies (m : list Sql.Statement) (c c' : Sql.Catalog)
    (n : string) :
  Sql.run m c = Some c' ->
  Sql.policies c' !! n =
  match Sql.effect m n with
  | Some o => o
  | None => Sql.policies c !! n
  end.
Proof.
  revert c. induction m as [|st m IH]; intros c; simpl.
  - now intros [= <-].
  - destruct (Sql.step st c) as [c1|] eqn:Hs; [| discriminate].
    intros Hr. rewrite (IH c1 Hr).
    destruct (Sql.effect m n); [reflexivity |].
    exact (sql_step_policies st c c1 n Hs).
Qed.

(** Statements on the policies succeed when every policy is created under
    a name that is free at that point. *)
Lemma sql_run_recreates (m : list Sql.Statement) :
  Forall Sql.on_policies m ->
  forall (dropped : list string) (c : Sql.Catalog),
    Sql.recreates dropped m = true ->
    (forall k, In k dropped -> Sql.policies c !! k = None) ->
    exists c', Sql.run m c = Some c'.
Proof.
  induction 1 as [|st m Hst _ IH]; intros dropped c Hre Hd; simpl; [eauto |].
  destruct st as [id nm pub lim tys | k | k cmd e]; simpl in *.
  - destruct Hst.
  - apply (IH (k :: dropped)); [exact Hre |].
    simpl. intros k' [<- | Hin]; [apply lookup_delete_eq |].
    destruct (decide (k = k')) as [<- | Hne]; [apply lookup_delete_eq |].
    rewrite lookup_delete_ne by exact Hne. now apply Hd.
  - apply andb_true_iff in Hre as [Hin Hre].
    apply existsb_exists in Hin as (k' & Hin & Heq).
    apply String.eqb_eq in Heq. subst k'.
    rewrite (Hd k Hin).
    apply (IH _ _ Hre). simpl.
    intros k' Hk'. apply filter_In in Hk' as [Hk' Hne].
    apply negb_true_iff, String.eqb_neq in Hne.
    rewrite lookup_insert_ne by exact Hne. now apply Hd.
Qed.

Lemma sql_create_in_use (m1 m2 : list Sql.Statement) (k : string)
    (cmd : Sql.Command) (e : string -> Sql.Session -> bool) (c : Sql.Catalog) :
  Sql.effect m1 k = None ->
  is_Some (Sql.policies c !! k) ->
  Sql.run (m1 ++ Sql.CreatePolicy k cmd e :: m2) c = None.
Proof.
  intros He [p Hp]. rewrite sql_run_app.
  destruct (Sql.run m1 c) as [c1|] eqn:Hr; [| reflexivity].
  pose proof (sql_run_policies m1 c c1 k Hr) as Hk. rewrite He, Hp in Hk.
  simpl. now rewrite Hk.
Qed.

Lemma sql_effect_created (m : list Sql.Statement) (n : string) (p : Sql.Policy) :
  Sql.effect m n = Some (Some p) ->
  In (Sql.CreatePolicy n (Sql.command p) (Sql.expr p)) m.
Proof.
  induction m as [|st m IH]; simpl; [discriminate |].
  destruct (Sql.effect m n) as [o|].
  - intros [= ->]. right. now apply IH.
  - intros Ht. left.
    destruct st as [id nm pub lim tys | k | k cmd e]; simpl in Ht;
      try discriminate.
    + now destruct (String.eqb k n).
    + destruct (String.eqb_spec k n) as [-> |]; [| discriminate].
      now injection Ht as <-.
Qed.

Lemma sql_effect_dropped (m : list Sql.Statement) (n : string) :
  In n (Sql.dropped_names m) -> Sql.effect m n <> None.
Proof.
  induction m as [|st m IH]; simpl; [tauto |].
  intros Hin. destruct (Sql.effect m n) eqn:He; [discriminate |].
  destruct st as [id nm pub lim tys | k | k cmd e]; simpl in *;
    try (exfalso; now apply IH).
  destruct Hin as [-> | Hin]; [| exfalso; now apply IH].
  now rewrite String.eqb_refl.
Qed.

Lemma sql_run_keeps_buckets (m : list Sql.Statement) (c c' : Sql.Catalog) :
  Forall Sql.on_policies m ->
  Sql.run m c = Some c' -> Sql.buckets c' = Sql.buckets c.
Proof.
  intros Hm. revert c. induction Hm as [|st m Hst _ IH]; intros c; simpl.
  - now intros [= <-].
  - destruct (Sql.step st c) as [c1|] eqn:Hs; [| discriminate].
    intros Hr. rewrite (IH c1 Hr).
    destruct st as [id nm pub lim tys | k | k cmd e]; simpl in *.
    + destruct Hst.
    + now injection Hs as <-.
    + destruct (Sql.policies c !! k); [discriminate |]. now injection Hs as <-.
Qed.

(** The row an upsert leaves for its bucket. *)
Lemma sql_upsert_lookup (id nm : string) (pub : bool) (lim : Z)
    (tys : list string) (c c' : Sql.Catalog) (k : string) :
  Sql.step (Sql.UpsertBucket id nm pub lim tys) c = Some c' ->
  Sql.policies c' = Sql.policies c /\
  Sql.buckets c' !! k =
    if decide (id = k)
    then Some {| Sql.name := match Sql.buckets c !! id with
                             | Some old => Sql.name old
                             | None => nm
                             end;
                 Sql.public := match Sql.buckets c !! id with
                               | Some old => Sql.public old
                               | None => pub
                               end;
                 Sql.file_size_limit := Some lim;
                 Sql.allowed_mime_types := Some tys |}
    else Sql.buckets c !! k.
Proof.
  simpl. destruct (Sql.buckets c !! id) as [old|].
  - intros [= <-]. simpl. split; [reflexivity |].
    rewrite lookup_insert. now destruct (decide (id = k)).
  - destruct (decide _); [discriminate |].
    intros [= <-]. simpl. split; [reflexivity |].
    rewrite lookup_insert. now destruct (decide (id = k)).
Qed.

(** An upsert fails exactly in the blocked state. *)
Lemma sql_upsert_blocked (id nm : string) (pub : bool) (lim : Z)
    (tys : list string) (c : Sql.Catalog) :
  Sql.step (Sql.UpsertBucket id nm pub lim tys) c = None <->
  Sql.blocked id nm c.
Proof.
  unfold Sql.blocked. simpl. destruct (Sql.buckets c !! id) as [old|].
  - split; [discriminate | intros [H _]; discriminate H].
  - destruct (decide _) as [Hin | Hout]; split; auto.
    + discriminate.
    + intros [_ Hin]. contradiction.
Qed.

(** The names in use after an upsert: those in use before, and the name
    of the row if it was inserted. *)
Lemma sql_upsert_names (id nm : string) (pub : bool) (lim : Z)
    (tys : list string) (c c' : Sql.Catalog) (n : string) :
  Sql.step (Sql.UpsertBucket id nm pub lim tys) c = Some c' ->
  Sql.name_in_use n c' <->
  Sql.name_in_use n c \/ (Sql.buckets c !! id = None /\ n = nm).
Proof.
  unfold Sql.name_in_use. rewrite !map_Exists_lookup. simpl.
  destruct (Sql.buckets c !! id) as [old|] eqn:Hid.
  - intros [= <-]. simpl. split.
    + intros (i & x & Hix & Hn). left.
      apply lookup_insert_Some in Hix as [[<- <-] | [Hne Hix]]; eauto.
    + intros [(i & x & Hix & Hn) | [H _]]; [| discriminate H].
      destruct (decide (id = i)) as [<- | Hne].
      * exists id. eexists. rewrite lookup_insert_eq. split; [reflexivity |].
        simpl. congruence.
      * exists i, x. now rewrite lookup_insert_ne.
  - destruct (decide _); [discriminate |].
    intros [= <-]. simpl. split.
    + intros (i & x & Hix & Hn).
      apply lookup_insert_Some in Hix as [[<- <-] | [Hne Hix]]; eauto.
    + intros [(i & x & Hix & Hn) | [_ ->]].
      * exists i, x. split; [| exact Hn].
        rewrite lookup_insert_ne; [exact Hix | congruence].
      * exists id. eexists. rewrite lookup_insert_eq. split; reflexivity.
Qed.

Lemma shrill_plain_on_policies :
  Forall Sql.on_policies (Sql.shrill_plain_drops ++ Sql.shrill_plain_creates).
Proof.
  unfold Sql.shrill_plain_drops, Sql.shrill_plain_creates. simpl.
  repeat (apply List.Forall_cons; [exact I |]). constructor.
Qed.

Lemma calm_limit_on_policies : Forall Sql.on_policies Sql.calm_limit.
Proof.
  unfold Sql.calm_limit, Sql.calm_limit_drops, Sql.calm_limit_creates,
    Sql.shrill_plain_drops.
  simpl. repeat (apply List.Forall_cons; [exact I |]). constructor.
Qed.

(** The buckets after [shrill_plain]. *)
Lemma shrill_plain_buckets_lookup (c c1 : Sql.Catalog) (k : string) :
  Sql.run Sql.shrill_plain c = Some c1 ->
  Sql.buckets c1 !! k =
    if decide (k = "application-forms" \/ k = "drafts")
    then Some {| Sql.name := match Sql.buckets c !! k with
                             | Some old => Sql.name old
                             | None => k
                             end;
                 Sql.public := match Sql.buckets c !! k with
                               | Some old => Sql.public old
                               | None => false
                               end;
                 Sql.file_size_limit := Some 52428800;
                 Sql.allowed_mime_types := Some Sql.mime_types |}
    else Sql.buckets c !! k.
Proof.
  unfold Sql.shrill_plain. rewrite sql_run_app.
  destruct (Sql.run Sql.shrill_plain_buckets c) as [cb|] eqn:Hb; [| discriminate].
  intros Hr.
  assert (Hkeep : Sql.buckets c1 = Sql.buckets cb).
  { apply (sql_run_keeps_buckets
             (Sql.shrill_plain_drops ++ Sql.shrill_plain_creates));
      [| exact Hr].
    apply shrill_plain_on_policies. }
  rewrite Hkeep. clear Hr Hkeep.
  unfold Sql.shrill_plain_buckets in Hb. cbn [Sql.run] in Hb.
  destruct (Sql.step _ c) as [ca|] eqn:Ha; [| discriminate].
  destruct (Sql.step _ ca) as [cb'|] eqn:Hd; [| discriminate].
  injection Hb as <-.
  destruct (sql_upsert_lookup _ _ _ _ _ _ _ k Hd) as [_ ->].
  destruct (sql_upsert_lookup _ _ _ _ _ _ _ "drafts" Ha) as [_ Hda].
  destruct (sql_upsert_lookup _ _ _ _ _ _ _ k Ha) as [_ ->].
  rewrite Hda.
  destruct (decide ("application-forms" = "drafts")) as [E|_]; [discriminate E |].
  destruct (decide ("drafts" = k)) as [<- | Hnd].
  - destruct (decide (_ \/ _)) as [_ | Hno]; [reflexivity | exfalso; auto].
  - destruct (decide ("application-forms" = k)) as [<- | Hna].
    + destruct (decide (_ \/ _)) as [_ | Hno]; [reflexivity | exfalso; auto].
    + destruct (decide (_ \/ _)) as [[-> | ->] | _]; [easy | easy | reflexivity].
Qed.

(** Whether the two upserts of [shrill_plain] go through. *)
Lemma shrill_plain_buckets_outcome (c : Sql.Catalog) :
  match Sql.run Sql.shrill_plain_buckets c with
  | Some _ =>
      ~ Sql.blocked "application-forms" "application-forms" c /\
      ~ Sql.blocked "drafts" "drafts" c
  | None =>
      Sql.blocked "application-forms" "application-forms" c \/
      Sql.blocked "drafts" "drafts" c
  end.
Proof.
  unfold Sql.shrill_plain_buckets. cbn [Sql.run].
  destruct (Sql.step _ c) as [ca|] eqn:Ha.
  - assert (Hnot : ~ Sql.blocked "application-forms" "application-forms" c).
    { intros Hb. apply sql_upsert_blocked with (pub := false)
        (lim := 52428800) (tys := Sql.mime_types) in Hb.
      cbn [Sql.run] in *. congruence. }
    assert (Hsame : Sql.blocked "drafts" "drafts" ca <->
                    Sql.blocked "drafts" "drafts" c).
    { unfold Sql.blocked.
      destruct (sql_upsert_lookup _ _ _ _ _ _ _ "drafts" Ha) as [_ ->].
      destruct (decide ("application-forms" = "drafts")) as [E|_];
        [discriminate E |].
      rewrite (sql_upsert_names _ _ _ _ _ _ _ "drafts" Ha).
      split; intros [H1 H2]; (split; [exact H1 |]); [| now left].
      destruct H2 as [H2 | [_ E]]; [exact H2 | discriminate E]. }
    destruct (Sql.step _ ca) as [cb|] eqn:Hd.
    + split; [exact Hnot |]. intros Hb. apply Hsame in Hb.
      apply sql_upsert_blocked with (pub := false)
        (lim := 52428800) (tys := Sql.mime_types) in Hb.
      congruence.
    + right. apply Hsame. eapply sql_upsert_blocked. exact Hd.
  - left. eapply sql_upsert_blocked. exact Ha.
Qed.

Lemma shrill_plain_policies_run (c : Sql.Catalog) :
  exists c', Sql.run (Sql.shrill_plain_drops ++ Sql.shrill_plain_creates) c
             = Some c'.
Proof.
  apply (sql_run_recreates _ shrill_plain_on_policies [] c eq_refl).
  intros k [].
Qed.

(** [shrill_plain] stops with an error exactly when one of its two bucket
    names is carried by a row of another id while no row has the id itself
    (the unique index on the name, which [ON CONFLICT (id)] does not
    cover).  Once it has run, running it again changes nothing: it drops
    every policy name it creates before creating it, and its upserts then
    only rewrite the two limits. *)
Theorem shrill_plain_rerunnable (c : Sql.Catalog) :
  (Sql.run Sql.shrill_plain c = None <->
   Sql.blocked "application-forms" "application-forms" c \/
   Sql.blocked "drafts" "drafts" c) /\
  (forall c1, Sql.run Sql.shrill_plain c = Some c1 ->
              Sql.run Sql.shrill_plain c1 = Some c1).
Proof.
  assert (Hout : forall c0,
             match Sql.run Sql.shrill_plain c0 with
             | Some _ =>
                 ~ Sql.blocked "application-forms" "application-forms" c0 /\
                 ~ Sql.blocked "drafts" "drafts" c0
             | None =>
                 Sql.blocked "application-forms" "application-forms" c0 \/
                 Sql.blocked "drafts" "drafts" c0
             end).
  { intros c0. unfold Sql.shrill_plain. rewrite sql_run_app.
    pose proof (shrill_plain_buckets_outcome c0) as H.
    destruct (Sql.run Sql.shrill_plain_buckets c0) as [cb|]; [| exact H].
    destruct (shrill_plain_policies_run cb) as (c' & ->). exact H. }
  split.
  - pose proof (Hout c) as H.
    destruct (Sql.run Sql.shrill_plain c) as [c1|].
    + split; [discriminate |]. intros [Hb | Hb]; [now apply H in Hb |].
      destruct H as [_ H]. now apply H in Hb.
    + split; [intros _; exact H | reflexivity].
  - intros c1 H1.
    pose proof (Hout c1) as H.
    destruct (Sql.run Sql.shrill_plain c1) as [c2|] eqn:H2.
    + f_equal.
      assert (Hp : Sql.policies c2 = Sql.policies c1).
      { apply map_eq. intros n.
        rewrite (sql_run_policies _ _ _ n H2), (sql_run_policies _ _ _ n H1).
        now destruct (Sql.effect Sql.shrill_plain n). }
      assert (Hb : Sql.buckets c2 = Sql.buckets c1).
      { apply map_eq. intros k.
        rewrite (shrill_plain_buckets_lookup _ _ k H2).
        destruct (decide (_ \/ _)) as [Hk | Hk]; [| reflexivity].
        rewrite (shrill_plain_buckets_lookup _ _ k H1).
        destruct (decide (_ \/ _)) as [_ | Hno]; [reflexivity | contradiction]. }
      clear H1 H2 H Hout. destruct c1 as [b1 p1], c2 as [b2 p2].
      cbn [Sql.buckets Sql.policies] in Hp, Hb. subst. reflexivity.
    + exfalso. destruct H as [[Hno _] | [Hno _]].
      * rewrite (shrill_plain_buckets_lookup _ _ _ H1) in Hno.
        destruct (decide (_ \/ _)) as [_ | Hk]; [discriminate Hno |].
        apply Hk. now left.
      * rewrite (shrill_plain_buckets_lookup _ _ _ H1) in Hno.
        destruct (decide (_ \/ _)) as [_ | Hk]; [discriminate Hno |].
        apply Hk. now right.
Qed.

(** [calm_limit] and the migration headed [Fix Storage RLS Policies]
    cannot be run twice: each creates its policies under names it does not
    drop, so a second run stops with an error at its first CREATE POLICY. *)
Theorem later_migrations_run_once (c c1 : Sql.Catalog) :
  (Sql.run Sql.calm_limit c = Some c1 ->
   Sql.run Sql.calm_limit c1 = None) /\
  (Sql.run Sql.fix_storage_rls c = Some c1 ->
   Sql.run Sql.fix_storage_rls c1 = None).
Proof.
  split; intros H.
  - apply sql_create_in_use; [reflexivity |].
    rewrite (sql_run_policies _ _ _ _ H). vm_compute. eauto.
  - apply sql_create_in_use; [reflexivity |].
    rewrite (sql_run_policies _ _ _ _ H). vm_compute. eauto.
Qed.

(** Goes through the statements of a migration that create the policy in
    [Hin], leaving for each the name, command and expression. *)
Ltac policy_cases Hin :=
  simpl in Hin;
  repeat (destruct Hin as [Hin | Hin];
          [try discriminate Hin; injection Hin as Ename Ecommand Eexpr |]);
  [.. | destruct Hin].

Lemma bucket_and_true (bucket : string) (cond : Sql.Session -> bool)
    (b : string) (s : Sql.Session) :
  Sql.bucket_and bucket cond b s = true <-> b = bucket /\ cond s = true.
Proof.
  unfold Sql.bucket_and. rewrite andb_true_iff, String.eqb_eq. reflexivity.
Qed.

Lemma uid_is_not_null_true (s : Sql.Session) :
  Sql.uid_is_not_null s = true <-> Sql.uid s <> None.
Proof.
  unfold Sql.uid_is_not_null. destruct (Sql.uid s); split; congruence.
Qed.

Lemma role_is_authenticated_true (s : Sql.Session) :
  Sql.role_is_authenticated s = true <-> Sql.role s = "authenticated".
Proof. unfold Sql.role_is_authenticated. apply String.eqb_eq. Qed.

(** The policy a migration leaves under a name it creates last. *)
Lemma sql_permits_by (m : list Sql.Statement) (c c' : Sql.Catalog)
    (n : string) (cmd : Sql.Command) (e : string -> Sql.Session -> bool)
    (s : Sql.Session) (b : string) :
  Sql.run m c = Some c' ->
  Sql.effect m n = Some (Some {| Sql.command := cmd; Sql.expr := e |}) ->
  e b s = true ->
  Sql.permits c' s cmd b.
Proof.
  intros Hr He Hx. exists n, {| Sql.command := cmd; Sql.expr := e |}.
  split; [| now split].
  now rewrite (sql_run_policies _ _ _ n Hr), He.
Qed.

(** Shows a command let through by naming the policy, tried among the
    given names. *)
Ltac permitted_by m c c1 H1 cond names :=
  match goal with
  | |- Sql.permits _ ?s ?cmd ?b =>
      let rec go ns :=
        lazymatch ns with
        | ?n :: ?rest =>
            first
              [ solve [ apply (sql_permits_by m c c1 n cmd
                                 (Sql.bucket_and b cond) s b H1);
                        [ vm_compute; reflexivity
                        | apply bucket_and_true; now split ] ]
              | go rest ]
        end in
      go names
  end.

(** After [shrill_plain] has run on a database whose policies all carry
    names that it drops, a command on [storage.objects] is let through
    exactly for a session with a user id; [calm_limit] then runs without
    error, and after it a command is let through exactly for a session
    whose role is [authenticated]; in both cases exactly on the buckets
    [drafts] and [application-forms], the bucket of the component. *)
Theorem migrations_grant_exactly (c c1 : Sql.Catalog) :
  (forall n, is_Some (Sql.policies c !! n) ->
             In n (Sql.dropped_names Sql.shrill_plain)) ->
  Sql.run Sql.shrill_plain c = Some c1 ->
  (forall s cmd b,
      Sql.permits c1 s cmd b <->
      Sql.uid s <> None /\ (b = "drafts" \/ b = bucket)) /\
  exists c2,
    Sql.run Sql.calm_limit c1 = Some c2 /\
    (forall s cmd b,
        Sql.permits c2 s cmd b <->
        Sql.role s = "authenticated" /\ (b = "drafts" \/ b = bucket)).
Proof.
  intros Hknown H1.
  assert (Hold : forall n, Sql.effect Sql.shrill_plain n = None ->
                           Sql.policies c !! n = None).
  { intros n He. destruct (Sql.policies c !! n) eqn:Hn; [| reflexivity].
    exfalso. apply (sql_effect_dropped Sql.shrill_plain n); [| exact He].
    apply Hknown. rewrite Hn. eauto. }
  pose (names := [ "Allow authenticated users to upload drafts";
                    "Allow authenticated users to view drafts";
                    "Allow authenticated users to update drafts";
                    "Allow authenticated users to delete drafts";
                    "Allow authenticated users to upload application forms";
                    "Allow authenticated users to view application forms";
                    "Allow authenticated users to update application forms";
                    "Allow authenticated users to delete application forms" ]).
  assert (Hfree : forall k, In k names -> Sql.policies c1 !! k = None).
  { intros k Hk. rewrite (sql_run_policies _ _ _ k H1).
    unfold names in Hk. simpl in Hk.
    repeat (destruct Hk as [<- | Hk]; [apply Hold; reflexivity |]).
    destruct Hk. }
  destruct (sql_run_recreates Sql.calm_limit calm_limit_on_policies
              names c1 eq_refl Hfree) as (c2 & H2).
  clear Hfree. clear names.
  split; [| exists c2; split; [exact H2 |]].
  - intros s cmd b. split.
    + intros (n & p & Hp & Hcmd & Hx).
      rewrite (sql_run_policies _ _ _ n H1) in Hp.
      destruct (Sql.effect Sql.shrill_plain n) as [[p'|]|] eqn:He.
      * injection Hp as ->. apply sql_effect_created in He.
        policy_cases He; rewrite <- Eexpr in Hx;
          apply bucket_and_true in Hx as [-> Hx];
          apply uid_is_not_null_true in Hx; auto.
      * discriminate Hp.
      * rewrite (Hold n He) in Hp. discriminate Hp.
    + intros (Hu & Hb). apply uid_is_not_null_true in Hu.
      destruct Hb as [-> | ->]; destruct cmd;
        permitted_by Sql.shrill_plain c c1 H1 Sql.uid_is_not_null
          [ "Authenticated users can upload drafts";
            "Authenticated users can view drafts";
            "Authenticated users can update drafts";
            "Authenticated users can delete drafts";
            "Authenticated users can upload application forms";
            "Authenticated users can view application forms";
            "Authenticated users can update application forms";
            "Authenticated users can delete application forms" ].
  - intros s cmd b. split.
    + intros (n & p & Hp & Hcmd & Hx).
      rewrite (sql_run_policies _ _ _ n H2) in Hp.
      destruct (Sql.effect Sql.calm_limit n) as [[p'|]|] eqn:He.
      * injection Hp as ->. apply sql_effect_created in He.
        policy_cases He; rewrite <- Eexpr in Hx;
          apply bucket_and_true in Hx as [-> Hx];
          apply role_is_authenticated_true in Hx; auto.
      * discriminate Hp.
      * exfalso. rewrite (sql_run_policies _ _ _ n H1) in Hp.
        destruct (Sql.effect Sql.shrill_plain n) as [[p'|]|] eqn:He1.
        -- apply sql_effect_created in He1.
           policy_cases He1; subst n; vm_compute in He; discriminate He.
        -- discriminate Hp.
        -- rewrite (Hold n He1) in Hp. discriminate Hp.
    + intros (Hu & Hb). apply role_is_authenticated_true in Hu.
      destruct Hb as [-> | ->]; destruct cmd;
        permitted_by Sql.calm_limit c1 c2 H2 Sql.role_is_authenticated
          [ "Allow authenticated users to upload drafts";
            "Allow authenticated users to view drafts";
            "Allow authenticated users to update drafts";
            "Allow authenticated users to delete drafts";
            "Allow authenticated users to upload application forms";
            "Allow authenticated users to view application forms";
            "Allow authenticated users to update application forms";
            "Allow authenticated users to delete application forms" ].
Qed.

(** [fix_storage_rls] alone, on a database whose policies all carry names
    that it drops, leaves the bucket of the component closed to every
    session and every command: its policies for the application forms name
    the bucket [application_forms], with an underscore. *)
Theorem first_migration_misses_bucket (c c1 : Sql.Catalog) :
  (forall n, is_Some (Sql.policies c !! n) ->
             In n (Sql.dropped_names Sql.fix_storage_rls)) ->
  Sql.run Sql.fix_storage_rls c = Some c1 ->
  forall s cmd,
    ~ Sql.permits c1 s cmd bucket /\
    (Sql.permits c1 s cmd "application_forms" <-> Sql.uid s <> None).
Proof.
  intros Hknown H1 s cmd.
  assert (Hold : forall n, Sql.effect Sql.fix_storage_rls n = None ->
                           Sql.policies c !! n = None).
  { intros n He. destruct (Sql.policies c !! n) eqn:Hn; [| reflexivity].
    exfalso. apply (sql_effect_dropped Sql.fix_storage_rls n); [| exact He].
    apply Hknown. rewrite Hn. eauto. }
  assert (Hall : forall b, Sql.permits c1 s cmd b ->
                           Sql.uid s <> None /\
                           (b = "drafts" \/ b = "application_forms")).
  { intros b (n & p & Hp & Hcmd & Hx).
    rewrite (sql_run_policies _ _ _ n H1) in Hp.
    destruct (Sql.effect Sql.fix_storage_rls n) as [[p'|]|] eqn:He.
    - injection Hp as ->. apply sql_effect_created in He.
      policy_cases He; rewrite <- Eexpr in Hx;
        apply bucket_and_true in Hx as [-> Hx];
        apply uid_is_not_null_true in Hx; auto.
    - discriminate Hp.
    - rewrite (Hold n He) in Hp. discriminate Hp. }
  split.
  - intros Hp. apply Hall in Hp as [_ [Hb | Hb]]; discriminate Hb.
  - split; [intros Hp; now apply Hall in Hp |].
    intros Hu. apply uid_is_not_null_true in Hu.
    destruct cmd;
      permitted_by Sql.fix_storage_rls c c1 H1 Sql.uid_is_not_null
        [ "Authenticated users can upload drafts";
          "Authenticated users can view drafts";
          "Authenticated users can update drafts";
          "Authenticated users can delete drafts";
          "Authenticated users can upload application forms";
          "Authenticated users can view application forms";
          "Authenticated users can update application forms";
          "Authenticated users can delete application forms" ].
Qed.

(** After [shrill_plain] the bucket of the component exists and its limits
    are those of the client-side validation: the bucket accepts a type and
    size exactly when [handleFileUpload] lets the file through.  A bucket
    that existed before keeps its name and its [public] flag; a new one is
    private. *)
Theorem bucket_limits_match_validation (c c1 : Sql.Catalog) :
  Sql.run Sql.shrill_plain c = Some c1 ->
  exists b,
    Sql.buckets c1 !! bucket = Some b /\
    (forall file,
        Sql.bucket_accepts b (File.type file) (File.size file) =
        passes_validation file) /\
    match Sql.buckets c !! bucket with
    | Some old => Sql.public b = Sql.public old /\ Sql.name b = Sql.name old
    | None => Sql.public b = false /\ Sql.name b = bucket
    end.
Proof.
  intros H1.
  pose proof (shrill_plain_buckets_lookup c c1 bucket H1) as Hb.
  rewrite decide_True in Hb by (left; reflexivity).
  eexists. split; [exact Hb |]. split.
  - intros file. unfold Sql.bucket_accepts, passes_validation.
    cbn [Sql.allowed_mime_types Sql.file_size_limit].
    change Sql.mime_types with allowedTypes.
    rewrite Z.gtb_ltb, Z.ltb_antisym, negb_involutive. reflexivity.
  - cbn [Sql.public Sql.name].
    destruct (Sql.buckets c !! bucket); split; reflexivity.
Qed.

(* ===================================================================== *)
(** * The two flags                                                       *)
(* ===================================================================== *)

Section Flags.
Context {B : Type} (env : Env B).

Lemma loadFiles_flags (w : World B) :
  Component.uploading (ui (exec (loadFiles env) w))
    = Component.uploading (ui w) /\
  Component.loading (ui (exec (loadFiles env) w)) = false.
Proof.
  destruct (loadFiles_shows env w)
    as (u & b & n & cs & rs & Heq & Hlast & _ & _ & Hall & Hdone & _).
  unfold exec. rewrite Heq. simpl. split; [| exact Hdone].
  apply last_Some_snoc in Hlast. rewrite Hlast in Hall.
  apply Forall_app in Hall as [_ Hu].
  apply List.Forall_cons_iff in Hu as [(Hup & _) _]. exact Hup.
Qed.

(** What one event does to the flags. *)
Lemma handle_flags (e : Event) (w : World B) :
  (Component.uploading (ui w) = false ->
   Component.uploading (ui (exec (handle env e) w)) = false) /\
  (Component.loading (ui (exec (handle env e) w)) = false \/
   Component.loading (ui (exec (handle env e) w)) = Component.loading (ui w)) /\
  (e = Load -> Component.loading (ui (exec (handle env e) w)) = false).
Proof.
  assert (Hnone : (Component.uploading (ui w) = false ->
                   Component.uploading (ui w) = false) /\
                  (Component.loading (ui w) = false \/
                   Component.loading (ui w) = Component.loading (ui w)) /\
                  (e = Load -> Component.loading (ui w) = false) \/ e = Load).
  { destruct e; [now right | left ..]; repeat split; auto; discriminate. }
  destruct e as [| [file|] | filePath fileName | shown]; simpl.
  - destruct (loadFiles_flags w) as [Hup Hload].
    rewrite Hup, Hload. auto.
  - unfold exec. destruct (passes_validation file) eqn:Hv.
    + rewrite (upload_accepted env file w Hv). simpl.
      destruct (Storage.upload _ _ _ _ _ _) as [[r|] b]; simpl.
      * destruct (Storage.error r); simpl.
        -- repeat split; auto; discriminate.
        -- match goal with
           | |- context [exec (loadFiles env) ?w1] =>
               destruct (loadFiles_flags w1) as [_ Hload]
           end.
           unfold upload_done, exec in *. simpl in *. rewrite Hload.
           repeat split; auto; discriminate.
      * repeat split; auto; discriminate.
    + rewrite (upload_refused env file w Hv). simpl.
      repeat split; auto; discriminate.
  - destruct Hnone as [Hnone | Hl]; [exact Hnone | discriminate Hl].
  - unfold exec.
    destruct (confirm env ("Are you sure you want to delete " +:+ dquote
                           +:+ fileName +:+ dquote +:+ "?")) eqn:Hc.
    + rewrite (delete_confirmed env filePath fileName w Hc). simpl.
      destruct (Storage.remove _ _ _ _) as [[r|] b]; simpl.
      * destruct (Storage.error r); simpl.
        -- repeat split; auto; discriminate.
        -- match goal with
           | |- context [exec (loadFiles env) ?w1] =>
               destruct (loadFiles_flags w1) as [Hup Hload]
           end.
           unfold exec in *. simpl in *. rewrite Hup, Hload.
           repeat split; auto; discriminate.
      * repeat split; auto; discriminate.
    + rewrite (delete_declined env filePath fileName w Hc).
      destruct Hnone as [Hnone | Hl]; [exact Hnone | discriminate Hl].
  - destruct Hnone as [Hnone | Hl]; [| discriminate Hl].
    destruct (JS.truthy_string (UploadedFile.url shown)) eqn:Hurl;
      [| exact Hnone].
    unfold exec. rewrite download_available; [exact Hnone | exact Hurl].
Qed.

(** With the events handled one after the other, the component never
    comes to rest with the file input disabled, and from the first list
    operation on it never comes to rest showing the spinner: the [finally]
    blocks reset [uploading] and [loading] on every path. *)
Theorem flags_settle (b : B) (events : list Event) :
  Component.uploading (ui (run env events (mount b))) = false /\
  (In Load events ->
   Component.loading (ui (run env events (mount b))) = false).
Proof.
  induction events as [|e es [IHu IHl]] using rev_ind.
  - split; [reflexivity | intros []].
  - rewrite run_snoc.
    destruct (handle_flags e (run env es (mount b))) as (Hup & Hload & Hfirst).
    split; [exact (Hup IHu) |].
    intros Hin. apply in_app_or in Hin as [Hin | [He | []]].
    + destruct Hload as [Hload | Hload]; [exact Hload |].
      rewrite Hload. exact (IHl Hin).
    + exact (Hfirst He).
Qed.

End Flags.

(* ===================================================================== *)
(** * Instances                                                           *)
(* ===================================================================== *)

Lemma failed_upload_stops_witness :
  (calls (exec (handleFileUpload Scenario.confirming (Some Scenario.report))
               (mount Cases.read_only))
   = [ Storage.CallUpload "application-forms" Cases.stored_path Scenario.report
         {| Storage.cacheControl := "3600"; Storage.upsert := false |} ] /\
   Component.error
     (ui (exec (handleFileUpload Scenario.confirming (Some Scenario.report))
               (mount Cases.read_only)))
   = Some "Upload failed: permission denied") /\
  Component.error
    (ui (exec (handleFileUpload (Offline.env "c1" 0 true) (Some Scenario.report))
              (mount tt)))
  = Some "An unexpected error occurred during upload".
Proof.
  split.
  - destruct (failed_upload_stops Scenario.confirming (mount Cases.read_only)
                Scenario.report "Upload failed: permission denied" eq_refl)
      as (Hcalls & Herr & _).
    + vm_compute. eexists. split; reflexivity.
    + split; [| exact Herr]. rewrite Hcalls. vm_compute. reflexivity.
  - destruct (failed_upload_stops (Offline.env "c1" 0 true) (mount tt)
                Scenario.report "An unexpected error occurred during upload"
                eq_refl eq_refl)
      as (_ & Herr & _).
    exact Herr.
Defined.

Lemma successful_upload_relists_witness :
  Component.success (ui Scenario.after_upload)
  = Some ("File " +:+ dquote +:+ "report.pdf" +:+ dquote
          +:+ " uploaded successfully!") /\
  Component.loading (ui Scenario.after_upload) = false.
Proof.
  destruct (successful_upload_relists Scenario.confirming (mount Memory.empty)
              Scenario.report
              {| Storage.data := Some Cases.stored_path; Storage.error := None |}
              (store Scenario.after_upload) eq_refl
              ltac:(vm_compute; reflexivity) eq_refl)
    as (_ & Hsucc & _ & Hload).
  split; [exact Hsucc | exact Hload].
Defined.

Lemma failed_delete_keeps_entry_witness :
  Component.error
    (ui (exec (handleFileDelete Scenario.confirming Cases.stored_path
                 Cases.stored_name) Cases.locked))
  = Some "Failed to delete file: permission denied" /\
  Component.files
    (ui (exec (handleFileDelete Scenario.confirming Cases.stored_path
                 Cases.stored_name) Cases.locked))
  = Component.files (ui Cases.locked).
Proof.
  destruct (failed_delete_keeps_entry Scenario.confirming Cases.locked
              Cases.stored_path Cases.stored_name
              "Failed to delete file: permission denied" eq_refl)
    as (_ & Herr & _ & Hfiles).
  - vm_compute. eexists. split; reflexivity.
  - split; [exact Herr | exact Hfiles].
Defined.

Lemma successful_delete_relists_witness :
  Component.success
    (ui (exec (handleFileDelete Scenario.confirming Cases.stored_path
                 Cases.stored_name) Scenario.after_upload))
  = Some ("File " +:+ dquote +:+ Cases.stored_name +:+ dquote
          +:+ " deleted successfully!").
Proof.
  destruct (successful_delete_relists Scenario.confirming Scenario.after_upload
              Cases.stored_path Cases.stored_name
              {| Storage.data := Some []; Storage.error := None |}
              (snd (Storage.remove (backend Scenario.confirming) bucket
                      [Cases.stored_path] (store Scenario.after_upload)))
              eq_refl ltac:(vm_compute; reflexivity) eq_refl)
    as (_ & Hsucc & _).
  exact Hsucc.
Defined.

Lemma displayed_files_filed_witness :
  Forall (fun v => Forall (filed_under "c1") (Component.files v))
    (renders (snd (live Scenario.confirming Cases.visit (mount Memory.empty)))).
Proof.
  destruct (displayed_files_filed Scenario.confirming Memory.empty Cases.visit)
    as [_ H].
  apply H. constructor.
Defined.

Lemma requests_stay_in_client_folder_witness :
  Forall (in_folder_among ["c1"; "c2"])
    (calls (snd (live Cases.fenced_env Cases.moved (mount Memory.empty)))) /\
  In (Storage.CallRemove "application-forms" [Cases.stored_path])
    (calls (snd (live Cases.fenced_env Cases.moved (mount Memory.empty)))) /\
  clientId (fst (live Cases.fenced_env Cases.moved (mount Memory.empty))) = "c2".
Proof.
  split; [| split; [vm_compute; do 5 right; left; reflexivity
                   | vm_compute; reflexivity]].
  apply (requests_stay_in_client_folder Cases.plain_date Cases.fenced_env
           Memory.empty Cases.moved).
  unfold Cases.moved. cbn [attended offers].
  split; [exact I |]. split; [vm_compute; reflexivity |].
  split; [exact I |]. split; [| exact I].
  exists [render_row Cases.plain_date Cases.stored_file],
         (render_row Cases.plain_date Cases.stored_file).
  split; [vm_compute; reflexivity |].
  split; [left; reflexivity | reflexivity].
Defined.

Lemma download_buttons_pass_guard_witness :
  handleFileDownload Cases.stored_url Cases.stored_name Scenario.after_upload
  = (Normal tt, Scenario.after_upload).
Proof.
  destruct (@download_buttons_pass_guard Memory.t Cases.plain_date) as [H _].
  destruct (H (ui Scenario.after_upload)
              [render_row Cases.plain_date Cases.stored_file]
              (render_row Cases.plain_date Cases.stored_file)
              Cases.stored_url Cases.stored_name Scenario.after_upload)
    as (_ & _ & Hrun).
  - vm_compute. reflexivity.
  - left. reflexivity.
  - reflexivity.
  - exact Hrun.
Defined.

Lemma listing_shows_entries_witness :
  exists rows,
    View.listing
      (render Cases.plain_date
         (ui (exec (loadFiles (Cases.partial Scenario.new_year_2025))
                (mount tt))))
    = View.Rows rows /\
    map View.name rows = ["notes.txt"; Cases.stored_name] /\
    map View.onDelete rows =
      [("c1/notes.txt", "notes.txt"); (Cases.stored_path, Cases.stored_name)] /\
    map View.onDownload rows =
      [None; Some (Cases.stored_url, Cases.stored_name)].
Proof.
  destruct (listing_shows_entries (Cases.partial Scenario.new_year_2025)
              Cases.plain_date (mount tt)
              {| Storage.data := Some [Scenario.bare; Cases.stored_entry];
                 Storage.error := None |}
              tt tt [Scenario.bare; Cases.stored_entry]
              [None; Some Cases.stored_url]
              eq_refl eq_refl eq_refl eq_refl)
    as (_ & rows & Hrows & Hnames & Hdel & Hdown).
  exists rows. split; [exact Hrows |]. split; [exact Hnames |].
  split; [exact Hdel |].
  destruct rows as [|r1 [|r2 [|r3 rows]]]; try discriminate Hnames.
  injection Hnames as Hn1 Hn2.
  apply List.Forall2_cons_iff in Hdown as [Hd1 Hdown].
  apply List.Forall2_cons_iff in Hdown as [Hd2 _].
  simpl. rewrite Hd1, Hd2, Hn2. reflexivity.
Defined.

Lemma object_name_shape_witness :
  JS.has_char "/"
    (derived_name "report.pdf"
       (upload_timestamp Scenario.confirming (mount Memory.empty))) = false /\
  JS.split "."
    (derived_name "report.pdf"
       (upload_timestamp Scenario.confirming (mount Memory.empty)))
  = [ "report_2025-01-01T00-00-00-000Z"; "pdf" ].
Proof.
  destruct (object_name_shape Scenario.confirming (mount Memory.empty)
              "report.pdf") as (Hslash & _ & _ & Hsplit).
  split; [exact (Hslash eq_refl) |].
  rewrite Hsplit. vm_compute. reflexivity.
Defined.

Lemma formatFileSize_whole_units_witness :
  Format.formatFileSize 5242880 = "5 MB" /\
  Format.formatFileSize 1023 = "1023 Bytes".
Proof.
  split.
  - exact (formatFileSize_whole_units 5 2 "MB"
             ltac:(split; [discriminate | reflexivity])
             ltac:(discriminate) eq_refl).
  - exact (formatFileSize_whole_units 1023 0 "Bytes"
             ltac:(split; [discriminate | reflexivity])
             ltac:(discriminate) eq_refl).
Defined.

Lemma formatFileSize_rounds_up_to_1024_witness :
  Format.formatFileSize 1048575 = "1024 KB".
Proof.
  apply (formatFileSize_rounds_up_to_1024 1048575 1 "KB").
  - discriminate.
  - reflexivity.
  - discriminate.
  - reflexivity.
Defined.

Lemma shrill_plain_rerunnable_witness :
  Sql.run Sql.shrill_plain Cases.renamed = None /\
  exists c1,
    Sql.run Sql.shrill_plain Sql.empty = Some c1 /\
    Sql.run Sql.shrill_plain c1 = Some c1.
Proof.
  split.
  - destruct (shrill_plain_rerunnable Cases.renamed) as [[_ H] _].
    apply H. left. split; [reflexivity |].
    apply map_Exists_lookup. exists "forms". eexists.
    split; [vm_compute; reflexivity | reflexivity].
  - destruct (Sql.run Sql.shrill_plain Sql.empty) as [c1|] eqn:H1;
      [| vm_compute in H1; discriminate H1].
    exists c1. split; [reflexivity |].
    destruct (shrill_plain_rerunnable Sql.empty) as [_ H].
    exact (H c1 H1).
Defined.

Lemma later_migrations_run_once_witness :
  exists c1,
    Sql.run Sql.calm_limit Sql.empty = Some c1 /\
    Sql.run Sql.calm_limit c1 = None.
Proof.
  destruct (Sql.run Sql.calm_limit Sql.empty) as [c1|] eqn:H1;
    [| vm_compute in H1; discriminate H1].
  exists c1. split; [reflexivity |].
  destruct (later_migrations_run_once Sql.empty c1) as [H _].
  exact (H H1).
Defined.

Lemma migrations_grant_exactly_witness :
  exists c1 c2,
    Sql.run Sql.shrill_plain Sql.empty = Some c1 /\
    Sql.run Sql.calm_limit c1 = Some c2 /\
    Sql.permits c2 Cases.member Sql.INSERT "application-forms" /\
    ~ Sql.permits c2 Cases.visitor Sql.SELECT "application-forms".
Proof.
  destruct (Sql.run Sql.shrill_plain Sql.empty) as [c1|] eqn:H1;
    [| vm_compute in H1; discriminate H1].
  destruct (migrations_grant_exactly Sql.empty c1) as (_ & c2 & H2 & H4).
  - intros n [p Hp]. discriminate Hp.
  - exact H1.
  - exists c1, c2. split; [reflexivity |]. split; [exact H2 |]. split.
    + apply H4. split; [reflexivity | right; reflexivity].
    + intros Hp. apply H4 in Hp as [Hrole _]. discriminate Hrole.
Defined.

Lemma first_migration_misses_bucket_witness :
  exists c1,
    Sql.run Sql.fix_storage_rls Sql.empty = Some c1 /\
    ~ Sql.permits c1 Cases.member Sql.INSERT "application-forms" /\
    Sql.permits c1 Cases.member Sql.INSERT "application_forms".
Proof.
  destruct (Sql.run Sql.fix_storage_rls Sql.empty) as [c1|] eqn:H1;
    [| vm_compute in H1; discriminate H1].
  exists c1. split; [reflexivity |].
  destruct (first_migration_misses_bucket Sql.empty c1) with
    (s := Cases.member) (cmd := Sql.INSERT) as [Hno Hyes].
  - intros n [p Hp]. discriminate Hp.
  - exact H1.
  - split; [exact Hno |]. apply Hyes. discriminate.
Defined.

Lemma bucket_limits_match_validation_witness :
  exists c1 b,
    Sql.run Sql.shrill_plain Sql.empty = Some c1 /\
    Sql.buckets c1 !! "application-forms" = Some b /\
    Sql.bucket_accepts b (File.type Scenario.largest) (File.size Scenario.largest)
      = true /\
    Sql.bucket_accepts b (File.type Scenario.installer)
      (File.size Scenario.installer) = false /\
    Sql.public b = false.
Proof.
  destruct (Sql.run Sql.shrill_plain Sql.empty) as [c1|] eqn:H1;
    [| vm_compute in H1; discriminate H1].
  destruct (bucket_limits_match_validation Sql.empty c1 H1)
    as (b & Hb & Hacc & Hpub & _).
  exists c1, b. split; [reflexivity |]. split; [exact Hb |].
  split; [now rewrite Hacc |]. split; [now rewrite Hacc | exact Hpub].
Defined.

Lemma flags_settle_witness :
  Component.uploading
    (ui (run Scenario.confirming Cases.clicks (mount Memory.empty))) = false /\
  Component.loading
    (ui (run Scenario.confirming Cases.clicks (mount Memory.empty))) = false.
Proof.
  destruct (flags_settle Scenario.confirming Memory.empty Cases.clicks)
    as [Hup Hload].
  split; [exact Hup |]. apply Hload. left. reflexivity.
Defined.
